(** * Tomasulo's algorithm simulator: a shallow embedding of the scheduling engine

    The development follows [tomasulo.py], [instruction.py] and
    [reservation_station.py].  Python integers are unbounded, so every
    integer field is a [Z]; Python lists are Rocq lists accessed through
    [py_get] / [py_set], which reproduce Python's indexing rules (negative
    indices count from the end, anything else out of range raises
    [IndexError]); the dictionary [station_id_to_index] is a [gmap]; the two
    deques are lists whose head is the left end.  Exceptions are fatal in the
    simulator, so every operation returns in the error monad [Res]. *)

From stdpp Require Import base option list sorting gmap strings.
From Stdlib Require Import ZArith Lia.

Local Open Scope Z_scope.

(** ** Exceptions and Python list indexing *)

Inductive PyExn : Type :=
| IndexError
| KeyError
| ValueError
| AttributeError
| EOFError
| SystemExit.

Inductive Res (A : Type) : Type :=
| Ok (a : A)
| Raise (e : PyExn).

Arguments Ok {A} a.
Arguments Raise {A} e.

#[global] Instance Res_ret : MRet Res := λ A x, Ok x.
#[global] Instance Res_bind : MBind Res :=
  λ A B f m, match m with Ok a => f a | Raise e => Raise e end.

Definition is_Ok {A} (r : Res A) : Prop :=
  match r with Ok _ => True | Raise _ => False end.

(** [l[i]] for a list of length [n]: the position read, or [IndexError]. *)
Definition py_index (n : nat) (i : Z) : Res nat :=
  if bool_decide (0 ≤ i < Z.of_nat n) then Ok (Z.to_nat i)
  else if bool_decide (- Z.of_nat n ≤ i < 0) then Ok (Z.to_nat (i + Z.of_nat n))
  else Raise IndexError.

Definition py_get {A} (l : list A) (i : Z) : Res A :=
  k ← py_index (length l) i;
  match l !! k with
  | Some x => Ok x
  | None => Raise IndexError
  end.

Definition py_set {A} (l : list A) (i : Z) (x : A) : Res (list A) :=
  k ← py_index (length l) i;
  Ok (<[k:=x]> l).

(** [deque[0]], [deque[-1]] and [deque.popleft()]. *)
Definition deque_front {A} (q : list A) : Res A :=
  match q with
  | x :: _ => Ok x
  | [] => Raise IndexError
  end.

Definition popleft {A} (q : list A) : Res (list A) :=
  match q with
  | _ :: t => Ok t
  | [] => Raise IndexError
  end.

(** Python truth value of a comparison stored in an integer field. *)
Definition Z_of_bool (b : bool) : Z := if b then 1 else 0.

(** ** instruction.py *)

Inductive InstructionCategory : Type :=
| LOAD | STORE | BEQ | JUMP | ADDITION | MUL | NOR.

Definition category_value (c : InstructionCategory) : nat :=
  match c with
  | LOAD => 0 | STORE => 1 | BEQ => 2 | JUMP => 3
  | ADDITION => 4 | MUL => 5 | NOR => 6
  end%nat.

Inductive ResStationOp : Type :=
| CALL | RET | ADD | ADDI.

#[global] Instance InstructionCategory_eq_dec : EqDecision InstructionCategory.
Proof. solve_decision. Defined.

#[global] Instance ResStationOp_eq_dec : EqDecision ResStationOp.
Proof. solve_decision. Defined.

Record Instruction : Type := mkInstruction {
  i_index : Z;
  i_category : InstructionCategory;
  i_op : option ResStationOp;
  i_issue : Z;
  i_exec_start : Z;
  i_exec_end : Z;
  i_write_back : Z;
  i_rd : Z;
  i_rs : Z;
  i_rt : Z;
  i_imm : Z
}.

Definition set_i_issue (c : Z) (x : Instruction) : Instruction :=
  mkInstruction (i_index x) (i_category x) (i_op x) c (i_exec_start x)
    (i_exec_end x) (i_write_back x) (i_rd x) (i_rs x) (i_rt x) (i_imm x).

Definition set_i_exec_start (c : Z) (x : Instruction) : Instruction :=
  mkInstruction (i_index x) (i_category x) (i_op x) (i_issue x) c
    (i_exec_end x) (i_write_back x) (i_rd x) (i_rs x) (i_rt x) (i_imm x).

Definition set_i_exec_end (c : Z) (x : Instruction) : Instruction :=
  mkInstruction (i_index x) (i_category x) (i_op x) (i_issue x) (i_exec_start x)
    c (i_write_back x) (i_rd x) (i_rs x) (i_rt x) (i_imm x).

Definition set_i_write_back (c : Z) (x : Instruction) : Instruction :=
  mkInstruction (i_index x) (i_category x) (i_op x) (i_issue x) (i_exec_start x)
    (i_exec_end x) c (i_rd x) (i_rs x) (i_rt x) (i_imm x).

(** One line of the program file after the regular expression of its
    mnemonic has split it into fields: the mnemonic decides the constructor,
    the register fields are the numbers after the leading letter, the
    immediate is the decimal field.  The last four constructors are the
    lines on which the decoder builds no record:
    - [L_blank] has no word at all, so [instruction_splitted[0]] raises
      IndexError;
    - [L_no_match] starts with one of the eight mnemonics that have a
      pattern, but [re.match] returns [None] (as for a lowercase [call 5],
      since [CALL_PATTERN] spells the mnemonic), so [instruction.group]
      raises AttributeError;
    - [L_bad_field] matches its pattern, but a register field without its
      first character is no decimal number, so [int] raises ValueError
      before the immediate is checked;
    - [L_invalid] is a line whose first word is none of the nine
      mnemonics. *)
Inductive SourceLine : Type :=
| L_load (rd imm rs : Z)
| L_store (rt imm rs : Z)
| L_beq (rs rt imm : Z)
| L_call (imm : Z)
| L_ret
| L_add (rd rs rt : Z)
| L_addi (rd rs imm : Z)
| L_mul (rd rs rt : Z)
| L_nor (rd rs rt : Z)
| L_blank
| L_no_match
| L_bad_field
| L_invalid.

(** The record built by [Instruction.__init__] before parsing. *)
Definition blank_instruction (idx : Z) (c : InstructionCategory)
    (o : option ResStationOp) (rd rs rt imm : Z) : Instruction :=
  mkInstruction idx c o 0 0 0 0 rd rs rt imm.

Definition imm5_ok (imm : Z) : bool :=
  negb (bool_decide (imm < -16) || bool_decide (imm > 15)).

Definition imm7_ok (imm : Z) : bool :=
  negb (bool_decide (imm < -64) || bool_decide (imm > 63)).

(** [Instruction.parse_instruction]; [exit(1)] is [Raise SystemExit], the
    other exceptions are those of the list access, of the failed match and
    of [int]. *)
Definition parse_instruction (line : SourceLine) (idx : Z) : Res Instruction :=
  match line with
  | L_load rd imm rs =>
      if imm5_ok imm then Ok (blank_instruction idx LOAD None rd rs 0 imm)
      else Raise SystemExit
  | L_store rt imm rs =>
      if imm5_ok imm then Ok (blank_instruction idx STORE None 0 rs rt imm)
      else Raise SystemExit
  | L_beq rs rt imm =>
      if imm5_ok imm then Ok (blank_instruction idx BEQ None 0 rs rt imm)
      else Raise SystemExit
  | L_call imm =>
      if imm7_ok imm then Ok (blank_instruction idx JUMP (Some CALL) 1 0 0 imm)
      else Raise SystemExit
  | L_ret => Ok (blank_instruction idx JUMP (Some RET) 0 1 0 0)
  | L_add rd rs rt => Ok (blank_instruction idx ADDITION (Some ADD) rd rs rt 0)
  | L_addi rd rs imm =>
      if imm5_ok imm then Ok (blank_instruction idx ADDITION (Some ADDI) rd rs 0 imm)
      else Raise SystemExit
  | L_mul rd rs rt => Ok (blank_instruction idx MUL None rd rs rt 0)
  | L_nor rd rs rt => Ok (blank_instruction idx NOR None rd rs rt 0)
  | L_blank => Raise IndexError
  | L_no_match => Raise AttributeError
  | L_bad_field => Raise ValueError
  | L_invalid => Raise SystemExit
  end.

(** ** reservation_station.py *)

Record ReservationStation : Type := mkStation {
  s_id : Z;
  busy : bool;
  s_op : option ResStationOp;
  vj : Z;
  vk : Z;
  qj : Z;
  qk : Z;
  s_a : Z;
  cycles_for_exec : Z;
  cycles_for_addr : Z;
  rem_cycles_exec : Z;
  rem_cycles_addr : Z;
  inst_index : Z;
  result : Z
}.

(** [ReservationStation.__init__]; the display name is not modelled. *)
Definition new_station (id cfe cfa : Z) : ReservationStation :=
  mkStation id false None 0 0 0 0 0 cfe cfa (-1) (-1) (-1) (-1).

Definition set_busy (b : bool) (s : ReservationStation) : ReservationStation :=
  mkStation (s_id s) b (s_op s) (vj s) (vk s) (qj s) (qk s) (s_a s)
    (cycles_for_exec s) (cycles_for_addr s) (rem_cycles_exec s)
    (rem_cycles_addr s) (inst_index s) (result s).

Definition set_vj (v : Z) (s : ReservationStation) : ReservationStation :=
  mkStation (s_id s) (busy s) (s_op s) v (vk s) (qj s) (qk s) (s_a s)
    (cycles_for_exec s) (cycles_for_addr s) (rem_cycles_exec s)
    (rem_cycles_addr s) (inst_index s) (result s).

Definition set_vk (v : Z) (s : ReservationStation) : ReservationStation :=
  mkStation (s_id s) (busy s) (s_op s) (vj s) v (qj s) (qk s) (s_a s)
    (cycles_for_exec s) (cycles_for_addr s) (rem_cycles_exec s)
    (rem_cycles_addr s) (inst_index s) (result s).

Definition set_qj (v : Z) (s : ReservationStation) : ReservationStation :=
  mkStation (s_id s) (busy s) (s_op s) (vj s) (vk s) v (qk s) (s_a s)
    (cycles_for_exec s) (cycles_for_addr s) (rem_cycles_exec s)
    (rem_cycles_addr s) (inst_index s) (result s).

Definition set_qk (v : Z) (s : ReservationStation) : ReservationStation :=
  mkStation (s_id s) (busy s) (s_op s) (vj s) (vk s) (qj s) v (s_a s)
    (cycles_for_exec s) (cycles_for_addr s) (rem_cycles_exec s)
    (rem_cycles_addr s) (inst_index s) (result s).

Definition set_a (v : Z) (s : ReservationStation) : ReservationStation :=
  mkStation (s_id s) (busy s) (s_op s) (vj s) (vk s) (qj s) (qk s) v
    (cycles_for_exec s) (cycles_for_addr s) (rem_cycles_exec s)
    (rem_cycles_addr s) (inst_index s) (result s).

Definition set_rem_cycles_exec (v : Z) (s : ReservationStation) : ReservationStation :=
  mkStation (s_id s) (busy s) (s_op s) (vj s) (vk s) (qj s) (qk s) (s_a s)
    (cycles_for_exec s) (cycles_for_addr s) v
    (rem_cycles_addr s) (inst_index s) (result s).

Definition set_rem_cycles_addr (v : Z) (s : ReservationStation) : ReservationStation :=
  mkStation (s_id s) (busy s) (s_op s) (vj s) (vk s) (qj s) (qk s) (s_a s)
    (cycles_for_exec s) (cycles_for_addr s) (rem_cycles_exec s)
    v (inst_index s) (result s).

Definition set_result (v : Z) (s : ReservationStation) : ReservationStation :=
  mkStation (s_id s) (busy s) (s_op s) (vj s) (vk s) (qj s) (qk s) (s_a s)
    (cycles_for_exec s) (cycles_for_addr s) (rem_cycles_exec s)
    (rem_cycles_addr s) (inst_index s) v.

(** ** tomasulo.py: the engine state *)

Definition NUM_REGISTERS : nat := 8.
Definition NUM_RES_STATIONS_Types : nat := 7.

Record SystemStatus : Type := mkSystemStatus {
  ss_issue : Z;
  ss_register_status : list Z
}.

Record Tomasulo : Type := mkTomasulo {
  memory : list Z;
  registers : list Z;
  program : list Instruction;
  reservation_stations : list (list ReservationStation);
  station_id_to_index : gmap Z (nat * nat);
  register_status : list Z;
  load_store_queue : list Z;
  system_status_queue : list SystemStatus;
  pc : Z;
  cycle : Z;
  num_beq : Z;
  num_mispredictions : Z;
  num_written_insts : Z
}.

Definition set_memory (v : list Z) (t : Tomasulo) : Tomasulo :=
  mkTomasulo v (registers t) (program t) (reservation_stations t)
    (station_id_to_index t) (register_status t) (load_store_queue t)
    (system_status_queue t) (pc t) (cycle t) (num_beq t)
    (num_mispredictions t) (num_written_insts t).

Definition set_registers (v : list Z) (t : Tomasulo) : Tomasulo :=
  mkTomasulo (memory t) v (program t) (reservation_stations t)
    (station_id_to_index t) (register_status t) (load_store_queue t)
    (system_status_queue t) (pc t) (cycle t) (num_beq t)
    (num_mispredictions t) (num_written_insts t).

Definition set_program (v : list Instruction) (t : Tomasulo) : Tomasulo :=
  mkTomasulo (memory t) (registers t) v (reservation_stations t)
    (station_id_to_index t) (register_status t) (load_store_queue t)
    (system_status_queue t) (pc t) (cycle t) (num_beq t)
    (num_mispredictions t) (num_written_insts t).

Definition set_reservation_stations (v : list (list ReservationStation))
    (t : Tomasulo) : Tomasulo :=
  mkTomasulo (memory t) (registers t) (program t) v
    (station_id_to_index t) (register_status t) (load_store_queue t)
    (system_status_queue t) (pc t) (cycle t) (num_beq t)
    (num_mispredictions t) (num_written_insts t).

Definition set_station_id_to_index (v : gmap Z (nat * nat)) (t : Tomasulo) : Tomasulo :=
  mkTomasulo (memory t) (registers t) (program t) (reservation_stations t)
    v (register_status t) (load_store_queue t)
    (system_status_queue t) (pc t) (cycle t) (num_beq t)
    (num_mispredictions t) (num_written_insts t).

Definition set_register_status (v : list Z) (t : Tomasulo) : Tomasulo :=
  mkTomasulo (memory t) (registers t) (program t) (reservation_stations t)
    (station_id_to_index t) v (load_store_queue t)
    (system_status_queue t) (pc t) (cycle t) (num_beq t)
    (num_mispredictions t) (num_written_insts t).

Definition set_load_store_queue (v : list Z) (t : Tomasulo) : Tomasulo :=
  mkTomasulo (memory t) (registers t) (program t) (reservation_stations t)
    (station_id_to_index t) (register_status t) v
    (system_status_queue t) (pc t) (cycle t) (num_beq t)
    (num_mispredictions t) (num_written_insts t).

Definition set_system_status_queue (v : list SystemStatus) (t : Tomasulo) : Tomasulo :=
  mkTomasulo (memory t) (registers t) (program t) (reservation_stations t)
    (station_id_to_index t) (register_status t) (load_store_queue t)
    v (pc t) (cycle t) (num_beq t)
    (num_mispredictions t) (num_written_insts t).

Definition set_pc (v : Z) (t : Tomasulo) : Tomasulo :=
  mkTomasulo (memory t) (registers t) (program t) (reservation_stations t)
    (station_id_to_index t) (register_status t) (load_store_queue t)
    (system_status_queue t) v (cycle t) (num_beq t)
    (num_mispredictions t) (num_written_insts t).

Definition set_cycle (v : Z) (t : Tomasulo) : Tomasulo :=
  mkTomasulo (memory t) (registers t) (program t) (reservation_stations t)
    (station_id_to_index t) (register_status t) (load_store_queue t)
    (system_status_queue t) (pc t) v (num_beq t)
    (num_mispredictions t) (num_written_insts t).

Definition set_num_beq (v : Z) (t : Tomasulo) : Tomasulo :=
  mkTomasulo (memory t) (registers t) (program t) (reservation_stations t)
    (station_id_to_index t) (register_status t) (load_store_queue t)
    (system_status_queue t) (pc t) (cycle t) v
    (num_mispredictions t) (num_written_insts t).

Definition set_num_mispredictions (v : Z) (t : Tomasulo) : Tomasulo :=
  mkTomasulo (memory t) (registers t) (program t) (reservation_stations t)
    (station_id_to_index t) (register_status t) (load_store_queue t)
    (system_status_queue t) (pc t) (cycle t) (num_beq t)
    v (num_written_insts t).

Definition set_num_written_insts (v : Z) (t : Tomasulo) : Tomasulo :=
  mkTomasulo (memory t) (registers t) (program t) (reservation_stations t)
    (station_id_to_index t) (register_status t) (load_store_queue t)
    (system_status_queue t) (pc t) (cycle t) (num_beq t)
    (num_mispredictions t) v.

(** [self.reservation_stations[i]] and [self.reservation_stations[i][j]]
    for loop indices, which are never negative. *)
Definition get_row (t : Tomasulo) (i : nat) : Res (list ReservationStation) :=
  match reservation_stations t !! i with
  | Some row => Ok row
  | None => Raise IndexError
  end.

Definition get_station (t : Tomasulo) (i j : nat) : Res ReservationStation :=
  row ← get_row t i;
  match row !! j with
  | Some s => Ok s
  | None => Raise IndexError
  end.

(** A station object mutated in place: the new contents of slot [(i, j)]. *)
Definition put_station (i j : nat) (s : ReservationStation) (t : Tomasulo) : Tomasulo :=
  set_reservation_stations (alter (λ row, <[j:=s]> row) i (reservation_stations t)) t.

(** [self.program[k].field = v]. *)
Definition upd_instruction (k : Z) (f : Instruction → Instruction)
    (t : Tomasulo) : Res Tomasulo :=
  x ← py_get (program t) k;
  p ← py_set (program t) k (f x);
  Ok (set_program p t).

(** A [for] loop whose body may raise. *)
Fixpoint for_each {X} (body : nat → X → Res X) (js : list nat) (x : X) : Res X :=
  match js with
  | [] => Ok x
  | j :: rest => x' ← body j x; for_each body rest x'
  end.

(** [for i in rows: for s in self.reservation_stations[i]: body]; the loop
    state [X] carries the engine (read through [eng]) and the loop's locals. *)
Definition for_stations {X} (eng : X → Tomasulo) (body : nat → nat → X → Res X)
    (rows : list nat) (x : X) : Res X :=
  for_each (λ i x,
    row ← get_row (eng x) i;
    for_each (body i) (seq 0 (length row)) x) rows x.

(** *** Construction *)

(** One line of the hardware file, already split and converted by
    [map(int, line.split())]. *)
Definition HardwareLine : Type := list Z.

Definition default_hardware : list HardwareLine :=
  [ [2; 2; 4]; [2; 2; 4]; [2; 1]; [1; 1]; [4; 2]; [2; 10]; [2; 1] ].

(** [station_types] of [_initialize_hardware], the prefixes of the station
    names. *)
Definition station_types : list string :=
  ["LOAD"; "STORE"; "BEQ"; "JUMP"; "ADD"; "MUL"; "NOR"]%string.

(** The inner loop [for j in range(num_stations)] of the default branch of
    [_initialize_hardware]: appends the stations of one category, numbering
    them from [next_id].  The name prefix [type_] comes from the enumeration
    of [station_types] and is always there. *)
Fixpoint add_stations (i : nat) (cfe cfa : Z) (js : list nat) (next_id : Z)
    (row : list ReservationStation) (idx : gmap Z (nat * nat))
    : list ReservationStation * gmap Z (nat * nat) * Z :=
  match js with
  | [] => (row, idx, next_id)
  | j :: rest =>
      add_stations i cfe cfa rest (next_id + 1)
        (row ++ [new_station next_id cfe cfa]) (<[next_id := (i, j)]> idx)
  end.

(** The inner loop of the file branch: every pass first builds the station's
    name from [station_types[i]], so a line after the seventh that asks for
    a station raises IndexError before the station is made. *)
Fixpoint add_named_stations (i : nat) (cfe cfa : Z) (js : list nat) (next_id : Z)
    (row : list ReservationStation) (idx : gmap Z (nat * nat))
    : Res (list ReservationStation * gmap Z (nat * nat) * Z) :=
  match js with
  | [] => Ok (row, idx, next_id)
  | j :: rest =>
      _ ← py_get station_types (Z.of_nat i);
      add_named_stations i cfe cfa rest (next_id + 1)
        (row ++ [new_station next_id cfe cfa]) (<[next_id := (i, j)]> idx)
  end.

(** The default branch: [cycles_for_addr] is read for rows 0 and 1 only. *)
Definition default_line_fields (i : nat) (line : HardwareLine) : Res (Z * Z * Z) :=
  num ← py_get line 0;
  cfe ← py_get line 1;
  cfa ← (if bool_decide (i = 0%nat ∨ i = 1%nat) then py_get line 2 else Ok 0);
  Ok (num, cfe, cfa).

(** The file branch: [num_stations, cycles_for_exec, *cycles_for_addr]. *)
Definition custom_line_fields (line : HardwareLine) : Res (Z * Z * Z) :=
  match line with
  | num :: cfe :: rest =>
      Ok (num, cfe, match rest with a :: _ => a | [] => 0 end)
  | _ => Raise ValueError
  end.

Fixpoint init_rows (is_default : bool) (i : nat) (lines : list HardwareLine)
    (next_id : Z) (bank : list (list ReservationStation))
    (idx : gmap Z (nat * nat))
    : Res (list (list ReservationStation) * gmap Z (nat * nat)) :=
  match lines with
  | [] => Ok (bank, idx)
  | line :: rest =>
      '(num, cfe, cfa) ← (if is_default then default_line_fields i line
                          else custom_line_fields line);
      '(row, idx', next_id') ←
        (if is_default
         then Ok (add_stations i cfe cfa (seq 0 (Z.to_nat num)) next_id [] idx)
         else add_named_stations i cfe cfa (seq 0 (Z.to_nat num)) next_id [] idx);
      init_rows is_default (S i) rest next_id' (bank ++ [row]) idx'
  end.

Definition _initialize_hardware (is_default_hardware : bool)
    (hardware_file : list HardwareLine) (t : Tomasulo) : Res Tomasulo :=
  '(bank, idx) ← init_rows is_default_hardware 0
      (if is_default_hardware then default_hardware else hardware_file) 1 [] ∅;
  Ok (set_station_id_to_index idx (set_reservation_stations bank t)).

Fixpoint read_lines (lines : list SourceLine) (prog : list Instruction)
    : Res (list Instruction) :=
  match lines with
  | [] => Ok prog
  | line :: rest =>
      x ← parse_instruction line (Z.of_nat (length prog));
      read_lines rest (prog ++ [x])
  end.

Definition _read_instructions (instruction_file : list SourceLine)
    (t : Tomasulo) : Res Tomasulo :=
  p ← read_lines instruction_file (program t);
  Ok (set_program p t).

(** The fields assigned by [Tomasulo.__init__] before the two readers run. *)
Definition blank_engine (initial_PC : Z) : Tomasulo :=
  mkTomasulo (replicate (Z.to_nat 65536) 0) (<[0%nat := 0]> [0; 1; 2; 3; 4; 5; 6; 7]) [] [] ∅
    (replicate NUM_REGISTERS 0) [] [] initial_PC 1 0 0 0.

(** [Tomasulo.__init__]. *)
Definition Tomasulo_init (instruction_file : list SourceLine)
    (is_default_hardware : bool) (hardware_file : list HardwareLine)
    (initial_PC : Z) : Res Tomasulo :=
  t ← _read_instructions instruction_file (blank_engine initial_PC);
  _initialize_hardware is_default_hardware hardware_file t.

(** One line of the memory file: [M_word address value] when
    [line.split()] gives exactly two fields and [int] accepts both,
    [M_malformed] otherwise.  On a malformed line the unpacking or [int]
    raises ValueError, in any case before the memory is indexed: the
    assignment evaluates [int(value)] and [int(address)] first. *)
Inductive MemoryLine : Type :=
| M_word (address value : Z)
| M_malformed.

(** [initialize_memory]. *)
Fixpoint initialize_memory (memory_file : list MemoryLine) (t : Tomasulo) : Res Tomasulo :=
  match memory_file with
  | [] => Ok t
  | M_word address value :: rest =>
      m ← py_set (memory t) address value;
      initialize_memory rest (set_memory m t)
  | M_malformed :: _ => Raise ValueError
  end.

(** *** Issue *)

(** The first station of the row that is not busy, as the [for] / [break]
    of [issue] finds it. *)
Fixpoint find_free (row : list ReservationStation) (j : nat) : option nat :=
  match row with
  | [] => None
  | s :: rest => if busy s then find_free rest (S j) else Some j
  end.

(** "Check first operand readiness". *)
Definition read_first_operand (t : Tomasulo) (r : Z) (s : ReservationStation)
    : Res ReservationStation :=
  q ← py_get (register_status t) r;
  if bool_decide (q ≠ 0) then Ok (set_qj q s)
  else v ← py_get (registers t) r; Ok (set_qj 0 (set_vj v s)).

(** "Check second operand readiness". *)
Definition read_second_operand (t : Tomasulo) (r : Z) (s : ReservationStation)
    : Res ReservationStation :=
  q ← py_get (register_status t) r;
  if bool_decide (q ≠ 0) then Ok (set_qk q s)
  else v ← py_get (registers t) r; Ok (set_qk 0 (set_vk v s)).

(** [self.system_status_queue[-1].register_status[rd] = id]. *)
Fixpoint rename_in_last (q : list SystemStatus) (rd id : Z) : Res (list SystemStatus) :=
  match q with
  | [] => Raise IndexError
  | [ss] =>
      l ← py_set (ss_register_status ss) rd id;
      Ok [mkSystemStatus (ss_issue ss) l]
  | ss :: rest => r ← rename_in_last rest rd id; Ok (ss :: r)
  end.

(** "Update register status for destination register". *)
Definition rename_destination (rd id : Z) (t : Tomasulo) : Res Tomasulo :=
  if bool_decide (rd ≠ 0) then
    match system_status_queue t with
    | [] => l ← py_set (register_status t) rd id; Ok (set_register_status l t)
    | q => q' ← rename_in_last q rd id; Ok (set_system_status_queue q' t)
    end
  else Ok t.

(** "Handle branch and jump instructions": the snapshot copies the live
    table when the queue is empty and the last snapshot's table otherwise. *)
Definition push_snapshot (t : Tomasulo) : Tomasulo :=
  match last (system_status_queue t) with
  | None =>
      set_system_status_queue [mkSystemStatus (cycle t) (register_status t)] t
  | Some top =>
      set_system_status_queue
        (system_status_queue t ++ [mkSystemStatus (cycle t) (ss_register_status top)]) t
  end.

(** The body of the [if not station.busy] of [issue], for the free station
    found at slot [(i, j)]. *)
Definition issue_into (i j : nat) (t : Tomasulo) : Res Tomasulo :=
  s ← get_station t i j;
  inst ← py_get (program t) (pc t);
  t ← upd_instruction (pc t) (set_i_issue (cycle t)) t;
  let s := set_busy true s in
  let s := set_a (i_imm inst) s in
  let s := mkStation (s_id s) (busy s) (i_op inst) (vj s) (vk s) (qj s) (qk s)
             (s_a s) (cycles_for_exec s) (cycles_for_addr s)
             (cycles_for_exec s) (cycles_for_addr s) (pc t) (result s) in
  s ← read_first_operand t (i_rs inst) s;
  s ← read_second_operand t (i_rt inst) s;
  let t := put_station i j s t in
  t ← rename_destination (i_rd inst) (s_id s) t;
  let t :=
    if bool_decide (i_category inst = LOAD ∨ i_category inst = STORE)
    then set_load_store_queue (load_store_queue t ++ [pc t]) t else t in
  let t :=
    if bool_decide (i_category inst = BEQ ∨ i_category inst = JUMP)
    then push_snapshot t else t in
  Ok (set_pc (pc t + 1) t).

Definition issue (t : Tomasulo) : Res Tomasulo :=
  inst ← py_get (program t) (pc t);
  row ← get_row t (category_value (i_category inst));
  match find_free row 0 with
  | Some j => issue_into (category_value (i_category inst)) j t
  | None => Ok t
  end.

(** *** Execute *)

Definition exec_result (category : InstructionCategory) (station : ReservationStation)
    : ReservationStation :=
  match category with
  | BEQ => set_result (Z_of_bool (bool_decide (vj station = vk station))) station
  | JUMP =>
      if bool_decide (s_op station = Some CALL)
      then set_result (inst_index station + 1) station
      else set_result (vj station) station
  | ADDITION =>
      if bool_decide (s_op station = Some ADD)
      then set_result (vj station + vk station) station
      else set_result (vj station + s_a station) station
  | MUL => set_result (Z.land (vj station * vk station) 65535) station
  | NOR => set_result (Z.lnot (Z.lor (vj station) (vk station))) station
  | LOAD | STORE => station
  end.

(** "Skip if instruction is after a BEQ until it writes back". *)
Definition speculation_gate (t : Tomasulo) (iss : Z) : bool :=
  match system_status_queue t with
  | [] => false
  | front :: _ => bool_decide (iss > ss_issue front)
  end.

(** The body of the first loop of [execute] for the station at [(i, j)]. *)
Definition execute_station (i j : nat) (t : Tomasulo) : Res Tomasulo :=
  s ← get_station t i j;
  if busy s then
    inst ← py_get (program t) (inst_index s);
    if bool_decide (i_issue inst < cycle t) then
      if speculation_gate t (i_issue inst) then Ok t
      else if bool_decide (qj s = 0) && bool_decide (qk s = 0)
              && bool_decide (i_issue inst ≤ cycle t)
              && bool_decide (rem_cycles_exec s ≠ 0) then
        t ← (if bool_decide (rem_cycles_exec s = cycles_for_exec s)
                && negb (bool_decide (i_exec_start inst > 0))
             then upd_instruction (inst_index s) (set_i_exec_start (cycle t)) t
             else Ok t);
        let s := if bool_decide (rem_cycles_exec s ≠ 0)
                 then set_rem_cycles_exec (rem_cycles_exec s - 1) s else s in
        if bool_decide (rem_cycles_exec s = 0) then
          let s := exec_result (i_category inst) s in
          t ← upd_instruction (inst_index s) (set_i_exec_end (cycle t)) t;
          Ok (put_station i j s t)
        else Ok (put_station i j s t)
      else Ok t
    else Ok t
  else Ok t.

(** The hazard scans of the second loop: is there a busy station in [row],
    not yet executed, issued before [iss] and with address [a]? *)
Fixpoint hazard_scan (prog : list Instruction) (iss a : Z)
    (row : list ReservationStation) : Res bool :=
  match row with
  | [] => Ok false
  | o :: rest =>
      if busy o && bool_decide (rem_cycles_exec o ≠ 0) then
        oi ← py_get prog (inst_index o);
        if bool_decide (i_issue oi < iss) && bool_decide (s_a o = a) then Ok true
        else hazard_scan prog iss a rest
      else hazard_scan prog iss a rest
  end.

(** "Handle address calculation", for a station whose base is ready and which
    is at the head of the load/store queue. *)
Definition resolve_address (i j : nat) (s : ReservationStation)
    (x : Tomasulo * bool) : Res (Tomasulo * bool) :=
  let '(t, queue_pop) := x in
  t ← (if bool_decide (rem_cycles_addr s = cycles_for_addr s)
       then upd_instruction (inst_index s) (set_i_exec_start (cycle t)) t
       else Ok t);
  let s := if bool_decide (rem_cycles_addr s ≠ 0)
           then set_rem_cycles_addr (rem_cycles_addr s - 1) s else s in
  if bool_decide (rem_cycles_addr s = 0) then
    let s := set_a (vj s + s_a s) s in
    r ← py_get (memory t) (s_a s);
    Ok (put_station i j (set_result r s) t, true)
  else Ok (put_station i j s t, queue_pop).

(** "Handle execution" of a load ([i = 0]) or a store ([i = 1]). *)
Definition execute_memory_access (i j : nat) (s : ReservationStation)
    (t : Tomasulo) : Res Tomasulo :=
  inst ← py_get (program t) (inst_index s);
  stores ← get_row t 1;
  hazard ← hazard_scan (program t) (i_issue inst) (s_a s) stores;
  s ← (if bool_decide (i = 1%nat) then
         loads ← get_row t 0;
         WAR ← hazard_scan (program t) (i_issue inst) (s_a s) loads;
         if negb WAR && negb hazard
         then Ok (set_rem_cycles_exec (rem_cycles_exec s - 1) s) else Ok s
       else if negb hazard
         then Ok (set_rem_cycles_exec (rem_cycles_exec s - 1) s) else Ok s);
  if bool_decide (rem_cycles_exec s = 0) then
    t ← upd_instruction (inst_index s) (set_i_exec_end (cycle t)) t;
    if bool_decide (i = 0%nat) then
      r ← py_get (memory t) (s_a s);
      Ok (put_station i j (set_result r s) t)
    else Ok (put_station i j s t)
  else Ok (put_station i j s t).

(** The body of the second loop of [execute]; the boolean is [queue_pop]. *)
Definition execute_memory_station (i j : nat) (x : Tomasulo * bool)
    : Res (Tomasulo * bool) :=
  let '(t, queue_pop) := x in
  s ← get_station t i j;
  if busy s then
    inst ← py_get (program t) (inst_index s);
    if bool_decide (i_issue inst < cycle t) then
      if speculation_gate t (i_issue inst) then Ok x
      else if bool_decide (rem_cycles_addr s ≠ 0) then
        if bool_decide (qj s = 0) then
          head ← deque_front (load_store_queue t);
          if bool_decide (head = inst_index s) then resolve_address i j s x
          else Ok x
        else Ok x
      else if bool_decide (rem_cycles_exec s ≠ 0) then
        t ← execute_memory_access i j s t; Ok (t, queue_pop)
      else Ok x
    else Ok x
  else Ok x.

Definition execute (t : Tomasulo) : Res Tomasulo :=
  t ← for_stations (λ t, t) execute_station [2; 3; 4; 5; 6]%nat t;
  '(t, queue_pop) ← for_stations fst execute_memory_station [0; 1]%nat (t, false);
  if (queue_pop : bool) then
    q ← popleft (load_store_queue t); Ok (set_load_store_queue q t)
  else Ok t.

(** *** Write-back *)

(** The locals of the selection loop of [write].  [min_store_issue_time] is
    assigned once and never read, so it is not part of the loop state. *)
Record WriteChoice : Type := mkWriteChoice {
  write_station_id : Z;
  write_store_station_id : Z;
  min_issue_time : Z
}.

Definition no_choice : WriteChoice := mkWriteChoice (-1) (-1) (2 ^ 31 - 1).

(** The body of "Find stations ready to write back" for slot [(i, j)]. *)
Definition choose_station (t : Tomasulo) (i j : nat) (c : WriteChoice)
    : Res WriteChoice :=
  s ← get_station t i j;
  if busy s && bool_decide (rem_cycles_exec s = 0) then
    inst ← py_get (program t) (inst_index s);
    if bool_decide (i_exec_end inst < cycle t) then
      if bool_decide (i = category_value STORE) && bool_decide (qk s ≠ 0) then Ok c
      else if bool_decide (i_issue inst < min_issue_time c) then
        if bool_decide (i = category_value STORE)
        then Ok (mkWriteChoice (write_station_id c) (s_id s) (i_issue inst))
        else Ok (mkWriteChoice (s_id s) (write_store_station_id c) (i_issue inst))
      else Ok c
    else Ok c
  else Ok c.

Definition all_rows : list nat := seq 0 NUM_RES_STATIONS_Types.

Definition choose_stations (t : Tomasulo) : Res WriteChoice :=
  for_stations (λ _, t) (choose_station t) all_rows no_choice.

(** [self.station_id_to_index[id]]. *)
Definition station_position (t : Tomasulo) (id : Z) : Res (nat * nat) :=
  match station_id_to_index t !! id with
  | Some p => Ok p
  | None => Raise KeyError
  end.

(** "Handle store instruction write-back". *)
Definition write_store (id : Z) (t : Tomasulo) : Res Tomasulo :=
  let t := set_num_written_insts (num_written_insts t + 1) t in
  '(i, j) ← station_position t id;
  s ← get_station t i j;
  let s := set_busy false s in
  let t := put_station i j s t in
  t ← upd_instruction (inst_index s) (set_i_write_back (cycle t)) t;
  m ← py_set (memory t) (s_a s) (vk s);
  Ok (set_memory m t).

(** "Clear register status": [for j in range(NUM_REGISTERS)] inside the
    first loop of [_flush_instructions_after_jump]. *)
Definition clear_entry (id : Z) (j : nat) (t : Tomasulo) : Res Tomasulo :=
  q ← py_get (register_status t) (Z.of_nat j);
  if bool_decide (q = id) then
    l ← py_set (register_status t) (Z.of_nat j) 0;
    Ok (set_register_status l t)
  else Ok t.

(** The first loop of [_flush_instructions_after_jump], body for [(i, j)]:
    a busy station issued after the retiring instruction is freed and its id
    is swept out of the live rename table. *)
Definition flush_station (w_index : Z) (i j : nat) (t : Tomasulo) : Res Tomasulo :=
  s ← get_station t i j;
  if busy s then
    inst ← py_get (program t) (inst_index s);
    w ← py_get (program t) w_index;
    if bool_decide (i_issue inst > i_issue w) then
      for_each (clear_entry (s_id s)) (seq 0 NUM_REGISTERS)
        (put_station i j (set_busy false s) t)
    else Ok t
  else Ok t.

(** The [while] loop that flushes the load/store queue: it pops from the
    left while the head was issued after the retiring instruction. *)
Fixpoint flush_queue (prog : list Instruction) (w_index : Z) (q : list Z)
    : Res (list Z) :=
  match q with
  | [] => Ok []
  | head :: rest =>
      h ← py_get prog head;
      w ← py_get prog w_index;
      if bool_decide (i_issue h > i_issue w) then flush_queue prog w_index rest
      else Ok q
  end.

Definition _flush_instructions_after_jump (write_station : ReservationStation)
    (t : Tomasulo) : Res Tomasulo :=
  t ← for_stations (λ t, t) (flush_station (inst_index write_station)) all_rows t;
  q ← flush_queue (program t) (inst_index write_station) (load_store_queue t);
  Ok (set_load_store_queue q t).

(** The body of [_broadcast_result] for slot [(i, j)]. *)
Definition broadcast_station (res id : Z) (i j : nat) (t : Tomasulo) : Res Tomasulo :=
  s ← get_station t i j;
  if busy s then
    '(s, t) ← (if bool_decide (qj s = id) && bool_decide (id ≠ 0) then
                 let s := set_vj res (set_qj 0 s) in
                 if bool_decide (qk s = 0) then
                   t ← upd_instruction (inst_index s) (set_i_exec_start (cycle t)) t;
                   Ok (s, t)
                 else Ok (s, t)
               else Ok (s, t));
    '(s, t) ← (if bool_decide (qk s = id) && bool_decide (id ≠ 0) then
                 let s := set_vk res (set_qk 0 s) in
                 if bool_decide (qj s = 0) then
                   t ← upd_instruction (inst_index s) (set_i_exec_start (cycle t)) t;
                   Ok (s, t)
                 else Ok (s, t)
               else Ok (s, t));
    Ok (put_station i j s t)
  else Ok t.

Definition _broadcast_result (write_station : ReservationStation) (id : Z)
    (t : Tomasulo) : Res Tomasulo :=
  for_stations (λ t, t) (broadcast_station (result write_station) id) all_rows t.

(** "Update registers": [for i in range(NUM_REGISTERS)]. *)
Definition update_register (res id : Z) (i : nat) (t : Tomasulo) : Res Tomasulo :=
  q ← py_get (register_status t) (Z.of_nat i);
  if bool_decide (q = id) && bool_decide (i ≠ 0%nat) then
    r ← py_set (registers t) (Z.of_nat i) res;
    l ← py_set (register_status t) (Z.of_nat i) 0;
    Ok (set_register_status l (set_registers r t))
  else Ok t.

(** "Update system with next status": the live rename table is overwritten,
    entry by entry, with the table of the snapshot at the head of the queue. *)
Definition restore_entry (i : nat) (t : Tomasulo) : Res Tomasulo :=
  front ← deque_front (system_status_queue t);
  v ← py_get (ss_register_status front) (Z.of_nat i);
  l ← py_set (register_status t) (Z.of_nat i) v;
  Ok (set_register_status l t).

(** "Handle jump instructions". *)
Definition write_jump (write_station : ReservationStation) (t : Tomasulo)
    : Res Tomasulo :=
  t ← (if bool_decide (s_op write_station = Some CALL) then
         r ← py_set (registers t) 1 (s_a write_station);
         inst ← py_get (program t) (inst_index write_station);
         Ok (set_pc (s_a write_station + i_index inst + 1) (set_registers r t))
       else Ok (set_pc (vj write_station) t));
  let t := set_system_status_queue [] t in
  _flush_instructions_after_jump write_station t.

(** "Handle branch instructions". *)
Definition write_beq (write_station : ReservationStation) (t : Tomasulo)
    : Res Tomasulo :=
  let t := set_num_beq (num_beq t + 1) t in
  if bool_decide (result write_station = 1) then
    inst ← py_get (program t) (inst_index write_station);
    let t := set_pc (1 + i_index inst + s_a write_station) t in
    let t := set_num_mispredictions (num_mispredictions t + 1) t in
    let t := set_system_status_queue [] t in
    _flush_instructions_after_jump write_station t
  else
    t ← for_each restore_entry (seq 0 NUM_REGISTERS) t;
    q ← popleft (system_status_queue t);
    Ok (set_system_status_queue q t).

(** "Handle other instruction write-back". *)
Definition write_other (id : Z) (t : Tomasulo) : Res Tomasulo :=
  let t := set_num_written_insts (num_written_insts t + 1) t in
  '(cat, j) ← station_position t id;
  s ← get_station t cat j;
  let write_station := set_busy false s in
  let t := put_station cat j write_station t in
  t ← upd_instruction (inst_index write_station) (set_i_write_back (cycle t)) t;
  t ← (if bool_decide (cat = category_value JUMP) then write_jump write_station t
       else if bool_decide (cat = category_value BEQ) then write_beq write_station t
       else Ok t);
  if bool_decide (cat ≠ category_value STORE) && bool_decide (cat ≠ category_value BEQ)
  then
    t ← for_each (update_register (result write_station) id) (seq 0 NUM_REGISTERS) t;
    _broadcast_result write_station id t
  else Ok t.

Definition write (t : Tomasulo) : Res Tomasulo :=
  c ← choose_stations t;
  t ← (if bool_decide (write_store_station_id c ≠ -1)
       then write_store (write_store_station_id c) t else Ok t);
  if bool_decide (write_station_id c ≠ -1)
  then write_other (write_station_id c) t else Ok t.

(** *** The per-cycle driver *)

Definition next_cycle (t : Tomasulo) : Res Tomasulo :=
  t ← (if bool_decide (pc t < Z.of_nat (length (program t))) then issue t else Ok t);
  t ← execute t;
  t ← write t;
  Ok (set_cycle (cycle t + 1) t).

(** "Check if all stations are empty". *)
Definition all_stations_empty (t : Tomasulo) : bool :=
  forallb (forallb (λ s, negb (busy s))) (reservation_stations t).

(** The outcome of the [while] loop of [run]: the state when the loop exits,
    an exception, or the loop still running after [fuel] cycles.  What [run]
    does after its loop is not part of the embedding: it prints the state
    and the statistics and then calls [self.display_simulation_stats], which
    reads widgets that only the GUI class has, so [run] itself ends with
    AttributeError there; none of this changes the engine, whose final state
    is the one at the exit of the loop. *)
Inductive Outcome : Type :=
| Finished (t : Tomasulo)
| Crashed (e : PyExn)
| Running (t : Tomasulo).

(** The [while] loop of [run] with tutorial mode off; [empty] is the loop's
    [all_stations_empty] flag, [False] before the first iteration. *)
Fixpoint run_loop (fuel : nat) (empty : bool) (t : Tomasulo) : Outcome :=
  if bool_decide (pc t < Z.of_nat (length (program t))) || negb empty then
    match fuel with
    | O => Running t
    | S fuel' =>
        match next_cycle t with
        | Ok t' => run_loop fuel' (all_stations_empty t') t'
        | Raise e => Crashed e
        end
    end
  else Finished t.

Definition run (fuel : nat) (t : Tomasulo) : Outcome := run_loop fuel false t.

(** [get_stats] without the floating-point ratio. *)
Definition get_stats (t : Tomasulo) : Z * Z * Z * Z :=
  (cycle t, num_written_insts t, num_mispredictions t, num_beq t).

(** ** Drivers used by the scenarios *)

(** The constructor with the decoded records given directly instead of
    being produced by [_read_instructions]. *)
Definition load_program (prog : list Instruction) (is_default_hardware : bool)
    (hardware_file : list HardwareLine) (initial_PC : Z) : Res Tomasulo :=
  _initialize_hardware is_default_hardware hardware_file
    (set_program prog (blank_engine initial_PC)).

(** Construct and load the memory image. *)
Definition construct (instruction_file : list SourceLine) (is_default_hardware : bool)
    (hardware_file : list HardwareLine) (memory_file : list MemoryLine)
    (initial_PC : Z) : Res Tomasulo :=
  t ← Tomasulo_init instruction_file is_default_hardware hardware_file initial_PC;
  initialize_memory memory_file t.

(** Construct, load the memory image, run. *)
Definition simulate (instruction_file : list SourceLine) (is_default_hardware : bool)
    (hardware_file : list HardwareLine) (memory_file : list MemoryLine)
    (initial_PC : Z) (fuel : nat) : Outcome :=
  match t ← Tomasulo_init instruction_file is_default_hardware hardware_file initial_PC;
        initialize_memory memory_file t with
  | Ok t => run fuel t
  | Raise e => Crashed e
  end.

(** *** Tutorial mode *)

(** What the user types at a prompt of tutorial mode: nothing (the empty
    string), [exit], or anything else. *)
Inductive UserInput : Type :=
| U_enter
| U_exit
| U_other.

(** [print_details] changes nothing in the engine.  Its two register tables
    are read at every index of [range(NUM_REGISTERS)], the rename table
    first, so a shorter list raises IndexError; the text it prints is not
    modelled. *)
Definition print_details (t : Tomasulo) : Res unit :=
  _ ← for_each (λ i u, _ ← py_get (register_status t) (Z.of_nat i); Ok u)
        (seq 0 NUM_REGISTERS) ();
  _ ← for_each (λ i u, _ ← py_get (registers t) (Z.of_nat i); Ok u)
        (seq 0 NUM_REGISTERS) ();
  Ok ().

(** The prompt of [run] in tutorial mode: [input] is asked again until the
    answer is the empty string or [exit]; [true] stands for [exit].  The
    console is the list of the answers still to come, and [input] on an
    exhausted console raises EOFError. *)
Fixpoint prompt (console : list UserInput) : Res (bool * list UserInput) :=
  match console with
  | [] => Raise EOFError
  | U_enter :: rest => Ok (false, rest)
  | U_exit :: rest => Ok (true, rest)
  | U_other :: rest => prompt rest
  end.

(** The [while] loop of [run] in either mode.  In tutorial mode every cycle
    is followed by [print_details] and the prompt, and the answer [exit]
    leaves the loop at once; with tutorial mode off the console is never
    read. *)
Fixpoint run_loop_console (is_tutorial_mode : bool) (fuel : nat) (empty : bool)
    (console : list UserInput) (t : Tomasulo) : Outcome :=
  if bool_decide (pc t < Z.of_nat (length (program t))) || negb empty then
    match fuel with
    | O => Running t
    | S fuel' =>
        match next_cycle t with
        | Ok t' =>
            if is_tutorial_mode then
              match _ ← print_details t'; prompt console with
              | Ok (true, _) => Finished t'
              | Ok (false, console') =>
                  run_loop_console is_tutorial_mode fuel' (all_stations_empty t')
                    console' t'
              | Raise e => Crashed e
              end
            else
              run_loop_console is_tutorial_mode fuel' (all_stations_empty t')
                console t'
        | Raise e => Crashed e
        end
    end
  else Finished t.

Definition run_console (is_tutorial_mode : bool) (console : list UserInput)
    (fuel : nat) (t : Tomasulo) : Outcome :=
  run_loop_console is_tutorial_mode fuel false console t.

(** Construct with the given mode, load the memory image, run at the
    console. *)
Definition simulate_console (instruction_file : list SourceLine)
    (is_default_hardware : bool) (hardware_file : list HardwareLine)
    (memory_file : list MemoryLine) (is_tutorial_mode : bool) (initial_PC : Z)
    (console : list UserInput) (fuel : nat) : Outcome :=
  match construct instruction_file is_default_hardware hardware_file memory_file
          initial_PC with
  | Ok t => run_console is_tutorial_mode console fuel t
  | Raise e => Crashed e
  end.

(** [n] calls of [next_cycle]. *)
Fixpoint cycles (n : nat) (t : Tomasulo) : Res Tomasulo :=
  match n with
  | O => Ok t
  | S n' => t' ← next_cycle t; cycles n' t'
  end.

Definition finished (o : Outcome) : option Tomasulo :=
  match o with
  | Finished t => Some t
  | _ => None
  end.


Definition value {A} (r : Res A) : option A :=
  match r with
  | Ok a => Some a
  | Raise _ => None
  end.

(** The four timestamps of an instruction, in pipeline order. *)
Definition timestamps (x : Instruction) : Z * Z * Z * Z :=
  (i_issue x, i_exec_start x, i_exec_end x, i_write_back x).

(** The station object at slot [(i, j)] of a bank, and of the engine. *)
Definition bank_at (B : list (list ReservationStation)) (i j : nat)
    : option ReservationStation :=
  B !! i ≫= (.!! j).

Definition station_at (t : Tomasulo) (i j : nat) : option ReservationStation :=
  bank_at (reservation_stations t) i j.

(** One executing cycle of a station of rows 2..6 on its instruction [x]:
    the timestamps it leaves on the instruction and the station it becomes. *)
Definition executed_instruction (c : Z) (s : ReservationStation) (x : Instruction)
    : Instruction :=
  let x1 := if bool_decide (rem_cycles_exec s = cycles_for_exec s)
               && negb (bool_decide (i_exec_start x > 0))
            then set_i_exec_start c x else x in
  if bool_decide (rem_cycles_exec s - 1 = 0) then set_i_exec_end c x1 else x1.

Definition executed_station (s : ReservationStation) (x : Instruction)
    : ReservationStation :=
  let s1 := set_rem_cycles_exec (rem_cycles_exec s - 1) s in
  if bool_decide (rem_cycles_exec s - 1 = 0) then exec_result (i_category x) s1 else s1.

(** The station that [issue] makes of the free station [s] for instruction
    [x] at PC [p], with operand values [v1], [v2] and producer tags [q1], [q2]. *)
Definition issued_station (s : ReservationStation) (x : Instruction) (p : Z)
    (v1 v2 q1 q2 : Z) : ReservationStation :=
  mkStation (s_id s) true (i_op x) v1 v2 q1 q2 (i_imm x)
    (cycles_for_exec s) (cycles_for_addr s)
    (cycles_for_exec s) (cycles_for_addr s) p (result s).

Definition is_memory (c : InstructionCategory) : bool :=
  bool_decide (c = LOAD ∨ c = STORE).

Definition is_control (c : InstructionCategory) : bool :=
  bool_decide (c = BEQ ∨ c = JUMP).

(** A busy station after the broadcast of result [res] under tag [id], and
    whether the broadcast stamps [exec_start] on the station's instruction. *)
Definition broadcast_to (res id : Z) (s : ReservationStation) : ReservationStation :=
  let s1 := if bool_decide (qj s = id) then set_vj res (set_qj 0 s) else s in
  if bool_decide (qk s1 = id) then set_vk res (set_qk 0 s1) else s1.

Definition broadcast_stamps (id : Z) (s : ReservationStation) : bool :=
  bool_decide ((qj s = id ∧ qk s = 0) ∨ (qk s = id ∧ (qj s = id ∨ qj s = 0))).

(** One cycle of address computation; [r] is the word read when it ends. *)
Definition resolved_instruction (c : Z) (s : ReservationStation) (x : Instruction)
    : Instruction :=
  if bool_decide (rem_cycles_addr s = cycles_for_addr s)
  then set_i_exec_start c x else x.

Definition resolved_station (r : Z) (s : ReservationStation) : ReservationStation :=
  let s1 := set_rem_cycles_addr (rem_cycles_addr s - 1) s in
  if bool_decide (rem_cycles_addr s - 1 = 0)
  then set_result r (set_a (vj s1 + s_a s1) s1) else s1.

(** One cycle of the execution phase of a load or store in row [i];
    [stalled] is the outcome of the hazard scans. *)
Definition accessed_station (i : nat) (stalled : bool) (r : Z)
    (s : ReservationStation) : ReservationStation :=
  let s1 := if stalled then s
            else set_rem_cycles_exec (rem_cycles_exec s - 1) s in
  if bool_decide (rem_cycles_exec s1 = 0) && bool_decide (i = 0%nat)
  then set_result r s1 else s1.

Definition accessed_instruction (c : Z) (stalled : bool) (s : ReservationStation)
    (x : Instruction) : Instruction :=
  if bool_decide ((if stalled then rem_cycles_exec s else rem_cycles_exec s - 1) = 0)
  then set_i_exec_end c x else x.

(** The engine as [write] finds it in the current cycle: after [issue]
    (when the PC is in range) and [execute]. *)
Definition before_write (t : Tomasulo) : Res Tomasulo :=
  t ← (if bool_decide (pc t < Z.of_nat (length (program t))) then issue t else Ok t);
  execute t.

(** Eligibility for write-back as the arbitration rule words it: busy,
    executed, execution ended before the current cycle, and for a STORE
    (row 1) the value to store resolved. *)
Definition eligible (t : Tomasulo) (i : nat) (s : ReservationStation) : bool :=
  busy s && bool_decide (rem_cycles_exec s = 0)
  && match py_get (program t) (inst_index s) with
     | Ok x => bool_decide (i_exec_end x < cycle t)
     | Raise _ => false
     end
  && (negb (bool_decide (i = category_value STORE)) || bool_decide (qk s = 0)).

(** The engine built from a program file with the default hardware at PC 0,
    after [n] cycles; and the same engine just before the write-back of
    cycle [n + 1]. *)
Definition after_cycles (instruction_file : list SourceLine) (n : nat) : Res Tomasulo :=
  t ← Tomasulo_init instruction_file true [] 0;
  cycles n t.

Definition at_write_back (instruction_file : list SourceLine) (n : nat) : Res Tomasulo :=
  t ← after_cycles instruction_file n;
  before_write t.

(** What the selection loop of [write] guarantees about its two choices:
    each is still -1 or names an eligible station of its group. *)
Definition chosen (t : Tomasulo) (c : WriteChoice) : Prop :=
  (write_station_id c = -1
   ∨ ∃ i j s, i ≠ category_value STORE ∧ station_at t i j = Some s
       ∧ s_id s = write_station_id c ∧ eligible t i s = true)
  ∧ (write_store_station_id c = -1
     ∨ ∃ j s, station_at t (category_value STORE) j = Some s
         ∧ s_id s = write_store_station_id c
         ∧ eligible t (category_value STORE) s = true).

(** ** Timestamps of straight-line programs *)

(** A record as the decoder fills it for a line that is not a BEQ, CALL or
    RET: the destination register number is not negative and a load has no
    second source. *)
Definition decoded_straight (x : Instruction) : Prop :=
  is_control (i_category x) = false
  ∧ 0 ≤ i_rd x
  ∧ (i_category x = LOAD → i_rt x = 0).

(** The timestamps of a retired instruction; for a store the order of
    [exec_start] and [exec_end] is left open. *)
Definition retired_ok (x : Instruction) : Prop :=
  0 < i_issue x ≤ i_exec_start x
  ∧ i_exec_end x < i_write_back x
  ∧ (i_category x ≠ STORE → i_exec_start x ≤ i_exec_end x).

(** How far a busy station of row [i] has come, against the timestamps of
    its instruction [x], in cycle [c]. *)
Definition local_ok (i : nat) (s : ReservationStation) (x : Instruction) (c : Z)
    : Prop :=
  (i_exec_start x = 0 ∨ i_issue x ≤ i_exec_start x ≤ c)
  ∧ 0 ≤ rem_cycles_exec s ≤ cycles_for_exec s
  ∧ if bool_decide (2 ≤ i)%nat then
      (qj s ≠ 0 ∨ qk s ≠ 0 → rem_cycles_exec s = cycles_for_exec s)
      ∧ (rem_cycles_exec s < cycles_for_exec s → i_exec_start x ≠ 0)
      ∧ (rem_cycles_exec s = 0 → i_exec_start x ≤ i_exec_end x)
    else
      0 ≤ rem_cycles_addr s ≤ cycles_for_addr s
      ∧ (qj s ≠ 0 → rem_cycles_addr s = cycles_for_addr s)
      ∧ (i = 0%nat → qk s = 0)
      ∧ (rem_cycles_addr s < cycles_for_addr s → i_exec_start x ≠ 0)
      ∧ (rem_cycles_addr s ≠ 0 → rem_cycles_exec s = cycles_for_exec s)
      ∧ (i = 0%nat → rem_cycles_exec s = 0 → i_exec_start x ≤ i_exec_end x).

(** The station bank is the one the constructor built: ids index the
    dictionary, every station takes at least one cycle to execute and every
    load or store station at least one cycle to compute its address. *)
Record bank_ok (t : Tomasulo) : Prop := {
  bank_dict : ∀ i j s, station_at t i j = Some s →
    station_id_to_index t !! s_id s = Some (i, j);
  bank_exec : ∀ i j s, station_at t i j = Some s → 1 ≤ cycles_for_exec s;
  bank_addr : ∀ i j s, station_at t i j = Some s → (i < 2)%nat →
    1 ≤ cycles_for_addr s
}.

(** The engine fields on which the invariants depend, other than the
    program and the bank. *)
Definition same_control (t t' : Tomasulo) : Prop :=
  system_status_queue t' = system_status_queue t
  ∧ cycle t' = cycle t ∧ pc t' = pc t
  ∧ register_status t' = register_status t
  ∧ station_id_to_index t' = station_id_to_index t.

(** A station object after an update that leaves it in use for the same
    instruction, and an instruction after an update of its execution stamps. *)
Definition same_station (s s' : ReservationStation) : Prop :=
  s_id s' = s_id s ∧ cycles_for_exec s' = cycles_for_exec s
  ∧ cycles_for_addr s' = cycles_for_addr s
  ∧ busy s' = busy s ∧ inst_index s' = inst_index s.

Definition same_instruction (x x' : Instruction) : Prop :=
  i_category x' = i_category x ∧ i_rd x' = i_rd x ∧ i_rt x' = i_rt x
  ∧ i_issue x' = i_issue x ∧ i_write_back x' = i_write_back x.

(** A program line that is not a BEQ, CALL or RET and whose destination
    register number, as the pattern [\w+] admits, is not negative. *)
Definition straight_line (l : SourceLine) : Prop :=
  match l with
  | L_load rd _ _ | L_add rd _ _ | L_addi rd _ _ | L_mul rd _ _ | L_nor rd _ _ =>
      0 ≤ rd
  | L_store _ _ _ | L_blank | L_no_match | L_bad_field | L_invalid => True
  | L_beq _ _ _ | L_call _ | L_ret => False
  end.

(** Every station needs at least one cycle to execute, and every station of
    rows 0 and 1 at least one cycle to compute its address. *)
Definition station_timing_ok (i : nat) (s : ReservationStation) : bool :=
  bool_decide (1 ≤ cycles_for_exec s)
  && (bool_decide (2 ≤ i)%nat || bool_decide (1 ≤ cycles_for_addr s)).

Definition hardware_timing_ok (t : Tomasulo) : bool :=
  forallb (λ p, forallb (station_timing_ok p.1) p.2)
    (imap (λ i row, (i, row)) (reservation_stations t)).

(** Every station of the bank is free, is indexed by the dictionary and has
    an id below [next]. *)
Definition bank_built (bank : list (list ReservationStation))
    (idx : gmap Z (nat * nat)) (next : Z) : Prop :=
  ∀ i j s, bank_at bank i j = Some s →
    idx !! s_id s = Some (i, j) ∧ s_id s < next ∧ busy s = false.

(** The invariant of a run of a straight-line program. *)
Record straight_inv (t : Tomasulo) : Prop := {
  si_bank : bank_ok t;
  si_queue : system_status_queue t = [];
  si_cycle : 1 ≤ cycle t;
  si_pc : 0 ≤ pc t;
  si_r0 : register_status t !! 0%nat = Some 0;
  si_straight : ∀ k x, program t !! k = Some x → decoded_straight x;
  si_unissued : ∀ k x, program t !! k = Some x → pc t ≤ Z.of_nat k →
    i_exec_start x = 0 ∧ i_write_back x = 0;
  si_retired : ∀ k x, program t !! k = Some x → i_write_back x ≠ 0 →
    retired_ok x;
  si_busy : ∀ i j s, station_at t i j = Some s → busy s = true →
    ∃ x, 0 ≤ inst_index s < pc t
       ∧ program t !! Z.to_nat (inst_index s) = Some x
       ∧ i_write_back x = 0
       ∧ category_value (i_category x) = i
       ∧ 0 < i_issue x ≤ cycle t
       ∧ local_ok i s x (cycle t);
  si_distinct : ∀ i j s i' j' s',
    station_at t i j = Some s → station_at t i' j' = Some s' →
    busy s = true → busy s' = true → inst_index s = inst_index s' →
    i = i' ∧ j = j'
}.

(** ** Snapshots and control-flow stations *)

(** Rows 2 and 3 of the bank hold the BEQ and the JUMP stations. *)
Definition is_control_row (i : nat) : bool :=
  bool_decide (i = category_value BEQ ∨ i = category_value JUMP).

(** Every BEQ and JUMP station needs at least one cycle to execute. *)
Definition control_timing_ok (t : Tomasulo) : bool :=
  forallb (λ p, forallb (λ s, negb (is_control_row p.1)
                              || bool_decide (1 ≤ cycles_for_exec s)) p.2)
    (imap (λ i row, (i, row)) (reservation_stations t)).

(** Each of the next [n] cycles starts with a PC that is not negative. *)
Fixpoint pcs_nonneg (n : nat) (t : Tomasulo) : bool :=
  match n with
  | O => true
  | S n' =>
      bool_decide (0 ≤ pc t)
      && match next_cycle t with
         | Ok t' => pcs_nonneg n' t'
         | Raise _ => true
         end
  end.

(** The issue cycles recorded in the snapshot queue, front first. *)
Definition snapshot_issues (t : Tomasulo) : list Z :=
  ss_issue <$> system_status_queue t.

(** The invariant that ties the busy BEQ and JUMP stations to the snapshot
    queue; [b] bounds the issue stamps given out so far. *)
Record spec_inv (b : Z) (t : Tomasulo) : Prop := {
  sp_dict : ∀ i j s, station_at t i j = Some s →
    station_id_to_index t !! s_id s = Some (i, j);
  sp_exec : ∀ i j s, station_at t i j = Some s → is_control_row i = true →
    1 ≤ cycles_for_exec s;
  sp_cycle : 1 ≤ cycle t;
  sp_sorted : StronglySorted Z.lt (snapshot_issues t);
  sp_stack_bound : ∀ c, c ∈ snapshot_issues t → c < b;
  sp_issue_bound : ∀ k x, program t !! k = Some x → i_issue x < b;
  sp_issue_distinct : ∀ k k' x x',
    program t !! k = Some x → program t !! k' = Some x' →
    i_issue x = i_issue x' → i_issue x ≠ 0 → k = k';
  sp_busy : ∀ i j s, station_at t i j = Some s → busy s = true →
    is_control_row i = true →
    ∃ x, 0 ≤ inst_index s < pc t
       ∧ program t !! Z.to_nat (inst_index s) = Some x
       ∧ i_issue x ≠ 0
       ∧ i_issue x ∈ snapshot_issues t
       ∧ (rem_cycles_exec s ≠ cycles_for_exec s →
          head (snapshot_issues t) = Some (i_issue x));
  sp_distinct : ∀ i j s i' j' s',
    station_at t i j = Some s → station_at t i' j' = Some s' →
    busy s = true → busy s' = true →
    is_control_row i = true → is_control_row i' = true →
    inst_index s = inst_index s' → i = i' ∧ j = j';
  sp_now : b ≤ cycle t + 1
}.

(** The engine while a BEQ or JUMP station retires, after the station at
    [w_index]'s instruction has been freed: the front snapshot was taken when
    that instruction issued, and every BEQ or JUMP station still busy has not
    started, was issued later and has its snapshot further back. *)
Definition head_retired (t : Tomasulo) (w_index : Z) : Prop :=
  ∃ w, 0 ≤ w_index
     ∧ program t !! Z.to_nat w_index = Some w
     ∧ head (snapshot_issues t) = Some (i_issue w)
     ∧ ∀ i j s, station_at t i j = Some s → busy s = true →
         is_control_row i = true →
         rem_cycles_exec s = cycles_for_exec s
         ∧ ∃ x, program t !! Z.to_nat (inst_index s) = Some x
              ∧ i_issue w < i_issue x
              ∧ i_issue x ∈ tail (snapshot_issues t).

(** The first phase of [write]: the chosen STORE, if any, retires. *)
Definition store_phase (c : WriteChoice) (t : Tomasulo) : Res Tomasulo :=
  if bool_decide (write_store_station_id c ≠ -1)
  then write_store (write_store_station_id c) t else Ok t.

(** ** Scenario programs *)

(** Scenario S3 as the specification writes it. *)
Definition S3_source : list SourceLine :=
  [L_addi 1 0 1; L_beq 1 1 2; L_addi 2 0 99; L_addi 3 0 77; L_addi 4 0 5].

(** The records of S3 as decoding would fill them without the range check. *)
Definition S3_records : list Instruction :=
  [blank_instruction 0 ADDITION (Some ADDI) 1 0 0 1;
   blank_instruction 1 BEQ None 0 1 1 2;
   blank_instruction 2 ADDITION (Some ADDI) 2 0 0 99;
   blank_instruction 3 ADDITION (Some ADDI) 3 0 0 77;
   blank_instruction 4 ADDITION (Some ADDI) 4 0 0 5].

(** S3 with the two skipped immediates brought into the decoder's range. *)
Definition S3_in_range : list SourceLine :=
  [L_addi 1 0 1; L_beq 1 1 2; L_addi 2 0 9; L_addi 3 0 7; L_addi 4 0 5].

(** What S3 observes of a final state: R2, R3, R4, mispredictions, BEQs. *)
Definition S3_observation (t : Tomasulo) : option Z * option Z * option Z * Z * Z :=
  (registers t !! 2%nat, registers t !! 3%nat, registers t !! 4%nat,
   num_mispredictions t, num_beq t).

(** A store followed by four independent additions: the store and the last
    addition finish executing in the same cycle. *)
Definition store_then_adds : list SourceLine :=
  [L_store 1 0 0; L_addi 2 0 1; L_addi 3 0 1; L_addi 4 0 1; L_addi 5 0 1].

(** A load, a taken branch over a second load, and a third load. *)
Definition load_branch_loads : list SourceLine :=
  [L_load 1 0 0; L_beq 0 0 1; L_load 2 0 0; L_load 3 0 0].

(** A store whose value comes from a ten-cycle multiplication. *)
Definition mul_then_store : list SourceLine :=
  [L_mul 1 2 3; L_store 1 0 0].

(** Three multiplications that raise R2 to 63169, then R3 := R2 + R2. *)
Definition add_overflow : list SourceLine :=
  [L_mul 1 7 7; L_mul 1 1 1; L_mul 2 1 1; L_add 3 2 2].

(** A hardware file whose JUMP stations need no execution cycle. *)
Definition zero_cycle_jump_hardware : list HardwareLine :=
  [ [2; 2; 4]; [2; 2; 4]; [2; 1]; [1; 0]; [4; 2]; [2; 10]; [2; 1] ].

(** A not-taken branch followed by a call. *)
Definition branch_then_call : list SourceLine :=
  [L_beq 1 2 0; L_call 5].

(** A load of [-1(R0)] in the last cycle of its address computation, in a
    freshly constructed engine holding that one instruction. *)
Definition resolving_station : ReservationStation :=
  mkStation 1 true None 0 0 0 0 (-1) 2 4 2 1 0 (-1).

Definition resolving_engine : Tomasulo :=
  set_program [blank_instruction 0 LOAD None 1 0 0 (-1)] (blank_engine 0).


Definition engine_of (r : Res Tomasulo) : Tomasulo :=
  match r with
  | Ok t => t
  | Raise _ => blank_engine 0
  end.







(** An addition and a branch back to it: the loop issues both lines again
    and again. *)
Definition add_loop : list SourceLine :=
  [L_addi 1 0 1; L_beq 0 0 (-2)].

(** [mul_then_store] after construction and after 14 cycles, and the record
    of its store at that point. *)
Definition mul_store_start : Tomasulo :=
  engine_of (construct mul_then_store true [] [] 0).

Definition mul_store_end : Tomasulo :=
  engine_of (cycles 14 mul_store_start).

Definition retired_store : Instruction :=
  mkInstruction 1 STORE None 2 12 8 13 0 0 1 0.

(** A branch that is not taken, on its own: constructed with the default
    hardware, after two cycles, and just before the write-back of cycle 3,
    in which the branch retires from station BEQ1 (id 5). *)
Definition lone_branch : list SourceLine := [L_beq 1 2 0].

Definition lone_branch_start : Tomasulo :=
  engine_of (construct lone_branch true [] [] 0).

Definition lone_branch_two : Tomasulo :=
  engine_of (cycles 2 lone_branch_start).

Definition lone_branch_at_write : Tomasulo :=
  engine_of (before_write lone_branch_two).

(** [branch_then_call] on [zero_cycle_jump_hardware]: constructed, and just
    before the write-back of cycle 3. *)
Definition branch_call_start : Tomasulo :=
  engine_of (construct branch_then_call false zero_cycle_jump_hardware [] 0).

Definition branch_call_at_write : Tomasulo :=
  engine_of (before_write (engine_of (cycles 2 branch_call_start))).

(** [branch_then_call] after the first cycle: the branch is issued, its
    snapshot is in the queue and the CALL is next. *)
Definition branch_call_one : Tomasulo := engine_of (cycles 1 branch_call_start).

(** What the retirement of a branch looks at: the two choices of [write],
    the result of the station in slot [j] of the BEQ row and the issue
    cycles of the snapshots. *)
Definition branch_observation (t : Tomasulo) (j : nat)
    : option WriteChoice * option Z * list Z :=
  (value (choose_stations t), result <$> station_at t 2 j, snapshot_issues t).

(** Two branches, the first one taken, on the default timing with a third
    BEQ station, started at PC -2: constructed, and just before the
    write-back of cycle 5. *)
Definition three_branch_hardware : list HardwareLine :=
  [ [2; 2; 4]; [2; 2; 4]; [3; 1]; [1; 1]; [4; 2]; [2; 10]; [2; 1] ].

Definition two_branches : list SourceLine :=
  [L_beq 0 0 5; L_beq 1 2 0].

Definition two_branches_start : Tomasulo :=
  engine_of (construct two_branches false three_branch_hardware [] (-2)).

Definition two_branches_at_write : Tomasulo :=
  engine_of (before_write (engine_of (cycles 4 two_branches_start))).

(** ** What a run leaves alone *)

(** The fields of an instruction record that the decoder fills. *)
Definition decoded_fields (x : Instruction)
    : Z * InstructionCategory * option ResStationOp * Z * Z * Z * Z :=
  (i_index x, i_category x, i_op x, i_rd x, i_rs x, i_rt x, i_imm x).

(** [x'] is [x] with some of its four timestamps overwritten with [c]. *)
Definition stamped (c : Z) (x x' : Instruction) : Prop :=
  decoded_fields x' = decoded_fields x
  ∧ (i_issue x' = i_issue x ∨ i_issue x' = c)
  ∧ (i_exec_start x' = i_exec_start x ∨ i_exec_start x' = c)
  ∧ (i_exec_end x' = i_exec_end x ∨ i_exec_end x' = c)
  ∧ (i_write_back x' = i_write_back x ∨ i_write_back x' = c).

(** The fields of a station that the hardware configuration fixes. *)
Definition configuration (s : ReservationStation) : Z * Z * Z :=
  (s_id s, cycles_for_exec s, cycles_for_addr s).

(** The configuration of every slot of the bank, row by row. *)
Definition bank_layout (bank : list (list ReservationStation))
    : list (list (Z * Z * Z)) :=
  (λ row : list ReservationStation, configuration <$> row) <$> bank.

(** What the stages of one cycle may change between [t] and [t']: they
    stamp instructions with the current cycle, update stations in place,
    write registers other than R0 and memory cells, retire [d]
    instructions and count at most [b] branches. *)
Record evolves (d b : Z) (t t' : Tomasulo) : Prop := {
  ev_cycle : cycle t' = cycle t;
  ev_program : Forall2 (stamped (cycle t)) (program t) (program t');
  ev_bank : Forall2 (Forall2 (λ s s', configuration s' = configuration s))
              (reservation_stations t) (reservation_stations t');
  ev_dict : station_id_to_index t' = station_id_to_index t;
  ev_memory : length (memory t') = length (memory t);
  ev_registers : length (registers t') = length (registers t);
  ev_r0 : registers t' !! 0%nat = registers t !! 0%nat;
  ev_status : length (register_status t') = length (register_status t);
  ev_written : num_written_insts t' = num_written_insts t + d;
  ev_beq : num_mispredictions t' - num_mispredictions t
           ≤ num_beq t' - num_beq t ≤ b;
  ev_mispred : 0 ≤ num_mispredictions t' - num_mispredictions t
}.

(** The dictionary [idx] and the bank [bank] name each other: every station
    is free, has an id in [1, next) and is found at its slot through the
    dictionary; every key of the dictionary is the id of the station at the
    slot it gives; and every id in [1, next) is a key. *)
Definition bank_indexed (bank : list (list ReservationStation))
    (idx : gmap Z (nat * nat)) (next : Z) : Prop :=
  1 ≤ next
  ∧ (∀ i j s, bank_at bank i j = Some s →
       idx !! s_id s = Some (i, j) ∧ 1 ≤ s_id s < next ∧ busy s = false)
  ∧ (∀ id i j, idx !! id = Some (i, j) →
       ∃ s, bank_at bank i j = Some s ∧ s_id s = id)
  ∧ (∀ id, 1 ≤ id < next → is_Some (idx !! id)).

(** A branch that is not taken followed by an addition, after the first
    cycle: the branch has been issued and its snapshot is in the queue. *)
Definition branch_then_add : list SourceLine := [L_beq 1 2 0; L_addi 3 0 5].

Definition branch_then_add_one : Tomasulo :=
  engine_of (cycles 1 (engine_of (construct branch_then_add true [] [] 0))).

(** The cell that a line of the memory file writes in a memory of [n] words:
    none for a malformed line or an address outside [-n, n). *)
Definition line_cell (n : nat) (l : MemoryLine) : option nat :=
  match l with
  | M_word address _ =>
      match py_index n address with
      | Ok k => Some k
      | Raise _ => None
      end
  | M_malformed => None
  end.

(** What [_broadcast_result] makes of a station, and what the first loop of
    [_flush_instructions_after_jump] makes of it for the program [prog] and
    the retiring instruction at [w_index]. *)
Definition after_broadcast (res id : Z) (s : ReservationStation)
    : ReservationStation :=
  if busy s then broadcast_to res id s else s.

Definition after_flush (prog : list Instruction) (w_index : Z)
    (s : ReservationStation) : Res ReservationStation :=
  if busy s then
    x ← py_get prog (inst_index s);
    w ← py_get prog w_index;
    if bool_decide (i_issue x > i_issue w) then Ok (set_busy false s) else Ok s
  else Ok s.

(** [mul_then_store] just before the write-back of cycle 12, in which the
    multiplication retires from station MUL1 (id 12) while the store waits
    for its product. *)
Definition mul_store_at_write : Tomasulo :=
  engine_of (at_write_back mul_then_store 11).

(** [load_branch_loads] just before the write-back of cycle 4, in which
    the taken branch retires from station BEQ1. *)
Definition branch_loads_at_write : Tomasulo :=
  engine_of (at_write_back load_branch_loads 3).

(** An engine with an empty program on the default hardware, and an engine
    built from a hardware file of three lines. *)
Definition empty_program_start : Tomasulo :=
  engine_of (construct [] true [] [] 0).

Definition three_line_hardware : list HardwareLine := [ [1; 1]; [1; 1]; [1; 1] ].

Definition short_bank_start : Tomasulo :=
  engine_of (construct lone_branch false three_line_hardware [] 0).


(* ===================================================================== *)
(** * Properties *)
(* ===================================================================== *)

(** ** Python indexing *)

Lemma py_index_nonneg n i :
  0 ≤ i < Z.of_nat n → py_index n i = Ok (Z.to_nat i).
Proof.
  intros H. unfold py_index. rewrite bool_decide_eq_true_2; done.
Qed.

Lemma py_index_wrap n i :
  - Z.of_nat n ≤ i < 0 → py_index n i = Ok (Z.to_nat (i + Z.of_nat n)).
Proof.
  intros H. unfold py_index.
  rewrite bool_decide_eq_false_2 by lia.
  rewrite bool_decide_eq_true_2; done.
Qed.

Lemma py_index_out n i :
  i < - Z.of_nat n ∨ Z.of_nat n ≤ i → py_index n i = Raise IndexError.
Proof.
  intros H. unfold py_index.
  rewrite bool_decide_eq_false_2 by lia.
  rewrite bool_decide_eq_false_2 by lia. done.
Qed.

Lemma py_index_lt n i k : py_index n i = Ok k → (k < n)%nat.
Proof.
  unfold py_index. repeat case_bool_decide; intros [= <-]; lia.
Qed.

Lemma py_get_Ok {A} (l : list A) i x :
  py_get l i = Ok x → ∃ k, py_index (length l) i = Ok k ∧ l !! k = Some x.
Proof.
  unfold py_get. destruct (py_index (length l) i) as [k|] eqn:E; simpl; [|done].
  destruct (l !! k) eqn:E'; [|done]. intros [= <-]. eauto.
Qed.

Lemma py_get_nonneg {A} (l : list A) i x :
  0 ≤ i → py_get l i = Ok x ↔ l !! Z.to_nat i = Some x.
Proof.
  intros Hi. unfold py_get. split.
  - destruct (py_index (length l) i) as [k|] eqn:E; simpl; [|done].
    unfold py_index in E. repeat case_bool_decide; simplify_eq; try lia.
    destruct (l !! Z.to_nat i); [|done]. by intros [= <-].
  - intros H. pose proof (lookup_lt_Some _ _ _ H) as Hlt.
    rewrite py_index_nonneg by lia. simpl. by rewrite H.
Qed.

Lemma py_get_is_Ok {A} (l : list A) i :
  is_Ok (py_get l i) ↔ - Z.of_nat (length l) ≤ i < Z.of_nat (length l).
Proof.
  unfold py_get, py_index. repeat case_bool_decide; simpl.
  - destruct (lookup_lt_is_Some_2 l (Z.to_nat i)) as [x ->]; [lia|]. simpl. lia.
  - destruct (lookup_lt_is_Some_2 l (Z.to_nat (i + Z.of_nat (length l)))) as [x ->];
      [lia|]. simpl. lia.
  - lia.
Qed.

Lemma py_set_length {A} (l l' : list A) i x :
  py_set l i x = Ok l' → length l' = length l.
Proof.
  unfold py_set. destruct (py_index (length l) i); simpl; [|done].
  intros [= <-]. apply length_insert.
Qed.

(** ** Construction *)

Lemma initialize_hardware_registers d hw t t' :
  _initialize_hardware d hw t = Ok t' → registers t' = registers t.
Proof.
  unfold _initialize_hardware.
  destruct (init_rows _ _ _ _ _ _) as [[bank idx]|]; simpl; [|done].
  by intros [= <-].
Qed.

Lemma read_instructions_registers lines t t' :
  _read_instructions lines t = Ok t' → registers t' = registers t.
Proof.
  unfold _read_instructions.
  destruct (read_lines _ _); simpl; [|done]. by intros [= <-].
Qed.

(** C9.  Right after construction the register file is [0,1,...,7]:
    register [i] holds [i], so R1..R7 are nonzero before the program
    writes them. *)
Theorem C9_initial_registers lines d hw pc0 :
  is_Ok (Tomasulo_init lines d hw pc0) →
  ∃ t, Tomasulo_init lines d hw pc0 = Ok t
     ∧ registers t = [0; 1; 2; 3; 4; 5; 6; 7]
     ∧ (∀ i, 0 ≤ i < 8 → py_get (registers t) i = Ok i)
     ∧ (∀ i, 1 ≤ i < 8 → py_get (registers t) i ≠ Ok 0).
Proof.
  intros H. destruct (Tomasulo_init lines d hw pc0) as [t|] eqn:E; [|done].
  exists t. split; [done|].
  assert (Hr : registers t = [0; 1; 2; 3; 4; 5; 6; 7]).
  { unfold Tomasulo_init in E.
    destruct (_read_instructions _ _) as [t1|] eqn:E1; simpl in E; [|done].
    rewrite (initialize_hardware_registers _ _ _ _ E).
    by rewrite (read_instructions_registers _ _ _ E1). }
  split; [done|]. rewrite Hr.
  assert (Hall : ∀ i, 0 ≤ i < 8 → py_get [0; 1; 2; 3; 4; 5; 6; 7] i = Ok i).
  { intros i Hi.
    assert (i = 0 ∨ i = 1 ∨ i = 2 ∨ i = 3 ∨ i = 4 ∨ i = 5 ∨ i = 6 ∨ i = 7)
      as Hc by lia.
    destruct Hc as [->|[->|[->|[->|[->|[->|[->| ->]]]]]]]; reflexivity. }
  split; [done|].
  intros i Hi. rewrite Hall by lia. intros [= ->]. lia.
Qed.

Lemma C9_initial_registers_witness :
  ∃ t, Tomasulo_init [L_addi 1 0 5] true [] 0 = Ok t
     ∧ registers t = [0; 1; 2; 3; 4; 5; 6; 7]
     ∧ (∀ i, 0 ≤ i < 8 → py_get (registers t) i = Ok i)
     ∧ (∀ i, 1 ≤ i < 8 → py_get (registers t) i ≠ Ok 0).
Proof.
  apply (C9_initial_registers [L_addi 1 0 5] true [] 0).
  vm_compute. exact I.
Defined.

(** ** Result semantics *)

(** C6 (as amended).  An ADD station's result is the exact integer sum
    [vj + vk]; no reduction modulo 2^16 is applied, so the result equals the
    16-bit wrapped sum exactly when the sum already lies in [0, 65535]. *)
Theorem C6_add_result_is_exact_sum (s : ReservationStation) :
  s_op s = Some ADD →
  result (exec_result ADDITION s) = vj s + vk s
  ∧ (result (exec_result ADDITION s) = (vj s + vk s) mod 2 ^ 16
     ↔ 0 ≤ vj s + vk s < 2 ^ 16).
Proof.
  intros Hop. unfold exec_result. rewrite Hop.
  rewrite bool_decide_eq_true_2 by done. simpl result.
  split; [done|]. split.
  - intros ->. apply Z.mod_pos_bound. lia.
  - intros H. symmetry. by apply Z.mod_small.
Qed.

Lemma C6_add_result_is_exact_sum_witness :
  let s := mkStation 9 true (Some ADD) 3 4 0 0 0 2 0 1 0 0 (-1) in
  result (exec_result ADDITION s) = vj s + vk s
  ∧ (result (exec_result ADDITION s) = (vj s + vk s) mod 2 ^ 16
     ↔ 0 ≤ vj s + vk s < 2 ^ 16).
Proof.
  intros s. apply (C6_add_result_is_exact_sum s). reflexivity.
Defined.

(** C6 counterexample: operands 65535 and 1 give 65536, not the wrapped 0. *)
Lemma C6_add_does_not_wrap :
  let s := mkStation 9 true (Some ADD) 65535 1 0 0 0 2 0 1 0 0 (-1) in
  result (exec_result ADDITION s) = 65536 ∧ (vj s + vk s) mod 2 ^ 16 = 0.
Proof. split; reflexivity. Qed.

(** The overflow is reachable from the decoder: after three multiplications
    R2 = 63169, and the final ADD leaves 126338 in R3. *)
Example add_overflow_run :
  (λ t, registers t !! 3%nat) <$> finished (simulate add_overflow true [] [] 0 100)
  = Some (Some 126338).
Proof. vm_compute. reflexivity. Qed.

(** ** Address resolution *)

Lemma memory_access_range (m : list Z) (ea : Z) :
  length m = Z.to_nat 65536 →
  is_Ok (py_get m ea) ↔ -65536 ≤ ea < 65536.
Proof.
  intros Hlen. rewrite py_get_is_Ok, Hlen. lia.
Qed.

(** C7 (as amended).  When address resolution completes, the effective
    address [vj + a] indexes the 65536-word memory list with Python's rules:
    at 65536 or above and below -65536 the access raises [IndexError]; inside
    [0, 65535] resolution proceeds and reads that word; inside [-65536, -1]
    resolution also proceeds, reading the word at [vj + a + 65536]. *)
Theorem C7_address_resolution_range (i j : nat) (s : ReservationStation)
    (t : Tomasulo) (queue_pop : bool) :
  length (memory t) = Z.to_nat 65536 →
  rem_cycles_addr s = 1 →
  is_Ok (py_get (program t) (inst_index s)) →
  let ea := vj s + s_a s in
  let done_station r := set_result r (set_a ea (set_rem_cycles_addr 0 s)) in
  (ea < -65536 ∨ 65536 ≤ ea →
     resolve_address i j s (t, queue_pop) = Raise IndexError)
  ∧ (0 ≤ ea < 65536 →
     ∃ t1 r, memory t !! Z.to_nat ea = Some r
       ∧ resolve_address i j s (t, queue_pop)
         = Ok (put_station i j (done_station r) t1, true))
  ∧ (-65536 ≤ ea < 0 →
     ∃ t1 r, memory t !! Z.to_nat (ea + 65536) = Some r
       ∧ resolve_address i j s (t, queue_pop)
         = Ok (put_station i j (done_station r) t1, true)).
Proof.
  intros Hlen Hrem Hprog ea done_station.
  assert (Hupd : ∃ t1, (if bool_decide (rem_cycles_addr s = cycles_for_addr s)
            then upd_instruction (inst_index s) (set_i_exec_start (cycle t)) t
            else Ok t) = Ok t1 ∧ memory t1 = memory t).
  { case_bool_decide; [|by eauto].
    unfold upd_instruction, py_get, py_set in *.
    destruct (py_index _ _) as [k|]; simpl in *; [|done].
    destruct (program t !! k); simpl in *; [|done]. eauto. }
  destruct Hupd as (t1 & Hupd & Hmem).
  assert (Hres : resolve_address i j s (t, queue_pop)
            = (r ← py_get (memory t) ea;
               Ok (put_station i j (done_station r) t1, true))).
  { unfold resolve_address. rewrite Hupd. simpl. rewrite Hrem, Hmem.
    rewrite (bool_decide_eq_true_2 (1 ≠ 0)) by lia. reflexivity. }
  rewrite Hres. unfold py_get. rewrite Hlen.
  split; [|split]; intros Hea.
  - rewrite py_index_out by lia. done.
  - rewrite py_index_nonneg by lia. simpl.
    destruct (lookup_lt_is_Some_2 (memory t) (Z.to_nat ea)) as [r Hr]; [lia|].
    rewrite Hr. eauto.
  - rewrite py_index_wrap by lia. simpl.
    replace (Z.of_nat (Z.to_nat 65536)) with 65536 by lia.
    destruct (lookup_lt_is_Some_2 (memory t) (Z.to_nat (ea + 65536))) as [r Hr]; [lia|].
    rewrite Hr. eauto.
Qed.

Lemma C7_address_resolution_range_witness :
  let s := resolving_station in
  let t := resolving_engine in
  let ea := vj s + s_a s in
  let done_station r := set_result r (set_a ea (set_rem_cycles_addr 0 s)) in
  (ea < -65536 ∨ 65536 ≤ ea →
     resolve_address 0 0 s (t, false) = Raise IndexError)
  ∧ (0 ≤ ea < 65536 →
     ∃ t1 r, memory t !! Z.to_nat ea = Some r
       ∧ resolve_address 0 0 s (t, false)
         = Ok (put_station 0 0 (done_station r) t1, true))
  ∧ (-65536 ≤ ea < 0 →
     ∃ t1 r, memory t !! Z.to_nat (ea + 65536) = Some r
       ∧ resolve_address 0 0 s (t, false)
         = Ok (put_station 0 0 (done_station r) t1, true)).
Proof.
  apply (C7_address_resolution_range 0 0 resolving_station resolving_engine false).
  - exact (length_replicate (Z.to_nat 65536) 0).
  - reflexivity.
  - vm_compute. exact I.
Defined.

(** C7 counterexample: [LOAD R1, -1(R0)] has effective address -1, outside
    [0, 65535], yet the run finishes: the load resolves its address to -1
    and R1 receives the word stored at 65535. *)
Lemma C7_negative_address_is_not_fatal :
  (λ t, (registers t !! 1%nat, s_a <$> station_at t 0 0,
         timestamps <$> program t !! 0%nat))
    <$> finished (simulate [L_load 1 (-1) 0] true [] [M_word 65535 42] 0 100)
  = Some (Some 42, Some (-1), Some (1, 2, 7, 8)).
Proof. vm_compute. reflexivity. Qed.

(** ** Scenario S3 *)

(** C4 (as amended).  The decoder rejects S3 as written, because the
    immediates 99 and 77 exceed 15.  Run on the five decoded records, and
    likewise on the program with the two immediates in range, the engine
    finishes with R2 = 2 and R3 = 3 (their values at construction: the two
    skipped ADDIs never write), R4 = 5, one misprediction and one BEQ. *)
Theorem C4_S3_outcome :
  Tomasulo_init S3_source true [] 0 = Raise SystemExit
  ∧ S3_observation <$> (value (load_program S3_records true [] 0)
                          ≫= λ t, finished (run 100 t))
    = Some (Some 2, Some 3, Some 5, 1, 1)
  ∧ S3_observation <$> finished (simulate S3_in_range true [] [] 0 100)
    = Some (Some 2, Some 3, Some 5, 1, 1).
Proof. repeat split; vm_compute; reflexivity. Qed.

(** C4 counterexample: no run of S3 as written exists, whatever the number
    of cycles allowed, and on the decoded records the run ends with R2 = 2
    and R3 = 3 instead of 0. *)
Lemma C4_S3_registers_not_zero :
  (∀ fuel, simulate S3_source true [] [] 0 fuel = Crashed SystemExit)
  ∧ (λ t, (registers t !! 2%nat, registers t !! 3%nat))
      <$> (value (load_program S3_records true [] 0) ≫= λ t, finished (run 100 t))
    = Some (Some 2, Some 3).
Proof.
  split; [intros fuel; reflexivity|]. vm_compute. reflexivity.
Qed.

(** ** Write-back arbitration *)

(** C1, the code at the failing input.  In cycle 8 of [store_then_adds] the
    store in STORE1 (issued in cycle 1) and the addition in ADD4 (issued in
    cycle 5) are both eligible, and ADD4 is the only eligible station that
    is not a store.  The selection loop compares both groups against the one
    [min_issue_time]: the store lowers it to 1, the addition is not chosen
    ([write_station_id] stays -1) and is written back one cycle later. *)
Theorem C1_store_blocks_younger_non_store :
  (λ t, (cycle t,
         eligible t 1 <$> station_at t 1 0,
         eligible t 4 <$> station_at t 4 3,
         eligible t 4 <$> station_at t 4 0,
         eligible t 4 <$> station_at t 4 1,
         eligible t 4 <$> station_at t 4 2,
         value (choose_stations t)))
    <$> value (at_write_back store_then_adds 7)
  = Some (8, Some true, Some true, Some false, Some false, Some false,
          Some (mkWriteChoice (-1) 3 1))
  ∧ (λ t, timestamps <$> program t !! 4%nat)
      <$> value (after_cycles store_then_adds 8)
    = Some (Some (5, 6, 7, 0))
  ∧ (λ t, timestamps <$> program t !! 4%nat)
      <$> value (after_cycles store_then_adds 9)
    = Some (Some (5, 6, 7, 9)).
Proof. repeat split; vm_compute; reflexivity. Qed.

(** ** Flush of the load/store queue *)

(** C2, the code at the failing input.  When the taken branch of
    [load_branch_loads] retires in cycle 4 the queue is [0; 2]: entry 2 was
    issued in cycle 3, after the branch (cycle 2), and its station LOAD2 is
    freed, but the [while] loop stops at the older head 0 and entry 2 stays.
    Once the first load leaves the queue the stale entry is at the head, the
    re-issued third load can never resolve its address, and the run is still
    going after 1000 cycles. *)
Theorem C2_flush_keeps_younger_entry :
  (λ t, (load_store_queue t, i_issue <$> program t,
         i_write_back <$> program t !! 1%nat,
         busy <$> station_at t 0 1, pc t))
    <$> value (after_cycles load_branch_loads 4)
  = Some ([0; 2], [1; 2; 3; 0], Some 4, Some false, 3)
  ∧ match simulate load_branch_loads true [] [] 0 1000 with
    | Running t =>
        load_store_queue t = [2; 3]
        ∧ ((λ s, (busy s, inst_index s)) <$> station_at t 0 1) = Some (true, 3)
        ∧ busy <$> station_at t 0 0 = Some false
    | _ => False
    end.
Proof. split; vm_compute; [reflexivity|]. repeat split; reflexivity. Qed.

(** ** Reasoning about the error monad and the loops *)

Lemma Res_bind_Ok {A B} (m : Res A) (f : A → Res B) (y : B) :
  m ≫= f = Ok y ↔ ∃ a, m = Ok a ∧ f a = Ok y.
Proof.
  destruct m as [a|e]; simpl.
  - split; [eauto|]. by intros (a' & [= <-] & H).
  - split; [done|]. by intros (a' & [=] & _).
Qed.

(** Case analysis on every fallible step and every test of a computation
    that is known to have returned. *)
Ltac res_cases H :=
  repeat (simpl in H;
          match type of H with
          | Ok _ = Ok _ => injection H as H; try subst
          | Raise _ = Ok _ => discriminate H
          | context [mbind _ ?c] => destruct c eqn:?; simpl in H; try discriminate H
          | context [if ?b then _ else _] => destruct b eqn:?
          | context [match ?c with _ => _ end] => destruct c eqn:?; try discriminate H
          end).

(** Case analysis on membership in an explicit list. *)
Ltac list_cases H :=
  repeat (apply elem_of_cons in H as [->|H]); [..|by apply elem_of_nil in H].


Lemma for_each_preserves {X} (P : X → Prop) (body : nat → X → Res X) js x x' :
  for_each body js x = Ok x' →
  P x →
  (∀ j y y', P y → body j y = Ok y' → P y') →
  P x'.
Proof.
  intros H Hx Hbody. revert x H Hx.
  induction js as [|j js IH]; intros x H Hx; simpl in H.
  - by injection H as <-.
  - apply Res_bind_Ok in H as (y & Hy & H). eauto.
Qed.

Lemma for_stations_preserves {X} (eng : X → Tomasulo) (P : X → Prop)
    (body : nat → nat → X → Res X) rows x x' :
  for_stations eng body rows x = Ok x' →
  P x →
  (∀ i j y y', P y → body i j y = Ok y' → P y') →
  P x'.
Proof.
  intros H Hx Hbody. unfold for_stations in H.
  eapply (for_each_preserves P); [exact H|exact Hx|].
  intros i y y' Hy Hrow. simpl in Hrow.
  apply Res_bind_Ok in Hrow as (row & _ & Hrow).
  eapply (for_each_preserves P); [exact Hrow|exact Hy|]. eauto.
Qed.

(** ** Determinism of the run *)






(** In tutorial mode the console decides: with [exit] typed at the first
    prompt the run of S3 stops after one cycle, with Enter typed at every
    prompt it runs its ten cycles. *)
Example tutorial_runs_follow_the_console :
  cycle <$> finished (simulate_console S3_in_range true [] [] true 0
                        [U_other; U_exit] 60) = Some 2
  ∧ cycle <$> finished (simulate_console S3_in_range true [] [] true 0
                          (replicate 60 U_enter) 60) = Some 11
  ∧ simulate_console S3_in_range true [] [] true 0 [U_enter; U_other] 60
    = Crashed EOFError.
Proof. vm_compute. done. Qed.

(** A second run on an engine that has already run is not a run on a fresh
    engine: its loop makes one more, idle, cycle. *)
Example rerun_adds_a_cycle :
  cycle <$> finished (simulate S3_in_range true [] [] 0 60) = Some 11
  ∧ cycle <$> (finished (simulate S3_in_range true [] [] 0 60)
               ≫= λ t, finished (run 60 t)) = Some 12.
Proof. vm_compute. done. Qed.

(** ** What the passes of write-back leave untouched *)



Lemma clear_entry_frame id j t t' :
  clear_entry id j t = Ok t' →
  pc t' = pc t ∧ registers t' = registers t
  ∧ system_status_queue t' = system_status_queue t ∧ program t' = program t.
Proof. unfold clear_entry. intros H. res_cases H; done. Qed.

Lemma flush_station_frame w i j t t' :
  flush_station w i j t = Ok t' →
  pc t' = pc t ∧ registers t' = registers t
  ∧ system_status_queue t' = system_status_queue t ∧ program t' = program t.
Proof.
  unfold flush_station. intros H.
  apply Res_bind_Ok in H as (s & _ & H).
  destruct (busy s); [|by injection H as <-].
  apply Res_bind_Ok in H as (x & _ & H).
  apply Res_bind_Ok in H as (y & _ & H).
  destruct (bool_decide _); [|by injection H as <-].
  eapply (for_each_preserves (λ u, pc u = pc t ∧ registers u = registers t
    ∧ system_status_queue u = system_status_queue t ∧ program u = program t));
    [exact H|split_and!; reflexivity|].
  intros k y0 y' (?&?&?&?) Hk. apply clear_entry_frame in Hk as (?&?&?&?).
  split_and!; congruence.
Qed.

Lemma flush_frame ws t t' :
  _flush_instructions_after_jump ws t = Ok t' →
  pc t' = pc t ∧ registers t' = registers t
  ∧ system_status_queue t' = system_status_queue t ∧ program t' = program t.
Proof.
  unfold _flush_instructions_after_jump. intros H.
  apply Res_bind_Ok in H as (t1 & H1 & H).
  apply Res_bind_Ok in H as (q & _ & H). injection H as <-. simpl.
  eapply (for_stations_preserves (λ u, u) (λ u, pc u = pc t ∧ registers u = registers t
    ∧ system_status_queue u = system_status_queue t ∧ program u = program t));
    [exact H1|split_and!; reflexivity|].
  intros i j y y' (?&?&?&?) Hk. apply flush_station_frame in Hk as (?&?&?&?).
  split_and!; congruence.
Qed.



Lemma py_set_nonneg {A} (l l' : list A) k x :
  0 ≤ k → py_set l k x = Ok l' →
  l' = <[Z.to_nat k := x]> l ∧ (Z.to_nat k < length l)%nat.
Proof.
  intros Hk. unfold py_set, py_index.
  repeat case_bool_decide; simpl; try lia; [|done].
  intros [= <-]. split; [done|lia].
Qed.

Lemma update_register_frame res id i t t' :
  update_register res id i t = Ok t' →
  pc t' = pc t ∧ system_status_queue t' = system_status_queue t
  ∧ program t' = program t.
Proof. unfold update_register. intros H. res_cases H; done. Qed.



(** ** Retirement of a JUMP station *)








Lemma engine_of_Ok (r : Res Tomasulo) : is_Ok r → r = Ok (engine_of r).
Proof. destruct r; [reflexivity|intros []]. Defined.



(** ** The bank as an array of station objects *)

Lemma get_station_at t i j s :
  get_station t i j = Ok s ↔ station_at t i j = Some s.
Proof.
  unfold get_station, get_row, station_at, bank_at.
  destruct (reservation_stations t !! i) as [row|]; simpl; [|done].
  destruct (row !! j); simpl; split; congruence.
Qed.

Lemma bank_at_alter_same B i j s :
  is_Some (bank_at B i j) →
  bank_at (alter (λ row, <[j:=s]> row) i B) i j = Some s.
Proof.
  unfold bank_at. intros [s0 H]. rewrite list_lookup_alter_eq.
  destruct (B !! i) as [row|]; simpl in *; [|done].
  apply list_lookup_insert_eq. by eapply lookup_lt_Some.
Qed.

Lemma bank_at_alter_other B i j s i' j' :
  i ≠ i' ∨ j ≠ j' →
  bank_at (alter (λ row, <[j:=s]> row) i B) i' j' = bank_at B i' j'.
Proof.
  unfold bank_at. intros H. destruct (decide (i = i')) as [<-|Hi].
  - rewrite list_lookup_alter_eq.
    destruct (B !! i) as [row|]; simpl; [|done].
    rewrite list_lookup_insert_ne; [done|]. by destruct H.
  - by rewrite list_lookup_alter_ne.
Qed.

Lemma bank_at_alter_inv B i j s i' j' s1 :
  bank_at (alter (λ row, <[j:=s]> row) i B) i' j' = Some s1 →
  (i = i' ∧ j = j' ∧ s1 = s ∧ is_Some (bank_at B i j))
  ∨ ((i ≠ i' ∨ j ≠ j') ∧ bank_at B i' j' = Some s1).
Proof.
  intros H. destruct (decide (i = i' ∧ j = j')) as [[<- <-]|Hne].
  - left. destruct (bank_at B i j) as [s0|] eqn:E.
    + rewrite bank_at_alter_same in H by eauto. injection H as <-. eauto.
    + exfalso. unfold bank_at in *. rewrite list_lookup_alter_eq in H.
      destruct (B !! i) as [row|]; simpl in *; [|done].
      apply lookup_lt_Some in H. rewrite length_insert in H.
      apply lookup_ge_None in E. lia.
  - right. assert (i ≠ i' ∨ j ≠ j') as Hd.
    { destruct (decide (i = i')); [right|left]; naive_solver. }
    split; [done|]. by rewrite bank_at_alter_other in H.
Qed.

Lemma upd_instruction_at idx f t t' :
  upd_instruction idx f t = Ok t' →
  ∃ k x, py_index (length (program t)) idx = Ok k ∧ program t !! k = Some x
       ∧ t' = set_program (<[k := f x]> (program t)) t.
Proof.
  unfold upd_instruction, py_get, py_set. intros H.
  destruct (py_index _ _) as [k|]; simpl in H; [|done].
  destruct (program t !! k) as [x|] eqn:E; simpl in H; [|done].
  injection H as <-. eauto.
Qed.

Lemma py_get_at {A} (l : list A) idx x :
  py_get l idx = Ok x ↔ ∃ k, py_index (length l) idx = Ok k ∧ l !! k = Some x.
Proof.
  split; [apply py_get_Ok|]. intros (k & Hk & Hx).
  unfold py_get. rewrite Hk. simpl. by rewrite Hx.
Qed.

(** ** What one visit of a loop body does *)

Lemma exec_result_static c s :
  s_id (exec_result c s) = s_id s ∧ busy (exec_result c s) = busy s
  ∧ inst_index (exec_result c s) = inst_index s
  ∧ qj (exec_result c s) = qj s ∧ qk (exec_result c s) = qk s
  ∧ cycles_for_exec (exec_result c s) = cycles_for_exec s
  ∧ cycles_for_addr (exec_result c s) = cycles_for_addr s
  ∧ rem_cycles_exec (exec_result c s) = rem_cycles_exec s
  ∧ rem_cycles_addr (exec_result c s) = rem_cycles_addr s.
Proof.
  unfold exec_result. destruct c; repeat case_bool_decide; done.
Qed.

Lemma execute_station_shape i j t t' :
  execute_station i j t = Ok t' →
  t' = t ∨
  ∃ s x k, station_at t i j = Some s ∧ busy s = true
    ∧ py_index (length (program t)) (inst_index s) = Ok k
    ∧ program t !! k = Some x
    ∧ i_issue x < cycle t ∧ speculation_gate t (i_issue x) = false
    ∧ qj s = 0 ∧ qk s = 0 ∧ rem_cycles_exec s ≠ 0
    ∧ t' = put_station i j (executed_station s x)
             (set_program (<[k := executed_instruction (cycle t) s x]> (program t)) t).
Proof.
  unfold execute_station. intros H.
  apply Res_bind_Ok in H as (s & Hs%get_station_at & H).
  destruct (busy s) eqn:Hbusy; [|left; congruence].
  apply Res_bind_Ok in H as (x & (k & Hk & Hx)%py_get_at & H).
  case_bool_decide as Hiss; [|left; congruence].
  destruct (speculation_gate t (i_issue x)) eqn:Hgate; [left; congruence|].
  destruct (bool_decide (qj s = 0)) eqn:Hqj; [|left; simpl in H; congruence].
  destruct (bool_decide (qk s = 0)) eqn:Hqk; [|left; simpl in H; congruence].
  destruct (bool_decide (i_issue x ≤ cycle t)) eqn:Hle; [|left; simpl in H; congruence].
  destruct (bool_decide (rem_cycles_exec s ≠ 0)) eqn:Hrem; [|left; simpl in H; congruence].
  apply bool_decide_eq_true in Hqj, Hqk, Hrem. cbn [andb] in H.
  right. exists s, x, k. split_and!; try done.
  apply Res_bind_Ok in H as (t1 & H1 & H).
  assert (∃ x1, t1 = set_program (<[k := x1]> (program t)) t
     ∧ x1 = (if bool_decide (rem_cycles_exec s = cycles_for_exec s)
               && negb (bool_decide (i_exec_start x > 0))
             then set_i_exec_start (cycle t) x else x)) as (x1 & -> & Hx1).
  { destruct (_ && _).
    - apply upd_instruction_at in H1 as (k' & x' & Hk' & Hx' & ->).
      rewrite Hk in Hk'. injection Hk' as <-. rewrite Hx in Hx'.
      injection Hx' as <-. eauto.
    - injection H1 as <-. exists x. split; [|done].
      rewrite list_insert_id by done. by destruct t. }
  unfold executed_station, executed_instruction. rewrite <- Hx1.
  set (s1 := set_rem_cycles_exec (rem_cycles_exec s - 1) s) in *.
  change (rem_cycles_exec s1) with (rem_cycles_exec s - 1) in H.
  destruct (bool_decide (rem_cycles_exec s - 1 = 0)).
  - apply Res_bind_Ok in H as (t2 & H2 & H). injection H as <-.
    apply upd_instruction_at in H2 as (k' & x' & Hk' & Hx' & ->).
    destruct (exec_result_static (i_category x) s1) as (_&_&Hidx&_).
    rewrite Hidx in Hk'. simpl in Hk', Hx'.
    rewrite length_insert, Hk in Hk'. injection Hk' as <-.
    rewrite list_lookup_insert_eq in Hx' by (by eapply lookup_lt_Some).
    injection Hx' as <-. simpl. by rewrite list_insert_insert_eq.
  - by injection H as <-.
Qed.

Lemma resolve_address_shape i j s t queue_pop t' queue_pop' x k :
  py_index (length (program t)) (inst_index s) = Ok k →
  program t !! k = Some x →
  rem_cycles_addr s ≠ 0 →
  resolve_address i j s (t, queue_pop) = Ok (t', queue_pop') →
  ∃ r, t' = put_station i j (resolved_station r s)
         (set_program (<[k := resolved_instruction (cycle t) s x]> (program t)) t).
Proof.
  intros Hk Hx Hrem H. unfold resolve_address in H.
  apply Res_bind_Ok in H as (t1 & H1 & H).
  assert (t1 = set_program (<[k := resolved_instruction (cycle t) s x]> (program t)) t)
    as ->.
  { unfold resolved_instruction. destruct (bool_decide _).
    - apply upd_instruction_at in H1 as (k' & x' & Hk' & Hx' & ->).
      rewrite Hk in Hk'. injection Hk' as <-. rewrite Hx in Hx'.
      by injection Hx' as <-.
    - injection H1 as <-. rewrite list_insert_id by done. by destruct t. }
  rewrite (bool_decide_eq_true_2 (rem_cycles_addr s ≠ 0)) in H by done.
  unfold resolved_station.
  set (s1 := set_rem_cycles_addr (rem_cycles_addr s - 1) s) in *.
  change (rem_cycles_addr s1) with (rem_cycles_addr s - 1) in H.
  destruct (bool_decide (rem_cycles_addr s - 1 = 0)).
  - apply Res_bind_Ok in H as (r & _ & H). injection H as <- _. by exists r.
  - injection H as <- _. by exists 0.
Qed.

Lemma execute_memory_access_shape i j s t t' x k :
  py_index (length (program t)) (inst_index s) = Ok k →
  program t !! k = Some x →
  execute_memory_access i j s t = Ok t' →
  ∃ stalled r,
    t' = put_station i j (accessed_station i stalled r s)
           (set_program (<[k := accessed_instruction (cycle t) stalled s x]> (program t)) t).
Proof.
  intros Hk Hx H. unfold execute_memory_access in H.
  apply Res_bind_Ok in H as (x' & (k' & Hk' & Hx')%py_get_at & H).
  rewrite Hk in Hk'. injection Hk' as <-. rewrite Hx in Hx'. injection Hx' as <-.
  apply Res_bind_Ok in H as (stores & _ & H).
  apply Res_bind_Ok in H as (hazard & _ & H).
  apply Res_bind_Ok in H as (s1 & H1 & H).
  assert (∃ stalled, s1 = if stalled : bool then s
            else set_rem_cycles_exec (rem_cycles_exec s - 1) s) as [stalled ->].
  { destruct (bool_decide (i = 1%nat)).
    - apply Res_bind_Ok in H1 as (loads & _ & H1).
      apply Res_bind_Ok in H1 as (WAR & _ & H1).
      destruct (negb WAR && negb hazard); injection H1 as <-;
        [by exists false|by exists true].
    - destruct (negb hazard); injection H1 as <-; [by exists false|by exists true]. }
  exists stalled. unfold accessed_station, accessed_instruction.
  assert (rem_cycles_exec (if stalled then s
            else set_rem_cycles_exec (rem_cycles_exec s - 1) s)
          = (if stalled then rem_cycles_exec s else rem_cycles_exec s - 1)) as Hr
    by (by destruct stalled).
  assert (inst_index (if stalled then s
            else set_rem_cycles_exec (rem_cycles_exec s - 1) s) = inst_index s) as Hi
    by (by destruct stalled).
  rewrite Hr in *. destruct (bool_decide (_ = 0)).
  - apply Res_bind_Ok in H as (t1 & H1' & H).
    apply upd_instruction_at in H1' as (k' & x' & Hk' & Hx' & ->).
    rewrite Hi, Hk in Hk'. injection Hk' as <-. rewrite Hx in Hx'.
    injection Hx' as <-. destruct (bool_decide (i = 0%nat)); simpl.
    + apply Res_bind_Ok in H as (r & _ & H). injection H as <-. by exists r.
    + injection H as <-. by exists 0.
  - injection H as <-. exists 0. simpl.
    rewrite list_insert_id by done. by destruct t.
Qed.

Lemma execute_memory_station_shape i j t queue_pop t' queue_pop' :
  execute_memory_station i j (t, queue_pop) = Ok (t', queue_pop') →
  (t' = t ∧ queue_pop' = queue_pop) ∨
  ∃ s x k, station_at t i j = Some s ∧ busy s = true
    ∧ py_index (length (program t)) (inst_index s) = Ok k
    ∧ program t !! k = Some x
    ∧ i_issue x < cycle t ∧ speculation_gate t (i_issue x) = false
    ∧ ((rem_cycles_addr s ≠ 0 ∧ qj s = 0
        ∧ deque_front (load_store_queue t) = Ok (inst_index s)
        ∧ ∃ r, t' = put_station i j (resolved_station r s)
                 (set_program (<[k := resolved_instruction (cycle t) s x]>
                                 (program t)) t))
       ∨ (rem_cycles_addr s = 0 ∧ rem_cycles_exec s ≠ 0 ∧ queue_pop' = queue_pop
          ∧ ∃ stalled r,
              t' = put_station i j (accessed_station i stalled r s)
                     (set_program (<[k := accessed_instruction (cycle t) stalled s x]>
                                     (program t)) t))).
Proof.
  unfold execute_memory_station. intros H.
  apply Res_bind_Ok in H as (s & Hs%get_station_at & H).
  destruct (busy s) eqn:Hbusy; [|left; by injection H as <- <-].
  apply Res_bind_Ok in H as (x & (k & Hk & Hx)%py_get_at & H).
  case_bool_decide as Hiss; [|left; by injection H as <- <-].
  destruct (speculation_gate t (i_issue x)) eqn:Hgate; [left; by injection H as <- <-|].
  case_bool_decide as Haddr.
  - case_bool_decide as Hqj; [|left; by injection H as <- <-].
    apply Res_bind_Ok in H as (head & Hhead & H).
    case_bool_decide as Hh; [|left; by injection H as <- <-]. subst head.
    right. exists s, x, k. split_and!; try done. left. split_and!; try done.
    by eapply resolve_address_shape.
  - case_bool_decide as Hexec; [|left; by injection H as <- <-].
    apply Res_bind_Ok in H as (t1 & H1 & H). injection H as <- <-.
    right. exists s, x, k. split_and!; try done. right.
    split_and!; try done; try lia. by eapply execute_memory_access_shape.
Qed.

Lemma put_station_same t i j s :
  station_at t i j = Some s → put_station i j s t = t.
Proof.
  unfold station_at, bank_at, put_station. intros H.
  destruct (reservation_stations t !! i) as [row|] eqn:Hrow; simpl in H; [|done].
  assert (alter (λ row, <[j:=s]> row) i (reservation_stations t)
          = reservation_stations t) as ->.
  { apply list_eq. intros i'. destruct (decide (i = i')) as [<-|Hne].
    - rewrite list_lookup_alter_eq, Hrow. simpl. by rewrite list_insert_id.
    - by rewrite list_lookup_alter_ne. }
  by destruct t.
Qed.

Lemma broadcast_station_shape res id i j t t' :
  broadcast_station res id i j t = Ok t' →
  t' = t ∨
  ∃ s, station_at t i j = Some s ∧ busy s = true
    ∧ id ≠ 0 ∧ (qj s = id ∨ qk s = id)
    ∧ if broadcast_stamps id s then
        ∃ x k, py_index (length (program t)) (inst_index s) = Ok k
          ∧ program t !! k = Some x
          ∧ t' = put_station i j (broadcast_to res id s)
                   (set_program (<[k := set_i_exec_start (cycle t) x]> (program t)) t)
      else t' = put_station i j (broadcast_to res id s) t.
Proof.
  unfold broadcast_station. intros H.
  apply Res_bind_Ok in H as (s & Hs%get_station_at & H).
  destruct (busy s) eqn:Hbusy; [|left; congruence].
  destruct (decide (id = 0)) as [->|Hid].
  { left. rewrite !(bool_decide_eq_false_2 (0 ≠ 0)), !andb_false_r in H by lia.
    simpl in H. rewrite ?andb_false_r in H. simpl in H.
    injection H as <-. by apply put_station_same. }
  rewrite !(bool_decide_eq_true_2 (id ≠ 0)), !andb_true_r in H by done.
  destruct (bool_decide (qj s = id)) eqn:Bqj;
    destruct (bool_decide (qk s = id)) eqn:Bqk;
    simpl in H; rewrite ?Bqk in H; simpl in H;
    [right; exists s; split_and!; try done;
       [first [left; by apply bool_decide_eq_true in Bqj
              |right; by apply bool_decide_eq_true in Bqk]|]..
    |left; injection H as <-; by apply put_station_same];
    unfold broadcast_stamps, broadcast_to; rewrite Bqj; simpl; rewrite Bqk;
    pose proof Bqk as Bqk';
    first [apply bool_decide_eq_true in Bqj|apply bool_decide_eq_false in Bqj];
    first [apply bool_decide_eq_true in Bqk|apply bool_decide_eq_false in Bqk].
  - (* both operands wait for [id] *)
    rewrite (bool_decide_eq_false_2 (qk s = 0)) in H by congruence.
    simpl in H. rewrite ?andb_true_r, ?Bqk' in H. simpl in H.
    rewrite bool_decide_eq_true_2 by tauto.
    apply Res_bind_Ok in H as ([s2 t2] & H2 & H). injection H as <-.
    apply Res_bind_Ok in H2 as (u & Hu & H2). injection H2 as <- <-.
    apply upd_instruction_at in Hu as (k & x & Hk & Hx & ->). by exists x, k.
  - (* the first operand only *)
    destruct (bool_decide (qk s = 0)) eqn:Hqk0;
      [apply bool_decide_eq_true in Hqk0|apply bool_decide_eq_false in Hqk0];
      simpl in H.
    + rewrite bool_decide_eq_true_2 by tauto.
      apply Res_bind_Ok in H as ([s2 t2] & H2 & H).
      apply Res_bind_Ok in H2 as (u & Hu & H2). injection H2 as <- <-.
      simpl in H. rewrite ?andb_true_r, ?Bqk' in H. simpl in H. injection H as <-.
      apply upd_instruction_at in Hu as (k & x & Hk & Hx & ->). by exists x, k.
    + rewrite ?andb_true_r, ?Bqk' in H. simpl in H.
      rewrite bool_decide_eq_false_2 by tauto. by injection H as <-.
  - (* the second operand only *)
    destruct (bool_decide (qj s = 0)) eqn:Hqj0;
      [apply bool_decide_eq_true in Hqj0|apply bool_decide_eq_false in Hqj0];
      simpl in H.
    + rewrite bool_decide_eq_true_2 by tauto.
      apply Res_bind_Ok in H as ([s2 t2] & H2 & H). injection H as <-.
      apply Res_bind_Ok in H2 as (u & Hu & H2). injection H2 as <- <-.
      apply upd_instruction_at in Hu as (k & x & Hk & Hx & ->). by exists x, k.
    + rewrite bool_decide_eq_false_2 by tauto. by injection H as <-.
Qed.

Lemma eligible_true t i s :
  eligible t i s = true ↔
  busy s = true ∧ rem_cycles_exec s = 0
  ∧ (∃ x, py_get (program t) (inst_index s) = Ok x ∧ i_exec_end x < cycle t)
  ∧ (i = category_value STORE → qk s = 0).
Proof.
  unfold eligible. rewrite !andb_true_iff, orb_true_iff, negb_true_iff.
  rewrite bool_decide_eq_false, !bool_decide_eq_true.
  destruct (py_get (program t) (inst_index s)) as [x|e].
  - rewrite bool_decide_eq_true. split.
    + intros [[[? ?] ?] Hq]. split_and!; eauto. tauto.
    + intros (? & ? & (x' & [= <-] & ?) & Hq). split_and!; try done.
      destruct (decide (i = category_value STORE)); tauto.
  - split; [intros [[_ [=]] _]|]. intros (_ & _ & (x' & [=] & _) & _).
Qed.

Lemma choose_station_chosen t i j c c' :
  choose_station t i j c = Ok c' → chosen t c → chosen t c'.
Proof.
  unfold choose_station. intros H Hc.
  apply Res_bind_Ok in H as (s & Hs%get_station_at & H).
  destruct (busy s && bool_decide (rem_cycles_exec s = 0)) eqn:Hb;
    [|by injection H as <-].
  apply andb_true_iff in Hb as [Hbusy Hrem%bool_decide_eq_true].
  apply Res_bind_Ok in H as (x & Hx & H).
  case_bool_decide as Hend; [|by injection H as <-].
  destruct (bool_decide (i = category_value STORE) && bool_decide (qk s ≠ 0)) eqn:Hq;
    [by injection H as <-|].
  case_bool_decide as Hmin; [|by injection H as <-].
  assert (eligible t i s = true) as Hel.
  { apply eligible_true. split_and!; eauto. intros ->.
    rewrite bool_decide_eq_true_2 in Hq by done. simpl in Hq.
    by apply bool_decide_eq_false, dec_stable in Hq. }
  destruct Hc as [Hother Hstore].
  case_bool_decide as Hi; injection H as <-; split; simpl; try done.
  - right. subst i. eauto.
  - right. exists i, j, s. eauto.
Qed.

Lemma choose_stations_chosen t c : choose_stations t = Ok c → chosen t c.
Proof.
  unfold choose_stations. intros H.
  eapply (for_stations_preserves _ (chosen t)); [exact H| |].
  - split; by left.
  - intros i j y y' Hy Hbody. by eapply choose_station_chosen.
Qed.

Lemma write_store_shape id t t' :
  write_store id t = Ok t' →
  ∃ i j s k x m,
    station_id_to_index t !! id = Some (i, j)
    ∧ station_at t i j = Some s
    ∧ py_index (length (program t)) (inst_index s) = Ok k
    ∧ program t !! k = Some x
    ∧ t' = set_memory m
             (set_program (<[k := set_i_write_back (cycle t) x]> (program t))
                (put_station i j (set_busy false s)
                   (set_num_written_insts (num_written_insts t + 1) t))).
Proof.
  unfold write_store. intros H.
  apply Res_bind_Ok in H as ([i j] & Hpos & H).
  unfold station_position in Hpos. simpl in Hpos.
  destruct (station_id_to_index t !! id) as [p|] eqn:Hd; [|done].
  injection Hpos as ->.
  apply Res_bind_Ok in H as (s & Hs%get_station_at & H).
  apply Res_bind_Ok in H as (t1 & H1 & H).
  apply Res_bind_Ok in H as (m & Hm & H). injection H as <-.
  apply upd_instruction_at in H1 as (k & x & Hk & Hx & ->).
  exists i, j, s, k, x, m. split_and!; done.
Qed.

(** ** What [issue] does *)

Lemma read_first_operand_shape t r s s' :
  read_first_operand t r s = Ok s' →
  ∃ q v, py_get (register_status t) r = Ok q ∧ s' = set_qj q (set_vj v s).
Proof.
  unfold read_first_operand. intros H.
  apply Res_bind_Ok in H as (q & Hq & H). exists q.
  case_bool_decide as Hz.
  - injection H as <-. exists (vj s). split; [done|]. by destruct s.
  - apply Res_bind_Ok in H as (v & _ & H). injection H as <-.
    subst q. by exists v.
Qed.

Lemma read_second_operand_shape t r s s' :
  read_second_operand t r s = Ok s' →
  ∃ q v, py_get (register_status t) r = Ok q ∧ s' = set_qk q (set_vk v s).
Proof.
  unfold read_second_operand. intros H.
  apply Res_bind_Ok in H as (q & Hq & H). exists q.
  case_bool_decide as Hz.
  - injection H as <-. exists (vk s). split; [done|]. by destruct s.
  - apply Res_bind_Ok in H as (v & _ & H). injection H as <-.
    subst q. by exists v.
Qed.

Lemma rename_in_last_issue q rd id q' :
  rename_in_last q rd id = Ok q' → ss_issue <$> q' = ss_issue <$> q.
Proof.
  revert q'. induction q as [|ss q IH]; intros q' H; simpl in H; [done|].
  destruct q as [|ss' q].
  - apply Res_bind_Ok in H as (l & _ & H). by injection H as <-.
  - apply Res_bind_Ok in H as (r & Hr & H). injection H as <-.
    rewrite !fmap_cons. f_equal. by apply IH.
Qed.

Lemma rename_destination_shape rd id t t' :
  rename_destination rd id t = Ok t' →
  ss_issue <$> system_status_queue t' = ss_issue <$> system_status_queue t
  ∧ (system_status_queue t = [] →
       system_status_queue t' = []
       ∧ (register_status t' = register_status t
          ∨ (rd ≠ 0 ∧ ∃ k, py_index (length (register_status t)) rd = Ok k
               ∧ register_status t' = <[k := id]> (register_status t))))
  ∧ program t' = program t ∧ reservation_stations t' = reservation_stations t
  ∧ pc t' = pc t ∧ cycle t' = cycle t
  ∧ station_id_to_index t' = station_id_to_index t
  ∧ load_store_queue t' = load_store_queue t.
Proof.
  unfold rename_destination. intros H.
  case_bool_decide as Hrd; [|injection H as <-; split_and!; auto].
  destruct (system_status_queue t) as [|ss q] eqn:Hq.
  - apply Res_bind_Ok in H as (l & Hl & H). injection H as <-. simpl.
    rewrite ?Hq. split_and!; try done. intros _. split; [done|]. right.
    split; [done|]. unfold py_set in Hl.
    destruct (py_index _ _) as [k|]; simpl in Hl; [|done].
    injection Hl as <-. eauto.
  - apply Res_bind_Ok in H as (q' & Hq' & H). injection H as <-.
    apply rename_in_last_issue in Hq'. split_and!; done.
Qed.

Lemma push_snapshot_shape t :
  ss_issue <$> system_status_queue (push_snapshot t)
  = (ss_issue <$> system_status_queue t) ++ [cycle t]
  ∧ program (push_snapshot t) = program t
  ∧ reservation_stations (push_snapshot t) = reservation_stations t
  ∧ pc (push_snapshot t) = pc t ∧ cycle (push_snapshot t) = cycle t
  ∧ station_id_to_index (push_snapshot t) = station_id_to_index t
  ∧ register_status (push_snapshot t) = register_status t
  ∧ load_store_queue (push_snapshot t) = load_store_queue t.
Proof.
  unfold push_snapshot.
  destruct (last (system_status_queue t)) as [top|] eqn:Hl; simpl.
  - rewrite fmap_app. done.
  - apply last_None in Hl. rewrite Hl. done.
Qed.

Lemma issue_into_shape i j t t' :
  issue_into i j t = Ok t' →
  ∃ s x k v1 v2 q1 q2,
    station_at t i j = Some s
    ∧ py_index (length (program t)) (pc t) = Ok k
    ∧ program t !! k = Some x
    ∧ py_get (register_status t) (i_rs x) = Ok q1
    ∧ py_get (register_status t) (i_rt x) = Ok q2
    ∧ program t' = <[k := set_i_issue (cycle t) x]> (program t)
    ∧ reservation_stations t'
      = alter (λ row, <[j := issued_station s x (pc t) v1 v2 q1 q2]> row) i
          (reservation_stations t)
    ∧ pc t' = pc t + 1 ∧ cycle t' = cycle t
    ∧ station_id_to_index t' = station_id_to_index t
    ∧ ss_issue <$> system_status_queue t'
      = (ss_issue <$> system_status_queue t)
        ++ (if is_control (i_category x) then [cycle t] else [])
    ∧ (system_status_queue t = [] →
         register_status t' = register_status t
         ∨ (i_rd x ≠ 0 ∧ ∃ k', py_index (length (register_status t)) (i_rd x) = Ok k'
              ∧ register_status t' = <[k' := s_id s]> (register_status t)))
    ∧ load_store_queue t'
      = load_store_queue t ++ (if is_memory (i_category x) then [pc t] else []).
Proof.
  unfold issue_into. intros H.
  apply Res_bind_Ok in H as (s & Hs%get_station_at & H).
  apply Res_bind_Ok in H as (x & (k & Hk & Hx)%py_get_at & H).
  apply Res_bind_Ok in H as (t1 & H1 & H).
  apply upd_instruction_at in H1 as (k' & x' & Hk' & Hx' & ->).
  rewrite Hk in Hk'. injection Hk' as <-. rewrite Hx in Hx'. injection Hx' as <-.
  apply Res_bind_Ok in H as (s2 & (q1 & v1 & Hq1 & ->)%read_first_operand_shape & H).
  apply Res_bind_Ok in H as (s3 & (q2 & v2 & Hq2 & ->)%read_second_operand_shape & H).
  apply Res_bind_Ok in H as (t3 & H3 & H). injection H as <-.
  apply rename_destination_shape in H3
    as (Hss & Hrs & Hprog & Hbank & Hpc & Hcyc & Hdict & Hlsq).
  simpl in *.
  exists s, x, k, v1, v2, q1, q2.
  unfold is_memory, is_control.
  destruct (bool_decide (i_category x = LOAD ∨ i_category x = STORE));
    destruct (bool_decide (i_category x = BEQ ∨ i_category x = JUMP));
    repeat match goal with
    | |- context [push_snapshot ?u] =>
        destruct (push_snapshot_shape u) as (?&?&?&?&?&?&?&?);
        generalize dependent (push_snapshot u); intros
    end; simpl in *;
    split_and!; try done;
    try (intros Hq; destruct (Hrs Hq) as [_ Hr]; revert Hr);
    repeat match goal with
    | Heq : ?f ?u = _ |- context [?f ?u] => rewrite Heq
    end;
    rewrite ?app_nil_r; done.
Qed.

(** ** The invariant of straight-line runs *)

Lemma py_index_nonneg_inv n idx k :
  0 ≤ idx → py_index n idx = Ok k → k = Z.to_nat idx ∧ (k < n)%nat.
Proof.
  intros Hidx. unfold py_index. repeat case_bool_decide; intros [= <-]; lia.
Qed.

Lemma straight_inv_update t t' i j s s' x x' :
  straight_inv t →
  station_at t i j = Some s → busy s = true →
  program t !! Z.to_nat (inst_index s) = Some x →
  program t' = <[Z.to_nat (inst_index s) := x']> (program t) →
  reservation_stations t'
  = alter (λ row, <[j := s']> row) i (reservation_stations t) →
  same_control t t' →
  same_station s s' →
  same_instruction x x' →
  local_ok i s' x' (cycle t) →
  straight_inv t'.
Proof.
  intros Hinv Hs Hbusy Hx Hprog Hbank (Hq & Hc & Hpc & Hrs & Hd)
    (Hid & Hcfe & Hcfa & Hb & Hidx) (Hcat & Hrd & Hrt & Hiss & Hwb) Hloc.
  destruct (si_busy _ Hinv _ _ _ Hs Hbusy)
    as (x0 & Hrange & Hx0 & Hwb0 & Hcat0 & Hiss0 & _).
  rewrite Hx in Hx0. injection Hx0 as <-.
  assert (∀ i' j' s1, station_at t' i' j' = Some s1 →
            (i' = i ∧ j' = j ∧ s1 = s')
            ∨ ((i ≠ i' ∨ j ≠ j') ∧ station_at t i' j' = Some s1)) as Hat.
  { intros i' j' s1 H1. unfold station_at in H1. rewrite Hbank in H1.
    apply bank_at_alter_inv in H1 as [(-> & -> & -> & _)|[Hne H1]]; [by left|].
    by right. }
  assert (∀ k y, program t' !! k = Some y →
            (k = Z.to_nat (inst_index s) ∧ y = x')
            ∨ (k ≠ Z.to_nat (inst_index s) ∧ program t !! k = Some y)) as Hpat.
  { intros k y Hy. rewrite Hprog in Hy.
    apply list_lookup_insert_Some in Hy as [(<- & <- & _)|[Hne Hy]]; [by left|].
    right. split; [done|]. done. }
  split.
  - (* the bank *)
    destruct (si_bank _ Hinv) as [Hdict Hexec Haddr]. split.
    + intros i' j' s1 H1. rewrite Hd.
      apply Hat in H1 as [(-> & -> & ->)|[_ H1]]; [|by eauto].
      rewrite Hid. eauto.
    + intros i' j' s1 H1.
      apply Hat in H1 as [(-> & -> & ->)|[_ H1]]; [|by eauto].
      rewrite Hcfe. eauto.
    + intros i' j' s1 H1 Hi'.
      apply Hat in H1 as [(-> & -> & ->)|[_ H1]]; [|by eauto].
      rewrite Hcfa. eauto.
  - rewrite Hq. apply Hinv.
  - rewrite Hc. apply Hinv.
  - rewrite Hpc. apply Hinv.
  - rewrite Hrs. apply Hinv.
  - intros k y Hy. apply Hpat in Hy as [[-> ->]|[_ Hy]].
    + destruct (si_straight _ Hinv _ _ Hx) as (?&?&?).
      unfold decoded_straight. rewrite Hcat, Hrd, Hrt. done.
    + by eapply si_straight.
  - intros k y Hy Hk. rewrite Hpc in Hk.
    apply Hpat in Hy as [[-> ->]|[_ Hy]]; [lia|]. by eapply si_unissued.
  - intros k y Hy Hw. apply Hpat in Hy as [[-> ->]|[_ Hy]].
    + rewrite Hwb in Hw. done.
    + by eapply si_retired.
  - intros i' j' s1 H1 Hb1. rewrite Hpc, Hc.
    apply Hat in H1 as [(-> & -> & ->)|[Hne H1]].
    + exists x'. rewrite Hidx, Hprog, Hcat, Hiss, Hwb.
      split_and!; try done; try lia.
      apply list_lookup_insert_eq. by eapply lookup_lt_Some.
    + destruct (si_busy _ Hinv _ _ _ H1 Hb1) as (x1 & Hr1 & Hx1 & Hrest).
      exists x1. split; [done|]. split; [|done].
      rewrite Hprog, list_lookup_insert_ne; [done|].
      intros Heq. assert (inst_index s = inst_index s1) as Hsame by lia.
      destruct (si_distinct _ Hinv _ _ _ _ _ _ Hs H1 Hbusy Hb1 Hsame).
      destruct Hne; done.
  - intros i1 j1 s1 i2 j2 s2 H1 H2 Hb1 Hb2 Heq.
    apply Hat in H1 as [(-> & -> & ->)|[Hne1 H1]];
      apply Hat in H2 as [(-> & -> & ->)|[Hne2 H2]]; try done.
    + rewrite Hidx in Heq.
      destruct (si_distinct _ Hinv _ _ _ _ _ _ Hs H2 Hbusy Hb2 Heq).
      destruct Hne2; done.
    + rewrite Hidx in Heq.
      destruct (si_distinct _ Hinv _ _ _ _ _ _ Hs H1 Hbusy Hb1 (eq_sym Heq)).
      destruct Hne1; done.
    + by eapply (si_distinct _ Hinv).
Qed.

Lemma for_each_preserves_in {X} (P : X → Prop) (body : nat → X → Res X) js x x' :
  for_each body js x = Ok x' →
  P x →
  (∀ j y y', j ∈ js → P y → body j y = Ok y' → P y') →
  P x'.
Proof.
  intros H Hx Hbody. revert x H Hx.
  induction js as [|j js IH]; intros x H Hx; simpl in H.
  - by injection H as <-.
  - apply Res_bind_Ok in H as (y & Hy & H).
    eapply IH; [|exact H|].
    + intros j' z z' Hj'. apply Hbody. by right.
    + eapply Hbody; [by left|exact Hx|exact Hy].
Qed.

Lemma for_stations_preserves_in {X} (eng : X → Tomasulo) (P : X → Prop)
    (body : nat → nat → X → Res X) rows x x' :
  for_stations eng body rows x = Ok x' →
  P x →
  (∀ i j y y', i ∈ rows → P y → body i j y = Ok y' → P y') →
  P x'.
Proof.
  intros H Hx Hbody. unfold for_stations in H.
  eapply (for_each_preserves_in P); [exact H|exact Hx|].
  intros i y y' Hi Hy Hrow. simpl in Hrow.
  apply Res_bind_Ok in Hrow as (row & _ & Hrow).
  eapply (for_each_preserves P); [exact Hrow|exact Hy|]. eauto.
Qed.

Lemma executed_station_fields s x :
  same_station s (executed_station s x)
  ∧ rem_cycles_exec (executed_station s x) = rem_cycles_exec s - 1
  ∧ qj (executed_station s x) = qj s ∧ qk (executed_station s x) = qk s.
Proof.
  unfold executed_station, same_station. case_bool_decide; [|done].
  destruct (exec_result_static (i_category x)
              (set_rem_cycles_exec (rem_cycles_exec s - 1) s))
    as (-> & -> & -> & -> & -> & -> & -> & -> & _). done.
Qed.

Lemma executed_instruction_fields c s x :
  same_instruction x (executed_instruction c s x)
  ∧ i_exec_start (executed_instruction c s x)
    = (if bool_decide (rem_cycles_exec s = cycles_for_exec s)
          && negb (bool_decide (i_exec_start x > 0))
       then c else i_exec_start x)
  ∧ i_exec_end (executed_instruction c s x)
    = (if bool_decide (rem_cycles_exec s - 1 = 0) then c else i_exec_end x).
Proof.
  unfold executed_instruction, same_instruction.
  destruct (_ && _); case_bool_decide; done.
Qed.

Lemma execute_station_straight i j t t' :
  (2 ≤ i)%nat →
  straight_inv t → execute_station i j t = Ok t' → straight_inv t'.
Proof.
  intros Hi Hinv H.
  apply execute_station_shape in H
    as [->|(s & x & k & Hs & Hbusy & Hk & Hx & Hiss & Hgate & Hqj & Hqk & Hrem & ->)];
    [done|].
  destruct (si_busy _ Hinv _ _ _ Hs Hbusy)
    as (x0 & Hrange & Hx0 & Hwb0 & Hcat0 & Hiss0 & Hloc).
  apply py_index_nonneg_inv in Hk as [-> _]; [|lia].
  rewrite Hx in Hx0. injection Hx0 as <-.
  destruct (executed_station_fields s x) as (Hst & Hrem' & Hqj' & Hqk').
  destruct (executed_instruction_fields (cycle t) s x) as (Hin & Hstart & Hend).
  eapply (straight_inv_update t _ i j s _ x); try done.
  pose proof (si_cycle _ Hinv) as Hc.
  destruct Hin as (_ & _ & _ & Hissue & _).
  unfold local_ok in *.
  rewrite bool_decide_eq_true_2 in * by done.
  destruct Hloc as (L1 & L2 & N1 & N2 & N3).
  rewrite Hrem', Hqj', Hqk', Hstart, Hend, Hissue.
  destruct Hst as (_ & -> & _).
  assert (i_exec_start x = 0 ∨ i_exec_start x ≠ 0) as Hz by lia.
  destruct (bool_decide (rem_cycles_exec s = cycles_for_exec s)) eqn:B1;
    [apply bool_decide_eq_true in B1|apply bool_decide_eq_false in B1];
    (destruct (bool_decide (i_exec_start x > 0)) eqn:B2;
      [apply bool_decide_eq_true in B2|apply bool_decide_eq_false in B2]);
    (destruct (bool_decide (rem_cycles_exec s - 1 = 0)) eqn:B3;
      [apply bool_decide_eq_true in B3|apply bool_decide_eq_false in B3]);
    simpl; split_and!; try lia.
Qed.

Lemma resolved_station_fields r s :
  same_station s (resolved_station r s)
  ∧ rem_cycles_addr (resolved_station r s) = rem_cycles_addr s - 1
  ∧ rem_cycles_exec (resolved_station r s) = rem_cycles_exec s
  ∧ qj (resolved_station r s) = qj s ∧ qk (resolved_station r s) = qk s.
Proof. unfold resolved_station, same_station. case_bool_decide; done. Qed.

Lemma resolved_instruction_fields c s x :
  same_instruction x (resolved_instruction c s x)
  ∧ i_exec_start (resolved_instruction c s x)
    = (if bool_decide (rem_cycles_addr s = cycles_for_addr s)
       then c else i_exec_start x)
  ∧ i_exec_end (resolved_instruction c s x) = i_exec_end x.
Proof.
  unfold resolved_instruction, same_instruction. case_bool_decide; done.
Qed.

Lemma accessed_station_fields i stalled r s :
  same_station s (accessed_station i stalled r s)
  ∧ rem_cycles_addr (accessed_station i stalled r s) = rem_cycles_addr s
  ∧ rem_cycles_exec (accessed_station i stalled r s)
    = (if stalled then rem_cycles_exec s else rem_cycles_exec s - 1)
  ∧ qj (accessed_station i stalled r s) = qj s
  ∧ qk (accessed_station i stalled r s) = qk s.
Proof.
  unfold accessed_station, same_station.
  destruct stalled; destruct (_ && _); done.
Qed.

Lemma accessed_instruction_fields c stalled s x :
  same_instruction x (accessed_instruction c stalled s x)
  ∧ i_exec_start (accessed_instruction c stalled s x) = i_exec_start x
  ∧ i_exec_end (accessed_instruction c stalled s x)
    = (if bool_decide ((if stalled then rem_cycles_exec s
                        else rem_cycles_exec s - 1) = 0)
       then c else i_exec_end x).
Proof.
  unfold accessed_instruction, same_instruction. case_bool_decide; done.
Qed.

Lemma execute_memory_station_straight i j t queue_pop t' queue_pop' :
  (i < 2)%nat →
  straight_inv t →
  execute_memory_station i j (t, queue_pop) = Ok (t', queue_pop') →
  straight_inv t'.
Proof.
  intros Hi Hinv H.
  apply execute_memory_station_shape in H
    as [[-> _]|(s & x & k & Hs & Hbusy & Hk & Hx & Hiss & Hgate & Hcase)];
    [done|].
  destruct (si_busy _ Hinv _ _ _ Hs Hbusy)
    as (x0 & Hrange & Hx0 & Hwb0 & Hcat0 & Hiss0 & Hloc).
  apply py_index_nonneg_inv in Hk as [-> _]; [|lia].
  rewrite Hx in Hx0. injection Hx0 as <-.
  pose proof (si_cycle _ Hinv) as Hc.
  pose proof (bank_exec _ (si_bank _ Hinv) _ _ _ Hs) as Hcfe.
  pose proof (bank_addr _ (si_bank _ Hinv) _ _ _ Hs Hi) as Hcfa.
  unfold local_ok in Hloc.
  rewrite bool_decide_eq_false_2 in Hloc by lia.
  destruct Hloc as (L1 & L2 & M1 & M2 & M3 & M4 & M5 & M6).
  destruct Hcase as [(Haddr & Hqj & _ & r & ->)|(Haddr & Hexec & _ & stalled & r & ->)].
  - destruct (resolved_station_fields r s) as (Hst & Hra & Hre & Hqj' & Hqk').
    destruct (resolved_instruction_fields (cycle t) s x) as (Hin & Hstart & Hend).
    eapply (straight_inv_update t _ i j s _ x); try done.
    destruct Hin as (_ & _ & _ & Hissue & _).
    unfold local_ok. rewrite bool_decide_eq_false_2 by lia.
    rewrite Hra, Hre, Hqj', Hqk', Hstart, Hend, Hissue.
    destruct Hst as (_ & -> & -> & _).
    case_bool_decide; split_and!; try lia.
  - destruct (accessed_station_fields i stalled r s) as (Hst & Hra & Hre & Hqj' & Hqk').
    destruct (accessed_instruction_fields (cycle t) stalled s x)
      as (Hin & Hstart & Hend).
    eapply (straight_inv_update t _ i j s _ x); try done.
    destruct Hin as (_ & _ & _ & Hissue & _).
    unfold local_ok. rewrite bool_decide_eq_false_2 by lia.
    rewrite Hra, Hre, Hqj', Hqk', Hstart, Hend, Hissue.
    destruct Hst as (_ & -> & -> & _).
    destruct stalled; case_bool_decide; split_and!; try lia.
Qed.

Lemma straight_inv_frame t t' :
  straight_inv t →
  program t' = program t →
  reservation_stations t' = reservation_stations t →
  system_status_queue t' = system_status_queue t →
  cycle t' = cycle t → pc t' = pc t →
  station_id_to_index t' = station_id_to_index t →
  register_status t' !! 0%nat = Some 0 →
  straight_inv t'.
Proof.
  intros Hinv Hp Hb Hq Hc Hpc Hd Hr.
  destruct Hinv as [[? ? ?] ? ? ? ? ? ? ? ? ?].
  split; [split|..]; unfold station_at in *;
    rewrite ?Hp, ?Hb, ?Hq, ?Hc, ?Hpc, ?Hd; done.
Qed.

Lemma execute_straight t t' :
  straight_inv t → execute t = Ok t' → straight_inv t'.
Proof.
  intros Hinv H. unfold execute in H.
  apply Res_bind_Ok in H as (t1 & H1 & H).
  apply Res_bind_Ok in H as ([t2 queue_pop] & H2 & H).
  assert (straight_inv t1) as Hinv1.
  { eapply (for_stations_preserves_in _ straight_inv); [exact H1|done|].
    intros i j y y' Hin Hy Hbody. eapply execute_station_straight; [|done..].
    list_cases Hin; lia. }
  assert (straight_inv (t2, queue_pop).1) as Hinv2.
  { eapply (for_stations_preserves_in _ (λ y, straight_inv y.1));
      [exact H2|done|].
    intros i j [y q] [y' q'] Hin Hy Hbody.
    eapply execute_memory_station_straight; [|done..].
    list_cases Hin; lia. }
  simpl in Hinv2.
  destruct queue_pop; [|by injection H as <-].
  apply Res_bind_Ok in H as (q & _ & H). injection H as <-.
  eapply straight_inv_frame; try done. apply Hinv2.
Qed.

Lemma category_value_inj c1 c2 :
  category_value c1 = category_value c2 → c1 = c2.
Proof. destruct c1, c2; simpl; intros H; try done; lia. Qed.

Lemma straight_inv_retire t t' i j s x :
  straight_inv t →
  station_at t i j = Some s → busy s = true → rem_cycles_exec s = 0 →
  program t !! Z.to_nat (inst_index s) = Some x →
  i_exec_end x < cycle t →
  program t'
  = <[Z.to_nat (inst_index s) := set_i_write_back (cycle t) x]> (program t) →
  reservation_stations t'
  = alter (λ row, <[j := set_busy false s]> row) i (reservation_stations t) →
  same_control t t' →
  straight_inv t'.
Proof.
  intros Hinv Hs Hbusy Hrem Hx Hend Hprog Hbank (Hq & Hc & Hpc & Hrs & Hd).
  destruct (si_busy _ Hinv _ _ _ Hs Hbusy)
    as (x0 & Hrange & Hx0 & Hwb0 & Hcat0 & Hiss0 & Hloc).
  rewrite Hx in Hx0. injection Hx0 as <-.
  pose proof (bank_exec _ (si_bank _ Hinv) _ _ _ Hs) as Hcfe.
  assert (retired_ok (set_i_write_back (cycle t) x)) as Hret.
  { unfold retired_ok, local_ok in *. simpl.
    destruct Hloc as (L1 & L2 & Hloc). case_bool_decide as Hi.
    - destruct Hloc as (N1 & N2 & N3). split_and!; try lia.
    - pose proof (bank_addr _ (si_bank _ Hinv) _ _ _ Hs) as Hcfa.
      destruct Hloc as (M1 & M2 & M3 & M4 & M5 & M6).
      split_and!; try lia. intros Hcat.
      assert (i ≠ 1%nat).
      { intros ->. apply Hcat. by apply category_value_inj. }
      apply M6; [lia|done]. }
  assert (∀ i' j' s1, station_at t' i' j' = Some s1 →
            (i' = i ∧ j' = j ∧ s1 = set_busy false s)
            ∨ ((i ≠ i' ∨ j ≠ j') ∧ station_at t i' j' = Some s1)) as Hat.
  { intros i' j' s1 H1. unfold station_at in H1. rewrite Hbank in H1.
    apply bank_at_alter_inv in H1 as [(-> & -> & -> & _)|[Hne H1]]; [by left|].
    by right. }
  assert (∀ k y, program t' !! k = Some y →
            (k = Z.to_nat (inst_index s) ∧ y = set_i_write_back (cycle t) x)
            ∨ (k ≠ Z.to_nat (inst_index s) ∧ program t !! k = Some y)) as Hpat.
  { intros k y Hy. rewrite Hprog in Hy.
    apply list_lookup_insert_Some in Hy as [(<- & <- & _)|[Hne Hy]]; [by left|].
    by right. }
  split.
  - destruct (si_bank _ Hinv) as [Hdict Hexec Haddr]. split.
    + intros i' j' s1 H1. rewrite Hd.
      apply Hat in H1 as [(-> & -> & ->)|[_ H1]]; simpl; eauto.
    + intros i' j' s1 H1.
      apply Hat in H1 as [(-> & -> & ->)|[_ H1]]; simpl; eauto.
    + intros i' j' s1 H1 Hi'.
      apply Hat in H1 as [(-> & -> & ->)|[_ H1]]; simpl; eauto.
  - rewrite Hq. apply Hinv.
  - rewrite Hc. apply Hinv.
  - rewrite Hpc. apply Hinv.
  - rewrite Hrs. apply Hinv.
  - intros k y Hy. apply Hpat in Hy as [[-> ->]|[_ Hy]].
    + by apply (si_straight _ Hinv _ _ Hx).
    + by eapply si_straight.
  - intros k y Hy Hk. rewrite Hpc in Hk.
    apply Hpat in Hy as [[-> ->]|[_ Hy]]; [lia|]. by eapply si_unissued.
  - intros k y Hy Hw. apply Hpat in Hy as [[-> ->]|[_ Hy]]; [done|].
    by eapply si_retired.
  - intros i' j' s1 H1 Hb1. rewrite Hpc, Hc.
    apply Hat in H1 as [(-> & -> & ->)|[Hne H1]]; [done|].
    destruct (si_busy _ Hinv _ _ _ H1 Hb1) as (x1 & Hr1 & Hx1 & Hrest).
    exists x1. split; [done|]. split; [|done].
    rewrite Hprog, list_lookup_insert_ne; [done|].
    intros Heq. assert (inst_index s = inst_index s1) as Hsame by lia.
    destruct (si_distinct _ Hinv _ _ _ _ _ _ Hs H1 Hbusy Hb1 Hsame).
    destruct Hne; done.
  - intros i1 j1 s1 i2 j2 s2 H1 H2 Hb1 Hb2 Heq.
    apply Hat in H1 as [(-> & -> & ->)|[Hne1 H1]]; [done|].
    apply Hat in H2 as [(-> & -> & ->)|[Hne2 H2]]; [done|].
    by eapply (si_distinct _ Hinv).
Qed.

Lemma update_register_straight res id i t t' :
  straight_inv t → update_register res id i t = Ok t' → straight_inv t'.
Proof.
  intros Hinv H. unfold update_register in H.
  apply Res_bind_Ok in H as (q & _ & H).
  destruct (_ && _) eqn:Hc; [|by injection H as <-].
  apply andb_true_iff in Hc as [_ Hi%bool_decide_eq_true].
  apply Res_bind_Ok in H as (r & _ & H).
  apply Res_bind_Ok in H as (l & Hl & H). injection H as <-.
  apply py_set_nonneg in Hl as [-> _]; [|lia].
  eapply straight_inv_frame; try done. simpl.
  rewrite list_lookup_insert_ne by lia. apply Hinv.
Qed.

Lemma broadcast_to_fields res id s :
  same_station s (broadcast_to res id s)
  ∧ rem_cycles_exec (broadcast_to res id s) = rem_cycles_exec s
  ∧ rem_cycles_addr (broadcast_to res id s) = rem_cycles_addr s
  ∧ (qj (broadcast_to res id s) = qj s ∨ qj (broadcast_to res id s) = 0)
  ∧ (qk (broadcast_to res id s) = qk s ∨ qk (broadcast_to res id s) = 0).
Proof.
  unfold broadcast_to, same_station.
  destruct (bool_decide (qj s = id)); simpl;
    destruct (bool_decide (qk s = id)); simpl; split_and!; auto.
Qed.

Lemma broadcast_station_straight res id i j t t' :
  straight_inv t → broadcast_station res id i j t = Ok t' → straight_inv t'.
Proof.
  intros Hinv H.
  apply broadcast_station_shape in H
    as [->|(s & Hs & Hbusy & Hid & Htag & H)]; [done|].
  destruct (si_busy _ Hinv _ _ _ Hs Hbusy)
    as (x & Hrange & Hx & Hwb & Hcat & Hiss & Hloc).
  pose proof (si_cycle _ Hinv) as Hc.
  pose proof (bank_exec _ (si_bank _ Hinv) _ _ _ Hs) as Hcfe.
  destruct (broadcast_to_fields res id s) as (Hst & Hre & Hra & Hqj & Hqk).
  assert (local_ok i (broadcast_to res id s) x (cycle t)
          ∧ local_ok i (broadcast_to res id s)
              (set_i_exec_start (cycle t) x) (cycle t)) as [Hloc1 Hloc2].
  { unfold local_ok in *. rewrite Hre, Hra.
    destruct Hst as (_ & -> & -> & _). simpl.
    destruct Hloc as (L1 & L2 & Hloc). case_bool_decide as Hi.
    - destruct Hloc as (N1 & N2 & N3). split; split_and!; try lia.
    - assert (i < 2)%nat as Hi2 by lia.
      pose proof (bank_addr _ (si_bank _ Hinv) _ _ _ Hs Hi2) as Hcfa.
      destruct Hloc as (M1 & M2 & M3 & M4 & M5 & M6).
      split; split_and!; try lia. }
  destruct (broadcast_stamps id s).
  - destruct H as (x' & k & Hk & Hx' & ->).
    apply py_index_nonneg_inv in Hk as [-> _]; [|lia].
    rewrite Hx in Hx'. injection Hx' as <-.
    eapply (straight_inv_update t _ i j s _ x); try done.
  - subst t'.
    eapply (straight_inv_update t _ i j s _ x); try done.
    simpl. by rewrite list_insert_id.
Qed.

(** The state in which a station chosen by the selection loop is retired:
    its slot is freed and its instruction is stamped. *)
Lemma retire_chosen t id i j s :
  straight_inv t →
  station_at t i j = Some s → s_id s = id → eligible t i s = true →
  station_id_to_index t !! id = Some (i, j)
  ∧ busy s = true ∧ rem_cycles_exec s = 0 ∧ 0 ≤ inst_index s
  ∧ ∃ x, program t !! Z.to_nat (inst_index s) = Some x
       ∧ py_index (length (program t)) (inst_index s) = Ok (Z.to_nat (inst_index s))
       ∧ i_exec_end x < cycle t
       ∧ category_value (i_category x) = i
       ∧ is_control (i_category x) = false.
Proof.
  intros Hinv Hs Hid Hel.
  apply eligible_true in Hel as (Hbusy & Hrem & (x & Hx & Hend) & _).
  destruct (si_busy _ Hinv _ _ _ Hs Hbusy)
    as (x0 & Hrange & Hx0 & Hwb & Hcat & Hiss & Hloc).
  apply py_get_nonneg in Hx; [|lia]. rewrite Hx0 in Hx. injection Hx as ->.
  split; [rewrite <- Hid; by apply (bank_dict _ (si_bank _ Hinv))|].
  split; [done|]. split; [done|]. split; [lia|]. exists x. split_and!; try done.
  - apply py_index_nonneg. apply lookup_lt_Some in Hx0. lia.
  - by destruct (si_straight _ Hinv _ _ Hx0).
Qed.

Lemma write_store_straight t t' id j s :
  straight_inv t →
  station_at t (category_value STORE) j = Some s → s_id s = id →
  eligible t (category_value STORE) s = true →
  write_store id t = Ok t' →
  straight_inv t'
  ∧ ∀ i' j' s', i' ≠ category_value STORE →
      station_at t i' j' = Some s' → eligible t i' s' = true →
      station_at t' i' j' = Some s' ∧ eligible t' i' s' = true.
Proof.
  intros Hinv Hs Hid Hel H. cbn [category_value] in *.
  destruct (retire_chosen _ _ _ _ _ Hinv Hs Hid Hel)
    as (Hd & Hbusy & Hrem & Hidx & x & Hx & Hk & Hend & Hcat & Hctl).
  apply write_store_shape in H
    as (i0 & j0 & s0 & k0 & x0 & m & Hd0 & Hs0 & Hk0 & Hx0 & ->).
  rewrite Hd in Hd0. injection Hd0 as <- <-.
  rewrite Hs in Hs0. injection Hs0 as <-.
  rewrite Hk in Hk0. injection Hk0 as <-.
  rewrite Hx in Hx0. injection Hx0 as <-.
  split.
  - eapply (straight_inv_retire t _ _ j s x); done.
  - intros i' j' s' Hi' Hs' Hel'. split.
    + unfold station_at. simpl. rewrite bank_at_alter_other; [done|]. by left.
    + apply eligible_true in Hel' as (Hb' & Hr' & (x' & Hx' & He') & Hq').
      apply eligible_true. split_and!; try done. exists x'. split; [|done].
      destruct (si_busy _ Hinv _ _ _ Hs' Hb') as (y & Hry & Hy & _).
      apply py_get_nonneg in Hx'; [|lia].
      apply py_get_nonneg; [lia|]. simpl.
      rewrite list_lookup_insert_ne; [done|].
      intros Heq. assert (inst_index s = inst_index s') as Hsame by lia.
      destruct (si_distinct _ Hinv _ _ _ _ _ _ Hs Hs' Hbusy Hb' Hsame). done.
Qed.

Lemma write_other_straight t t' id i j s :
  straight_inv t →
  i ≠ category_value STORE →
  station_at t i j = Some s → s_id s = id → eligible t i s = true →
  write_other id t = Ok t' →
  straight_inv t'.
Proof.
  intros Hinv Hi Hs Hid Hel H.
  destruct (retire_chosen _ _ _ _ _ Hinv Hs Hid Hel)
    as (Hd & Hbusy & Hrem & Hidx & x & Hx & Hk & Hend & Hcat & Hctl).
  unfold write_other in H.
  apply Res_bind_Ok in H as ([cat j0] & Hpos & H).
  unfold station_position in Hpos. simpl in Hpos. rewrite Hd in Hpos.
  injection Hpos as <- <-.
  apply Res_bind_Ok in H as (s0 & Hs0%get_station_at & H).
  change (station_at t i j = Some s0) in Hs0.
  rewrite Hs in Hs0. injection Hs0 as <-.
  apply Res_bind_Ok in H as (t1 & H1 & H).
  apply upd_instruction_at in H1 as (k0 & x0 & Hk0 & Hx0 & ->).
  simpl in Hk0, Hx0.
  rewrite Hk in Hk0. injection Hk0 as <-.
  rewrite Hx in Hx0. injection Hx0 as <-.
  assert (i ≠ 2%nat ∧ i ≠ 3%nat) as [Hi2 Hi3].
  { unfold is_control in Hctl. apply bool_decide_eq_false in Hctl.
    destruct (i_category x); simpl in Hcat; subst i; split; try done;
      exfalso; apply Hctl; auto. }
  apply Res_bind_Ok in H as (t1 & H1 & H).
  rewrite (bool_decide_eq_false_2 (i = category_value JUMP)) in H1 by done.
  rewrite (bool_decide_eq_false_2 (i = category_value BEQ)) in H1 by done.
  injection H1 as <-.
  rewrite (bool_decide_eq_true_2 (i ≠ category_value STORE)) in H by done.
  rewrite (bool_decide_eq_true_2 (i ≠ category_value BEQ)) in H by done.
  cbn [andb] in H.
  apply Res_bind_Ok in H as (t2 & H2 & H).
  match type of H2 with
  | for_each _ _ ?u = _ => assert (straight_inv u) as Hinv1
  end.
  { eapply (straight_inv_retire t _ i j s x); done. }
  assert (straight_inv t2) as Hinv2.
  { eapply (for_each_preserves straight_inv); [exact H2|exact Hinv1|].
    intros k y y' Hy Hbody. by eapply update_register_straight. }
  eapply (for_stations_preserves _ straight_inv); [exact H|exact Hinv2|].
  intros i' j' y y' Hy Hbody. by eapply broadcast_station_straight.
Qed.

Lemma write_straight t t' :
  straight_inv t → write t = Ok t' → straight_inv t'.
Proof.
  intros Hinv H. unfold write in H.
  apply Res_bind_Ok in H as (c & [Hother Hstore]%choose_stations_chosen & H).
  apply Res_bind_Ok in H as (t1 & H1 & H).
  assert (straight_inv t1
          ∧ ∀ i' j' s', i' ≠ category_value STORE →
              station_at t i' j' = Some s' → eligible t i' s' = true →
              station_at t1 i' j' = Some s' ∧ eligible t1 i' s' = true)
    as [Hinv1 Hkeep].
  { destruct (bool_decide (write_store_station_id c ≠ -1)) eqn:Bs;
      [apply bool_decide_eq_true in Bs|injection H1 as <-; by split].
    destruct Hstore as [?|(j & s & Hat & Hid & Hel)]; [done|].
    by eapply write_store_straight. }
  destruct (bool_decide (write_station_id c ≠ -1)) eqn:Bo;
    [apply bool_decide_eq_true in Bo|by injection H as <-].
  destruct Hother as [?|(i & j & s & Hi & Hat & Hid & Hel)]; [done|].
  destruct (Hkeep _ _ _ Hi Hat Hel) as [Hat1 Hel1].
  by eapply write_other_straight.
Qed.

Lemma issue_into_straight i j t t' x :
  straight_inv t →
  py_get (program t) (pc t) = Ok x →
  i = category_value (i_category x) →
  issue_into i j t = Ok t' →
  straight_inv t'.
Proof.
  intros Hinv Hget Hi H.
  apply issue_into_shape in H
    as (s & x0 & k & v1 & v2 & q1 & q2 & Hs & Hk & Hx & Hq1 & Hq2 & Hprog & Hbank
        & Hpc & Hc & Hd & Hss & Hrs & Hlsq).
  pose proof (si_pc _ Hinv) as Hpc0.
  pose proof (si_cycle _ Hinv) as Hc1.
  apply py_index_nonneg_inv in Hk as [-> Hlt]; [|done].
  apply py_get_nonneg in Hget; [|done]. rewrite Hx in Hget. injection Hget as ->.
  destruct (si_straight _ Hinv _ _ Hx) as (Hctl & Hrd & Hrt).
  destruct (si_unissued _ Hinv _ _ Hx) as [Hstart Hwb]; [lia|].
  pose proof (bank_exec _ (si_bank _ Hinv) _ _ _ Hs) as Hcfe.
  set (s' := issued_station s x (pc t) v1 v2 q1 q2) in *.
  assert (∀ i' j' s1, station_at t' i' j' = Some s1 →
            (i' = i ∧ j' = j ∧ s1 = s')
            ∨ ((i ≠ i' ∨ j ≠ j') ∧ station_at t i' j' = Some s1)) as Hat.
  { intros i' j' s1 H1. unfold station_at in H1. rewrite Hbank in H1.
    apply bank_at_alter_inv in H1 as [(-> & -> & -> & _)|[Hne H1]]; [by left|].
    by right. }
  assert (∀ n y, program t' !! n = Some y →
            (n = Z.to_nat (pc t) ∧ y = set_i_issue (cycle t) x)
            ∨ (n ≠ Z.to_nat (pc t) ∧ program t !! n = Some y)) as Hpat.
  { intros n y Hy. rewrite Hprog in Hy.
    apply list_lookup_insert_Some in Hy as [(<- & <- & _)|[Hne Hy]]; [by left|].
    by right. }
  split.
  - destruct (si_bank _ Hinv) as [Hdict Hexec Haddr]. split.
    + intros i' j' s1 H1. rewrite Hd.
      apply Hat in H1 as [(-> & -> & ->)|[_ H1]]; simpl; eauto.
    + intros i' j' s1 H1.
      apply Hat in H1 as [(-> & -> & ->)|[_ H1]]; simpl; eauto.
    + intros i' j' s1 H1 Hi'.
      apply Hat in H1 as [(-> & -> & ->)|[_ H1]]; simpl; eauto.
  - rewrite (si_queue _ Hinv), Hctl in Hss. simpl in Hss.
    by apply fmap_nil_inv in Hss.
  - by rewrite Hc.
  - lia.
  - destruct (Hrs (si_queue _ Hinv)) as [->|(Hrd0 & k' & Hk' & ->)];
      [apply Hinv|].
    apply py_index_nonneg_inv in Hk' as [-> _]; [|done].
    rewrite list_lookup_insert_ne by lia. apply Hinv.
  - intros n y Hy. apply Hpat in Hy as [[-> ->]|[_ Hy]]; [done|].
    by eapply si_straight.
  - intros n y Hy Hn. rewrite Hpc in Hn.
    apply Hpat in Hy as [[-> ->]|[_ Hy]]; [lia|].
    eapply si_unissued; [done..|lia].
  - intros n y Hy Hw. apply Hpat in Hy as [[-> ->]|[_ Hy]]; [done|].
    by eapply si_retired.
  - intros i' j' s1 H1 Hb1. rewrite Hpc, Hc.
    apply Hat in H1 as [(-> & -> & ->)|[Hne H1]].
    + exists (set_i_issue (cycle t) x). simpl. rewrite Hprog.
      split_and!; try done; try lia.
      { apply list_lookup_insert_eq. lia. }
      unfold local_ok. simpl. split; [by left|]. split; [lia|].
      case_bool_decide as Hrow; [split_and!; lia|].
      assert (i < 2)%nat as Hrow' by lia.
      pose proof (bank_addr _ (si_bank _ Hinv) _ _ _ Hs Hrow') as Hcfa.
      split_and!; try lia. intros Hload.
      assert (i_category x = LOAD) as Hcat.
      { apply category_value_inj. simpl. lia. }
      rewrite (Hrt Hcat) in Hq2.
      apply py_get_nonneg in Hq2; [|done].
      change (Z.to_nat 0) with 0%nat in Hq2.
      pose proof (si_r0 _ Hinv) as Hr0. congruence.
    + destruct (si_busy _ Hinv _ _ _ H1 Hb1) as (x1 & Hr1 & Hx1 & Hrest).
      exists x1. split; [lia|]. split; [|done].
      rewrite Hprog, list_lookup_insert_ne; [done|]. lia.
  - intros i1 j1 s1 i2 j2 s2 H1 H2 Hb1 Hb2 Heq.
    apply Hat in H1 as [(-> & -> & ->)|[Hne1 H1]];
      apply Hat in H2 as [(-> & -> & ->)|[Hne2 H2]]; try done.
    + destruct (si_busy _ Hinv _ _ _ H2 Hb2) as (x2 & Hr2 & _).
      simpl in Heq. lia.
    + destruct (si_busy _ Hinv _ _ _ H1 Hb1) as (x1 & Hr1 & _).
      simpl in Heq. lia.
    + by eapply (si_distinct _ Hinv).
Qed.

Lemma issue_straight t t' :
  straight_inv t → issue t = Ok t' → straight_inv t'.
Proof.
  intros Hinv H. unfold issue in H.
  apply Res_bind_Ok in H as (x & Hx & H).
  apply Res_bind_Ok in H as (row & _ & H).
  destruct (find_free row 0) as [j|]; [|by injection H as <-].
  by eapply issue_into_straight.
Qed.

Lemma next_cycle_straight t t' :
  straight_inv t → next_cycle t = Ok t' → straight_inv t'.
Proof.
  intros Hinv H. unfold next_cycle in H.
  apply Res_bind_Ok in H as (t1 & H1 & H).
  apply Res_bind_Ok in H as (t2 & H2 & H).
  apply Res_bind_Ok in H as (t3 & H3 & H). injection H as <-.
  assert (straight_inv t1) as Hinv1.
  { case_bool_decide; [by eapply issue_straight|by injection H1 as <-]. }
  apply execute_straight in H2; [|done].
  apply write_straight in H3; [|done].
  destruct H3 as [Hb Hq Hc Hpc Hr Hst Hun Hret Hbusy Hdist].
  split; try done.
  - destruct Hb as [? ? ?]. split; done.
  - simpl. lia.
  - intros i j s Hs Hb1. destruct (Hbusy i j s Hs Hb1)
      as (x & ? & ? & ? & ? & ? & Hloc).
    exists x. simpl. split_and!; try done; try lia.
    unfold local_ok in *. destruct Hloc as (L1 & Hloc). split; [lia|done].
Qed.

Lemma cycles_straight n t t' :
  straight_inv t → cycles n t = Ok t' → straight_inv t'.
Proof.
  revert t. induction n as [|n IH]; intros t Hinv H; simpl in H.
  - by injection H as <-.
  - apply Res_bind_Ok in H as (t1 & H1 & H).
    eapply IH; [|exact H]. by eapply next_cycle_straight.
Qed.

(** ** The freshly constructed engine *)

Lemma bank_at_app_row bank row i j :
  bank_at (bank ++ [row]) i j
  = if decide (i = length bank) then row !! j else bank_at bank i j.
Proof.
  unfold bank_at. case_decide as Hi.
  - subst i. rewrite lookup_app_r by lia. by rewrite Nat.sub_diag.
  - destruct (decide (i < length bank)%nat).
    + by rewrite lookup_app_l.
    + rewrite !lookup_ge_None_2; [done|lia|]. rewrite length_app. simpl. lia.
Qed.

Lemma add_named_stations_Ok i cfe cfa js next row idx r :
  add_named_stations i cfe cfa js next row idx = Ok r →
  add_stations i cfe cfa js next row idx = r.
Proof.
  revert next row idx. induction js as [|j js IH]; intros next row idx H;
    simpl in H.
  - by injection H as <-.
  - apply Res_bind_Ok in H as (name & _ & H). simpl. by apply IH.
Qed.

Lemma add_stations_run (d : bool) i cfe cfa js next row idx r :
  (if d then Ok (add_stations i cfe cfa js next row idx)
   else add_named_stations i cfe cfa js next row idx) = Ok r →
  add_stations i cfe cfa js next row idx = r.
Proof.
  destruct d; [by intros [= <-]|apply add_named_stations_Ok].
Qed.

Lemma add_stations_built bank cfe cfa n row idx next row' idx' next' :
  bank_built (bank ++ [row]) idx next →
  add_stations (length bank) cfe cfa (seq (length row) n) next row idx
  = (row', idx', next') →
  bank_built (bank ++ [row']) idx' next'.
Proof.
  revert row idx next. induction n as [|n IH]; intros row idx next Hb H; simpl in H.
  - by injection H as <- <- <-.
  - eapply (IH (row ++ [new_station next cfe cfa])
                (<[next := (length bank, length row)]> idx) (next + 1)); [|].
    + intros i j s Hs. rewrite bank_at_app_row in Hs.
      specialize (Hb i j s). rewrite bank_at_app_row in Hb.
      case_decide as Hi.
      * destruct (decide (j < length row)%nat) as [Hj|Hj].
        -- rewrite lookup_app_l in Hs by done.
           destruct (Hb Hs) as (? & ? & ?).
           rewrite lookup_insert_ne by lia. split_and!; [done|lia|done].
        -- rewrite lookup_app_r in Hs by lia.
           destruct (j - length row)%nat as [|m] eqn:Hm; simpl in Hs; [|done].
           injection Hs as <-. simpl.
           rewrite lookup_insert_eq. assert (j = length row) as -> by lia.
           subst i. split_and!; [done|lia|done].
      * destruct (Hb Hs) as (? & ? & ?).
        rewrite lookup_insert_ne by lia. split_and!; [done|lia|done].
    + rewrite length_app. simpl. rewrite Nat.add_1_r. exact H.
Qed.

Lemma init_rows_built d lines bank idx next bank' idx' :
  bank_built bank idx next →
  init_rows d (length bank) lines next bank idx = Ok (bank', idx') →
  ∃ next', bank_built bank' idx' next'.
Proof.
  revert bank idx next. induction lines as [|line lines IH];
    intros bank idx next Hb H; simpl in H.
  - injection H as <- <-. eauto.
  - apply Res_bind_Ok in H as ([[num cfe] cfa] & _ & H).
    apply Res_bind_Ok in H as ([[row idx1] next1] & Hadd%add_stations_run & H).
    eapply (IH (bank ++ [row]) idx1 next1).
    + eapply (add_stations_built bank cfe cfa (Z.to_nat num) []); [|exact Hadd].
      intros i j s Hs. rewrite bank_at_app_row in Hs.
      case_decide; [done|]. by apply Hb.
    + rewrite length_app. simpl. rewrite Nat.add_1_r. exact H.
Qed.

Lemma hardware_timing_ok_at t i j s :
  hardware_timing_ok t = true → station_at t i j = Some s →
  1 ≤ cycles_for_exec s ∧ ((i < 2)%nat → 1 ≤ cycles_for_addr s).
Proof.
  unfold hardware_timing_ok, station_at, bank_at. intros H Hs.
  destruct (reservation_stations t !! i) as [row|] eqn:Hrow; simpl in Hs; [|done].
  rewrite forallb_forall in H.
  specialize (H (i, row)). simpl in H.
  assert (forallb (station_timing_ok i) row = true) as Hr.
  { apply H. apply list_elem_of_In, list_elem_of_lookup. exists i.
    by rewrite list_lookup_imap, Hrow. }
  rewrite forallb_forall in Hr.
  assert (station_timing_ok i s = true) as Hst.
  { apply Hr. apply list_elem_of_In, list_elem_of_lookup. eauto. }
  unfold station_timing_ok in Hst.
  apply andb_true_iff in Hst as [H1 H2].
  apply bool_decide_eq_true in H1. split; [done|]. intros Hi.
  apply orb_true_iff in H2 as [H2|H2]; apply bool_decide_eq_true in H2; [lia|done].
Qed.

Lemma parse_instruction_straight line idx x :
  straight_line line → parse_instruction line idx = Ok x →
  decoded_straight x ∧ i_exec_start x = 0 ∧ i_write_back x = 0.
Proof.
  unfold parse_instruction, decoded_straight.
  destruct line; simpl; intros Hl H; try done;
    repeat match type of H with
           | (if ?b then _ else _) = _ => destruct b; [|done]
           end;
    injection H as <-; simpl; split_and!; done.
Qed.

Lemma read_lines_straight lines prog prog' :
  Forall straight_line lines →
  Forall (λ x, decoded_straight x ∧ i_exec_start x = 0 ∧ i_write_back x = 0) prog →
  read_lines lines prog = Ok prog' →
  Forall (λ x, decoded_straight x ∧ i_exec_start x = 0 ∧ i_write_back x = 0) prog'.
Proof.
  intros Hl. revert prog. induction Hl as [|line lines Hline Hl IH];
    intros prog Hp H; simpl in H.
  - by injection H as <-.
  - apply Res_bind_Ok in H as (x & Hx & H).
    eapply IH; [|exact H]. apply Forall_app. split; [done|].
    apply Forall_singleton. by eapply parse_instruction_straight.
Qed.

Lemma init_straight lines d hw pc0 t :
  Forall straight_line lines → 0 ≤ pc0 →
  Tomasulo_init lines d hw pc0 = Ok t →
  hardware_timing_ok t = true →
  straight_inv t.
Proof.
  intros Hl Hpc H Htime. unfold Tomasulo_init in H.
  apply Res_bind_Ok in H as (t1 & H1 & H).
  unfold _read_instructions in H1.
  apply Res_bind_Ok in H1 as (prog & Hprog & H1). injection H1 as <-.
  apply (read_lines_straight _ _ _ Hl) in Hprog; [|by apply Forall_nil].
  unfold _initialize_hardware in H.
  apply Res_bind_Ok in H as ([bank idx] & Hrows & H). injection H as <-.
  apply (init_rows_built d _ [] ∅ 1) in Hrows as [next Hbuilt]; [|done].
  rewrite Forall_lookup in Hprog.
  split; simpl; try done.
  - split.
    + intros i j s Hs. by destruct (Hbuilt i j s Hs).
    + intros i j s Hs. by eapply hardware_timing_ok_at.
    + intros i j s Hs Hi.
      destruct (hardware_timing_ok_at _ _ _ _ Htime Hs) as [_ Ha]. by apply Ha.
  - intros k x Hx. by destruct (Hprog k x Hx).
  - intros k x Hx _. by destruct (Hprog k x Hx) as (_ & ? & ?).
  - intros k x Hx Hw. destruct (Hprog k x Hx) as (_ & _ & ?). done.
  - intros i j s Hs Hb. destruct (Hbuilt i j s Hs) as (_ & _ & ?). congruence.
  - intros i j s i' j' s' Hs _ Hb. destruct (Hbuilt i j s Hs) as (_ & _ & ?).
    congruence.
Qed.

Lemma initialize_memory_straight memory_file t t' :
  straight_inv t → initialize_memory memory_file t = Ok t' →
  straight_inv t' ∧ hardware_timing_ok t' = hardware_timing_ok t.
Proof.
  revert t. induction memory_file as [|[a v|] rest IH]; intros t Hinv H; simpl in H;
    try discriminate.
  - by injection H as <-.
  - apply Res_bind_Ok in H as (m & _ & H).
    apply IH in H as [H Ht]; [by split|].
    eapply straight_inv_frame; try done. apply Hinv.
Qed.

(** ** Timestamps of retired instructions *)

(** C3 (as amended).  For a program without BEQ, CALL and RET, started at a
    PC that is not negative on hardware where every station needs at least
    one execution cycle and every LOAD/STORE station at least one address
    cycle, at the end of every cycle every retired instruction has
    [0 < issue ≤ exec_start] and [exec_end < write_back], and
    [exec_start ≤ exec_end] when it is not a STORE. *)
Theorem C3_retired_timestamps instruction_file is_default_hardware hardware_file
    memory_file initial_PC (t0 t : Tomasulo) (n k : nat) (x : Instruction) :
  Forall straight_line instruction_file →
  0 ≤ initial_PC →
  construct instruction_file is_default_hardware hardware_file memory_file
    initial_PC = Ok t0 →
  hardware_timing_ok t0 = true →
  cycles n t0 = Ok t →
  program t !! k = Some x →
  i_write_back x ≠ 0 →
  0 < i_issue x ≤ i_exec_start x
  ∧ i_exec_end x < i_write_back x
  ∧ (i_category x ≠ STORE → i_exec_start x ≤ i_exec_end x).
Proof.
  intros Hl Hpc Hc Htime Hn Hx Hw. unfold construct in Hc.
  apply Res_bind_Ok in Hc as (e & He & Hm).
  assert (straight_inv t0) as Hinv0.
  { assert (hardware_timing_ok e = true) as Hte.
    { clear -Hm Htime. revert e Hm.
      induction memory_file as [|[a v|] rest IH]; intros e Hm; simpl in Hm;
        try discriminate.
      - by injection Hm as <-.
      - apply Res_bind_Ok in Hm as (m & _ & Hm). by apply IH in Hm. }
    pose proof (init_straight _ _ _ _ _ Hl Hpc He Hte) as Hinv.
    by destruct (initialize_memory_straight _ _ _ Hinv Hm). }
  pose proof (cycles_straight _ _ _ Hinv0 Hn) as Hinv.
  by apply (si_retired _ Hinv k x).
Qed.

Lemma C3_retired_timestamps_witness :
  0 < i_issue retired_store ≤ i_exec_start retired_store
  ∧ i_exec_end retired_store < i_write_back retired_store
  ∧ (i_category retired_store ≠ STORE →
     i_exec_start retired_store ≤ i_exec_end retired_store).
Proof.
  apply (C3_retired_timestamps mul_then_store true [] [] 0
           mul_store_start mul_store_end 14 1 retired_store).
  - repeat constructor; simpl; lia.
  - lia.
  - apply engine_of_Ok. vm_compute. exact I.
  - vm_compute. reflexivity.
  - apply engine_of_Ok. vm_compute. exact I.
  - vm_compute. reflexivity.
  - simpl. lia.
Defined.

(** C3 counterexample: the store of [mul_then_store] finishes executing in
    cycle 8 while its value is still being multiplied; the broadcast of the
    product in cycle 12 stamps [exec_start] again, and the store retires with
    [exec_start = 12 > exec_end = 8]. *)
Lemma C3_store_starts_after_it_ends :
  (λ t, timestamps <$> program t !! 1%nat)
    <$> finished (simulate mul_then_store true [] [] 0 100)
  = Some (Some (2, 12, 8, 13)).
Proof. vm_compute. reflexivity. Qed.

(** In a loop the four stamps belong to different passes: after six cycles
    of [add_loop] line 0, retired in cycle 4, has been issued again in
    cycle 6. *)
Example loop_reissues_retired_line :
  (λ t, timestamps <$> program t !! 0%nat) <$> value (after_cycles add_loop 6)
  = Some (Some (6, 2, 3, 4)).
Proof. vm_compute. reflexivity. Qed.

(** ** The invariant of the snapshot queue *)

Lemma issues_lookup (P P' : list Instruction) k x :
  i_issue <$> P' = i_issue <$> P → P !! k = Some x →
  ∃ x', P' !! k = Some x' ∧ i_issue x' = i_issue x.
Proof.
  intros Heq Hx.
  assert ((i_issue <$> P') !! k = Some (i_issue x)) as H.
  { rewrite Heq, list_lookup_fmap, Hx. done. }
  rewrite list_lookup_fmap in H.
  destruct (P' !! k) as [x'|]; simpl in H; [|done].
  injection H as H. eauto.
Qed.

Lemma issues_insert (P : list Instruction) k x x' :
  P !! k = Some x → i_issue x' = i_issue x →
  i_issue <$> <[k := x']> P = i_issue <$> P.
Proof.
  intros Hx Hi. rewrite list_fmap_insert, Hi.
  apply list_insert_id. by rewrite list_lookup_fmap, Hx.
Qed.

Lemma gate_open_head t iss :
  StronglySorted Z.lt (snapshot_issues t) →
  iss ∈ snapshot_issues t →
  speculation_gate t iss = false →
  head (snapshot_issues t) = Some iss.
Proof.
  unfold snapshot_issues, speculation_gate.
  destruct (system_status_queue t) as [|front rest]; simpl; intros Hs Hin Hg.
  - by apply elem_of_nil in Hin.
  - apply bool_decide_eq_false in Hg.
    apply StronglySorted_cons in Hs as [Hall _].
    apply elem_of_cons in Hin as [->|Hin]; [done|].
    rewrite Forall_forall in Hall. specialize (Hall _ Hin). lia.
Qed.

Lemma spec_inv_update b t t' i j s s' :
  spec_inv b t →
  station_at t i j = Some s →
  i_issue <$> program t' = i_issue <$> program t →
  reservation_stations t'
  = alter (λ row, <[j := s']> row) i (reservation_stations t) →
  system_status_queue t' = system_status_queue t →
  pc t' = pc t → cycle t' = cycle t →
  station_id_to_index t' = station_id_to_index t →
  s_id s' = s_id s → cycles_for_exec s' = cycles_for_exec s →
  (busy s' = true → is_control_row i = true →
     busy s = true ∧ inst_index s' = inst_index s
     ∧ (rem_cycles_exec s' ≠ cycles_for_exec s →
        rem_cycles_exec s ≠ cycles_for_exec s
        ∨ ∃ x, program t !! Z.to_nat (inst_index s) = Some x
             ∧ speculation_gate t (i_issue x) = false)) →
  spec_inv b t'.
Proof.
  intros Hinv Hs Hprog Hbank Hq Hpc Hc Hd Hid Hcfe Hctl.
  assert (snapshot_issues t' = snapshot_issues t) as Hsn
    by (unfold snapshot_issues; by rewrite Hq).
  assert (∀ i' j' s1, station_at t' i' j' = Some s1 →
            (i' = i ∧ j' = j ∧ s1 = s')
            ∨ ((i ≠ i' ∨ j ≠ j') ∧ station_at t i' j' = Some s1)) as Hat.
  { intros i' j' s1 H1. unfold station_at in H1. rewrite Hbank in H1.
    apply bank_at_alter_inv in H1 as [(-> & -> & -> & _)|[Hne H1]]; [by left|].
    by right. }
  assert (∀ k x', program t' !! k = Some x' →
            ∃ x, program t !! k = Some x ∧ i_issue x = i_issue x') as Hback.
  { intros k x' Hx'. by eapply issues_lookup. }
  assert (∀ i' j' s1, station_at t' i' j' = Some s1 → busy s1 = true →
            is_control_row i' = true →
            ∃ s0, station_at t i' j' = Some s0 ∧ busy s0 = true
                ∧ inst_index s1 = inst_index s0
                ∧ (rem_cycles_exec s1 ≠ cycles_for_exec s1 →
                   rem_cycles_exec s0 ≠ cycles_for_exec s0
                   ∨ ∃ x, program t !! Z.to_nat (inst_index s0) = Some x
                        ∧ speculation_gate t (i_issue x) = false)) as Hold.
  { intros i' j' s1 H1 Hb1 Hrow.
    apply Hat in H1 as [(-> & -> & ->)|[_ H1]].
    - destruct (Hctl Hb1 Hrow) as (Hb & Hidx & Hst).
      exists s. rewrite Hcfe. split_and!; done.
    - exists s1. split_and!; try done. by left. }
  split.
  - intros i' j' s1 H1. rewrite Hd.
    apply Hat in H1 as [(-> & -> & ->)|[_ H1]].
    + rewrite Hid. by apply (sp_dict _ _ Hinv).
    + by apply (sp_dict _ _ Hinv).
  - intros i' j' s1 H1 Hrow.
    apply Hat in H1 as [(-> & -> & ->)|[_ H1]].
    + rewrite Hcfe. by apply (sp_exec _ _ Hinv _ _ _ Hs).
    + by apply (sp_exec _ _ Hinv _ _ _ H1).
  - rewrite Hc. apply Hinv.
  - rewrite Hsn. apply Hinv.
  - rewrite Hsn. apply Hinv.
  - intros k x' Hx'. destruct (Hback _ _ Hx') as (x & Hx & <-).
    by apply (sp_issue_bound _ _ Hinv k).
  - intros k k' x1 x2 H1 H2 Heq Hnz.
    destruct (Hback _ _ H1) as (y1 & Hy1 & E1).
    destruct (Hback _ _ H2) as (y2 & Hy2 & E2).
    apply (sp_issue_distinct _ _ Hinv k k' y1 y2); congruence.
  - intros i' j' s1 H1 Hb1 Hrow.
    destruct (Hold _ _ _ H1 Hb1 Hrow) as (s0 & H0 & Hb0 & Hidx & Hst).
    destruct (sp_busy _ _ Hinv _ _ _ H0 Hb0 Hrow)
      as (x & Hrange & Hx & Hnz & Hin & Hhead).
    destruct (issues_lookup _ _ _ _ Hprog Hx) as (x' & Hx' & Hi').
    exists x'. rewrite Hidx, Hpc, Hsn, Hi'. split_and!; try done; try lia.
    intros Hstarted. destruct (Hst Hstarted) as [Hs0|(y & Hy & Hgate)].
    + by apply Hhead.
    + rewrite Hx in Hy. injection Hy as <-.
      apply gate_open_head; [apply Hinv|done..].
  - intros i1 j1 s1 i2 j2 s2 H1 H2 Hb1 Hb2 Hr1 Hr2 Heq.
    destruct (Hold _ _ _ H1 Hb1 Hr1) as (a1 & Ha1 & Hba1 & Hi1 & _).
    destruct (Hold _ _ _ H2 Hb2 Hr2) as (a2 & Ha2 & Hba2 & Hi2 & _).
    apply (sp_distinct _ _ Hinv _ _ _ _ _ _ Ha1 Ha2); congruence.
  - rewrite Hc. apply Hinv.
Qed.

Lemma spec_inv_frame b t t' :
  spec_inv b t →
  i_issue <$> program t' = i_issue <$> program t →
  reservation_stations t' = reservation_stations t →
  system_status_queue t' = system_status_queue t →
  pc t' = pc t → cycle t' = cycle t →
  station_id_to_index t' = station_id_to_index t →
  spec_inv b t'.
Proof.
  intros Hinv Hp Hb Hq Hpc Hc Hd.
  destruct (decide (∃ s, station_at t 0 0 = Some s)) as [[s Hs]|Hno].
  - eapply (spec_inv_update b t t' 0 0 s s); try done.
    rewrite Hb. symmetry. apply list_eq. intros i'.
    destruct (decide (0%nat = i')) as [<-|Hne].
    + rewrite list_lookup_alter_eq. unfold station_at, bank_at in Hs.
      destruct (reservation_stations t !! 0%nat) as [row|]; simpl in *; [|done].
      by rewrite list_insert_id.
    + by rewrite list_lookup_alter_ne.
  - assert (snapshot_issues t' = snapshot_issues t) as Hsn
      by (unfold snapshot_issues; by rewrite Hq).
    assert (∀ k x', program t' !! k = Some x' →
              ∃ x, program t !! k = Some x ∧ i_issue x = i_issue x') as Hback.
    { intros k x' Hx'. by eapply issues_lookup. }
    destruct Hinv as [H1 H2 H3 H4 H5 H6 H7 H8 H9 H10].
    split; unfold station_at in *; rewrite ?Hb, ?Hd, ?Hc, ?Hsn, ?Hpc; try done.
    + intros k x' Hx'. destruct (Hback _ _ Hx') as (x & Hx & <-). eauto.
    + intros k k' x1 x2 Hx1 Hx2 Heq Hnz.
      destruct (Hback _ _ Hx1) as (y1 & Hy1 & E1).
      destruct (Hback _ _ Hx2) as (y2 & Hy2 & E2).
      apply (H7 k k' y1 y2); congruence.
    + intros i j s Hs Hbusy Hrow.
      destruct (H8 i j s Hs Hbusy Hrow) as (x & Hr & Hx & Hnz & Hin & Hh).
      destruct (issues_lookup _ _ _ _ Hp Hx) as (x' & Hx' & Hi').
      exists x'. rewrite Hi'. split_and!; try done; lia.
Qed.

Lemma execute_station_spec b i j t t' :
  spec_inv b t → execute_station i j t = Ok t' → spec_inv b t'.
Proof.
  intros Hinv H.
  apply execute_station_shape in H
    as [->|(s & x & k & Hs & Hbusy & Hk & Hx & Hiss & Hgate & Hqj & Hqk & Hrem & ->)];
    [done|].
  destruct (executed_station_fields s x) as ((Hid & Hcfe & _ & Hb & Hidx) & _).
  destruct (executed_instruction_fields (cycle t) s x) as ((_ & _ & _ & Hi & _) & _).
  eapply (spec_inv_update b t _ i j s); try done.
  - simpl. by eapply issues_insert.
  - intros _ Hrow. split_and!; try done. intros _. right.
    destruct (sp_busy _ _ Hinv _ _ _ Hs Hbusy Hrow) as (x0 & Hrange & Hx0 & _).
    apply py_index_nonneg_inv in Hk as [-> _]; [|lia]. eauto.
Qed.

Lemma execute_memory_station_spec b i j t queue_pop t' queue_pop' :
  is_control_row i = false →
  spec_inv b t →
  execute_memory_station i j (t, queue_pop) = Ok (t', queue_pop') →
  spec_inv b t'.
Proof.
  intros Hrow Hinv H.
  apply execute_memory_station_shape in H
    as [[-> _]|(s & x & k & Hs & Hbusy & Hk & Hx & Hiss & Hgate & Hcase)];
    [done|].
  destruct Hcase as [(_ & _ & _ & r & ->)|(_ & _ & _ & stalled & r & ->)].
  - destruct (resolved_station_fields r s) as ((Hid & Hcfe & _ & Hb & Hidx) & _).
    destruct (resolved_instruction_fields (cycle t) s x)
      as ((_ & _ & _ & Hi & _) & _).
    eapply (spec_inv_update b t _ i j s); try done; [|congruence].
    simpl. by eapply issues_insert.
  - destruct (accessed_station_fields i stalled r s)
      as ((Hid & Hcfe & _ & Hb & Hidx) & _).
    destruct (accessed_instruction_fields (cycle t) stalled s x)
      as ((_ & _ & _ & Hi & _) & _).
    eapply (spec_inv_update b t _ i j s); try done; [|congruence].
    simpl. by eapply issues_insert.
Qed.

Lemma execute_spec b t t' :
  spec_inv b t → execute t = Ok t' → spec_inv b t'.
Proof.
  intros Hinv H. unfold execute in H.
  apply Res_bind_Ok in H as (t1 & H1 & H).
  apply Res_bind_Ok in H as ([t2 queue_pop] & H2 & H).
  assert (spec_inv b t1) as Hinv1.
  { eapply (for_stations_preserves _ (spec_inv b)); [exact H1|done|].
    intros i j y y' Hy Hbody. by eapply execute_station_spec. }
  assert (spec_inv b (t2, queue_pop).1) as Hinv2.
  { eapply (for_stations_preserves_in _ (λ y, spec_inv b y.1)); [exact H2|done|].
    intros i j [y q] [y' q'] Hin Hy Hbody.
    eapply execute_memory_station_spec; [|done..].
    list_cases Hin; done. }
  simpl in Hinv2.
  destruct queue_pop; [|by injection H as <-].
  apply Res_bind_Ok in H as (q & _ & H). injection H as <-.
  by eapply spec_inv_frame.
Qed.

Lemma broadcast_station_spec b res id i j t t' :
  spec_inv b t → broadcast_station res id i j t = Ok t' → spec_inv b t'.
Proof.
  intros Hinv H.
  apply broadcast_station_shape in H
    as [->|(s & Hs & Hbusy & Hid & Htag & H)]; [done|].
  destruct (broadcast_to_fields res id s)
    as ((Hsid & Hcfe & _ & Hb & Hidx) & Hre & _).
  destruct (broadcast_stamps id s).
  - destruct H as (x & k & Hk & Hx & ->).
    eapply (spec_inv_update b t _ i j s); try done.
    + simpl. by eapply issues_insert.
    + intros _ _. split_and!; try done. rewrite Hre. by left.
  - subst t'. eapply (spec_inv_update b t _ i j s); try done.
    intros _ _. split_and!; try done. rewrite Hre. by left.
Qed.

Lemma broadcast_spec b ws id t t' :
  spec_inv b t → _broadcast_result ws id t = Ok t' → spec_inv b t'.
Proof.
  intros Hinv H. unfold _broadcast_result in H.
  eapply (for_stations_preserves _ (spec_inv b)); [exact H|done|].
  intros i j y y' Hy Hbody. by eapply broadcast_station_spec.
Qed.

Lemma update_registers_spec b res id js t t' :
  spec_inv b t → for_each (update_register res id) js t = Ok t' → spec_inv b t'.
Proof.
  intros Hinv H.
  eapply (for_each_preserves (spec_inv b)); [exact H|done|].
  intros k y y' Hy Hbody. unfold update_register in Hbody.
  apply Res_bind_Ok in Hbody as (q & _ & Hbody).
  destruct (_ && _); [|by injection Hbody as <-].
  apply Res_bind_Ok in Hbody as (r & _ & Hbody).
  apply Res_bind_Ok in Hbody as (l & _ & Hbody). injection Hbody as <-.
  by eapply spec_inv_frame.
Qed.

(** ** The snapshot queue through one cycle *)

Lemma spec_inv_mono b b' t :
  b ≤ b' ≤ cycle t + 1 → spec_inv b t → spec_inv b' t.
Proof.
  intros Hb [H1 H2 H3 H4 H5 H6 H7 H8 H9 H10].
  split; try done; try lia.
  - intros c Hc. specialize (H5 c Hc). lia.
  - intros k x Hx. specialize (H6 k x Hx). lia.
Qed.

Lemma sorted_snoc (l : list Z) b :
  StronglySorted Z.lt l → (∀ c, c ∈ l → c < b) → StronglySorted Z.lt (l ++ [b]).
Proof.
  induction 1 as [|a l Hl IH Ha]; intros Hb; simpl.
  - repeat constructor.
  - constructor.
    + apply IH. intros c Hc. apply Hb. by right.
    + apply Forall_app. split; [done|].
      apply Forall_singleton. apply Hb. by left.
Qed.

Lemma head_app_Some {A} (l l' : list A) a :
  head l = Some a → head (l ++ l') = Some a.
Proof. by destruct l. Qed.

Lemma issue_into_spec i j t t' x0 :
  spec_inv (cycle t) t → 0 ≤ pc t →
  py_get (program t) (pc t) = Ok x0 →
  i = category_value (i_category x0) →
  issue_into i j t = Ok t' →
  spec_inv (cycle t + 1) t'.
Proof.
  intros Hinv Hpc Hx0 Hi H.
  apply issue_into_shape in H
    as (s & x & k & v1 & v2 & q1 & q2 & Hs & Hk & Hx & _ & _ & Hprog & Hbank
        & Hpc' & Hcyc & Hdict & Hss & _ & _).
  apply py_index_nonneg_inv in Hk as [-> Hlt]; [|done].
  apply py_get_nonneg in Hx0; [|done]. rewrite Hx in Hx0. injection Hx0 as <-.
  assert (is_control (i_category x) = is_control_row i) as Hctl.
  { subst i. unfold is_control, is_control_row.
    destruct (i_category x); apply bool_decide_ext; simpl;
      split; intros [?|?]; try done; auto. }
  rewrite Hctl in Hss. clear Hctl.
  pose proof (sp_cycle _ _ Hinv) as Hc1.
  assert (∀ i' j' s1, station_at t' i' j' = Some s1 →
            (i' = i ∧ j' = j ∧ s1 = issued_station s x (pc t) v1 v2 q1 q2)
            ∨ ((i ≠ i' ∨ j ≠ j') ∧ station_at t i' j' = Some s1)) as Hat.
  { intros i' j' s1 H1. unfold station_at in H1. rewrite Hbank in H1.
    apply bank_at_alter_inv in H1 as [(-> & -> & -> & _)|[Hne H1]]; [by left|].
    by right. }
  assert (∀ k' y, program t' !! k' = Some y →
            (k' = Z.to_nat (pc t) ∧ i_issue y = cycle t)
            ∨ (k' ≠ Z.to_nat (pc t) ∧ program t !! k' = Some y)) as Hback.
  { intros k' y Hy. rewrite Hprog in Hy.
    destruct (decide (k' = Z.to_nat (pc t))) as [->|Hne].
    - rewrite list_lookup_insert_eq in Hy by done. injection Hy as <-. by left.
    - rewrite list_lookup_insert_ne in Hy by done. by right. }
  assert (∀ c, c ∈ snapshot_issues t' → c < cycle t + 1) as Hbound.
  { intros c Hc. unfold snapshot_issues in Hc. rewrite Hss in Hc.
    apply elem_of_app in Hc as [Hc|Hc].
    - pose proof (sp_stack_bound _ _ Hinv c Hc). lia.
    - destruct (is_control_row i); [|by apply elem_of_nil in Hc].
      apply list_elem_of_singleton in Hc. lia. }
  split.
  - intros i' j' s1 H1. rewrite Hdict.
    apply Hat in H1 as [(-> & -> & ->)|[_ H1]]; [|by apply (sp_dict _ _ Hinv)].
    simpl. by apply (sp_dict _ _ Hinv).
  - intros i' j' s1 H1 Hrow.
    apply Hat in H1 as [(-> & -> & ->)|[_ H1]].
    + simpl. by apply (sp_exec _ _ Hinv _ _ _ Hs).
    + by apply (sp_exec _ _ Hinv _ _ _ H1).
  - by rewrite Hcyc.
  - unfold snapshot_issues. rewrite Hss.
    destruct (is_control_row i).
    + apply sorted_snoc; [apply Hinv|]. apply (sp_stack_bound _ _ Hinv).
    + rewrite app_nil_r. apply Hinv.
  - done.
  - intros k' y Hy. apply Hback in Hy as [[_ ->]|[_ Hy]]; [lia|].
    pose proof (sp_issue_bound _ _ Hinv k' y Hy). lia.
  - intros k1 k2 y1 y2 Hy1 Hy2 Heq Hnz.
    apply Hback in Hy1 as [[-> E1]|[N1 Hy1]];
      apply Hback in Hy2 as [[-> E2]|[N2 Hy2]]; try done.
    + pose proof (sp_issue_bound _ _ Hinv _ _ Hy2). lia.
    + pose proof (sp_issue_bound _ _ Hinv _ _ Hy1). lia.
    + by apply (sp_issue_distinct _ _ Hinv k1 k2 y1 y2).
  - intros i' j' s1 H1 Hb1 Hrow. rewrite Hpc'.
    apply Hat in H1 as [(-> & -> & ->)|[_ H1]].
    + exists (set_i_issue (cycle t) x). simpl. split_and!; try lia.
      * rewrite Hprog. apply list_lookup_insert_eq. lia.
      * unfold snapshot_issues. rewrite Hss, Hrow.
        apply elem_of_app. right. by left.
    + destruct (sp_busy _ _ Hinv _ _ _ H1 Hb1 Hrow)
        as (y & Hrange & Hy & Hnz & Hin & Hhead).
      exists y. split_and!; try done; try lia.
      * rewrite Hprog. rewrite list_lookup_insert_ne; [done|]. lia.
      * unfold snapshot_issues. rewrite Hss. apply elem_of_app. by left.
      * intros Hst. unfold snapshot_issues. rewrite Hss.
        apply head_app_Some. by apply Hhead.
  - intros i1 j1 s1 i2 j2 s2 H1 H2 Hb1 Hb2 Hr1 Hr2 Heq.
    apply Hat in H1 as [(-> & -> & ->)|[_ H1]];
      apply Hat in H2 as [(-> & -> & ->)|[_ H2]]; try done.
    + destruct (sp_busy _ _ Hinv _ _ _ H2 Hb2 Hr2) as (y & Hrange & _).
      simpl in Heq. lia.
    + destruct (sp_busy _ _ Hinv _ _ _ H1 Hb1 Hr1) as (y & Hrange & _).
      simpl in Heq. lia.
    + by apply (sp_distinct _ _ Hinv _ _ _ _ _ _ H1 H2).
  - rewrite Hcyc. lia.
Qed.

Lemma issue_spec t t' :
  spec_inv (cycle t) t → 0 ≤ pc t → issue t = Ok t' → spec_inv (cycle t + 1) t'.
Proof.
  intros Hinv Hpc H. unfold issue in H.
  apply Res_bind_Ok in H as (x & Hx & H).
  apply Res_bind_Ok in H as (row & _ & H).
  destruct (find_free row 0) as [j|].
  - by eapply issue_into_spec.
  - injection H as <-. eapply spec_inv_mono; [|done]. lia.
Qed.

(** ** Loops that visit every station *)

Lemma for_each_visits (Inv : Tomasulo → Prop)
    (G : nat → nat → ReservationStation → Prop)
    (body : nat → nat → Tomasulo → Res Tomasulo) i js t t' :
  (∀ i j y y', Inv y → body i j y = Ok y' →
     Inv y' ∧ ∃ s', G i j s'
       ∧ reservation_stations y'
         = alter (λ row, <[j := s']> row) i (reservation_stations y)) →
  for_each (body i) js t = Ok t' → Inv t →
  Inv t' ∧ ∀ i' j' s', station_at t' i' j' = Some s' →
    (i' = i ∧ j' ∈ js ∧ G i j' s')
    ∨ ((i' ≠ i ∨ j' ∉ js) ∧ station_at t i' j' = Some s').
Proof.
  intros Hstep. revert t. induction js as [|j js IH]; intros t H Hinv; simpl in H.
  - injection H as <-. split; [done|]. intros i' j' s' Hs. right.
    split; [|done]. right. apply not_elem_of_nil.
  - apply Res_bind_Ok in H as (y & Hy & H).
    destruct (Hstep _ _ _ _ Hinv Hy) as (Hinvy & s0 & HG & Hbank).
    destruct (IH _ H Hinvy) as [Hinv' Hall]. split; [done|].
    intros i' j' s' Hs.
    destruct (Hall _ _ _ Hs) as [(-> & Hin & HG')|[Hne Hy']].
    + left. split_and!; [done| |done]. by right.
    + unfold station_at in Hy'. rewrite Hbank in Hy'.
      apply bank_at_alter_inv in Hy' as [(<- & <- & -> & _)|[Hne' Hy']].
      * left. split_and!; [done| |done]. by left.
      * right. split; [|done].
        destruct (decide (i' = i)) as [->|]; [|by left]. right.
        intros Hin. apply elem_of_cons in Hin as [->|Hin];
          [by destruct Hne'|by destruct Hne].
Qed.

Lemma for_stations_visits (Inv : Tomasulo → Prop)
    (G : nat → nat → ReservationStation → Prop)
    (body : nat → nat → Tomasulo → Res Tomasulo) rows t t' :
  (∀ i j y y', Inv y → body i j y = Ok y' →
     Inv y' ∧ ∃ s', G i j s'
       ∧ reservation_stations y'
         = alter (λ row, <[j := s']> row) i (reservation_stations y)) →
  for_stations (λ t, t) body rows t = Ok t' → Inv t →
  Inv t' ∧ ∀ i j s', station_at t' i j = Some s' →
    (i ∈ rows ∧ G i j s') ∨ ((i ∉ rows) ∧ station_at t i j = Some s').
Proof.
  intros Hstep. unfold for_stations. revert t.
  induction rows as [|i rows IH]; intros t H Hinv; simpl in H.
  - injection H as <-. split; [done|]. intros i j s' Hs. right.
    split; [apply not_elem_of_nil|done].
  - apply Res_bind_Ok in H as (y & Hy & H).
    apply Res_bind_Ok in Hy as (row & Hrow & Hy).
    destruct (for_each_visits Inv G body i _ _ _ Hstep Hy Hinv) as [Hinvy Hrowy].
    destruct (IH _ H Hinvy) as [Hinv' Hall]. split; [done|].
    intros i' j' s' Hs.
    destruct (Hall _ _ _ Hs) as [[Hin HG]|[Hnin Hy']].
    + left. split; [by right|done].
    + destruct (Hrowy _ _ _ Hy') as [(-> & _ & HG)|[Hne Ht]].
      * left. split; [by left|done].
      * destruct (decide (i' = i)) as [->|Hne'].
        -- exfalso. destruct Hne as [?|Hj]; [done|]. apply Hj.
           unfold get_row in Hrow. unfold station_at, bank_at in Ht.
           destruct (reservation_stations t !! i) as [row0|]; simpl in *; [|done].
           injection Hrow as <-. apply elem_of_seq.
           apply lookup_lt_Some in Ht. lia.
        -- right. split; [|done]. intros Hin.
           by apply elem_of_cons in Hin as [->|Hin].
Qed.

(** ** The flush *)

Lemma clear_entries_bank id js t t' :
  for_each (clear_entry id) js t = Ok t' →
  program t' = program t ∧ reservation_stations t' = reservation_stations t
  ∧ system_status_queue t' = system_status_queue t
  ∧ pc t' = pc t ∧ cycle t' = cycle t
  ∧ station_id_to_index t' = station_id_to_index t.
Proof.
  intros H.
  eapply (for_each_preserves (λ u, program u = program t
    ∧ reservation_stations u = reservation_stations t
    ∧ system_status_queue u = system_status_queue t
    ∧ pc u = pc t ∧ cycle u = cycle t
    ∧ station_id_to_index u = station_id_to_index t));
    [exact H|split_and!; reflexivity|].
  intros k y y' (?&?&?&?&?&?) Hk. unfold clear_entry in Hk.
  apply Res_bind_Ok in Hk as (q & _ & Hk).
  case_bool_decide; [|by injection Hk as <-].
  apply Res_bind_Ok in Hk as (l & _ & Hk). injection Hk as <-. simpl.
  split_and!; done.
Qed.

Lemma flush_station_shape w i j t t' :
  flush_station w i j t = Ok t' →
  ∃ s s', station_at t i j = Some s
    ∧ program t' = program t
    ∧ system_status_queue t' = system_status_queue t
    ∧ pc t' = pc t ∧ cycle t' = cycle t
    ∧ station_id_to_index t' = station_id_to_index t
    ∧ reservation_stations t'
      = alter (λ row, <[j := s']> row) i (reservation_stations t)
    ∧ (s' = set_busy false s
       ∨ (s' = s
          ∧ (busy s = true → ∃ x w0, py_get (program t) (inst_index s) = Ok x
               ∧ py_get (program t) w = Ok w0 ∧ ¬ i_issue x > i_issue w0))).
Proof.
  unfold flush_station. intros H.
  apply Res_bind_Ok in H as (s & Hs%get_station_at & H). exists s.
  assert (reservation_stations t
          = alter (λ row, <[j := s]> row) i (reservation_stations t)) as Hsame.
  { apply list_eq. intros i'. destruct (decide (i = i')) as [<-|Hne].
    - rewrite list_lookup_alter_eq. unfold station_at, bank_at in Hs.
      destruct (reservation_stations t !! i) as [row|]; simpl in *; [|done].
      by rewrite list_insert_id.
    - by rewrite list_lookup_alter_ne. }
  destruct (busy s) eqn:Hbusy.
  - apply Res_bind_Ok in H as (x & Hx & H).
    apply Res_bind_Ok in H as (w0 & Hw & H).
    case_bool_decide as Hy.
    + apply clear_entries_bank in H as (?&Hb&?&?&?&?). simpl in *.
      exists (set_busy false s). split_and!; try done. by left.
    + injection H as <-. exists s. split_and!; try done. right.
      split; [done|]. intros _. by exists x, w0.
  - injection H as <-. exists s. split_and!; try done. right. split; done.
Qed.

Lemma flush_stations_spec w t t' :
  (∀ i j s, station_at t i j = Some s → busy s = true → is_control_row i = true →
     ∃ x w0, py_get (program t) (inst_index s) = Ok x
       ∧ py_get (program t) w = Ok w0 ∧ i_issue x > i_issue w0) →
  for_stations (λ t, t) (flush_station w) all_rows t = Ok t' →
  program t' = program t
  ∧ system_status_queue t' = system_status_queue t
  ∧ pc t' = pc t ∧ cycle t' = cycle t
  ∧ station_id_to_index t' = station_id_to_index t
  ∧ (∀ i j s', station_at t' i j = Some s' →
       ∃ s, station_at t i j = Some s ∧ s_id s' = s_id s
          ∧ cycles_for_exec s' = cycles_for_exec s)
  ∧ (∀ i j s', station_at t' i j = Some s' → is_control_row i = true →
       busy s' = false).
Proof.
  intros Hyoung H.
  set (Inv := λ y : Tomasulo,
    program y = program t
    ∧ system_status_queue y = system_status_queue t
    ∧ pc y = pc t ∧ cycle y = cycle t
    ∧ station_id_to_index y = station_id_to_index t
    ∧ ∀ i j s', station_at y i j = Some s' →
        ∃ s, station_at t i j = Some s
           ∧ (s' = s ∨ s' = set_busy false s)).
  set (G := λ (i j : nat) (s' : ReservationStation),
    is_control_row i = true → busy s' = false).
  destruct (for_stations_visits Inv G (flush_station w) all_rows t t') as [Hinv Hall];
    [|exact H| |].
  - intros i j y y' (Hp & Hq & Hpc & Hc & Hd & Hst) Hbody.
    apply flush_station_shape in Hbody
      as (s & s' & Hs & Hp' & Hq' & Hpc' & Hc' & Hd' & Hbank & Hcase).
    destruct (Hst _ _ _ Hs) as (s0 & Hs0 & Hrel).
    split.
    + unfold Inv. split_and!; try congruence.
      intros i' j' s1 H1. unfold station_at in H1. rewrite Hbank in H1.
      apply bank_at_alter_inv in H1 as [(<- & <- & -> & _)|[_ H1]];
        [|by apply Hst].
      exists s0. split; [done|].
      destruct Hcase as [->|[-> _]]; [|done]. right.
      destruct Hrel as [->| ->]; done.
    + exists s'. split; [|done]. intros Hrow.
      destruct Hcase as [->|[-> Hkeep]]; [done|].
      destruct (busy s) eqn:Hbusy; [|done]. exfalso.
      destruct (Hkeep eq_refl) as (x & w0 & Hx & Hw & Hnot).
      assert (s = s0) as ->.
      { destruct Hrel as [->| ->]; [done|]. by simpl in Hbusy. }
      destruct (Hyoung _ _ _ Hs0 Hbusy Hrow) as (x' & w' & Hx' & Hw' & Hgt).
      rewrite Hp in Hx, Hw. congruence.
  - unfold Inv. split_and!; try done. eauto.
  - destruct Hinv as (Hp & Hq & Hpc & Hc & Hd & Hst).
    split_and!; try done.
    + intros i j s' Hs'. destruct (Hst _ _ _ Hs') as (s & Hs & [->| ->]); eauto.
    + intros i j s' Hs' Hrow.
      destruct (Hall _ _ _ Hs') as [[_ HG]|[Hnin _]]; [by apply HG|].
      exfalso. apply Hnin. unfold is_control_row in Hrow.
      apply bool_decide_eq_true in Hrow. unfold all_rows.
      apply elem_of_seq. simpl in *. unfold NUM_RES_STATIONS_Types. lia.
Qed.

(** ** Retirement of a BEQ or JUMP station *)

Lemma spec_inv_cleared b t t' :
  spec_inv b t →
  program t' = program t → cycle t' = cycle t →
  station_id_to_index t' = station_id_to_index t →
  system_status_queue t' = [] →
  (∀ i j s', station_at t' i j = Some s' →
     ∃ s, station_at t i j = Some s ∧ s_id s' = s_id s
        ∧ cycles_for_exec s' = cycles_for_exec s) →
  (∀ i j s', station_at t' i j = Some s' → is_control_row i = true →
     busy s' = false) →
  spec_inv b t'.
Proof.
  intros Hinv Hp Hc Hd Hq Hst Hfree.
  split; unfold snapshot_issues; rewrite ?Hp, ?Hc, ?Hd, ?Hq; try apply Hinv.
  - intros i j s' Hs'. destruct (Hst _ _ _ Hs') as (s & Hs & -> & _).
    by apply (sp_dict _ _ Hinv).
  - intros i j s' Hs' Hrow. destruct (Hst _ _ _ Hs') as (s & Hs & _ & ->).
    by apply (sp_exec _ _ Hinv _ _ _ Hs).
  - constructor.
  - intros c Hc'. by apply elem_of_nil in Hc'.
  - intros i j s' Hs' Hb Hrow. rewrite (Hfree _ _ _ Hs' Hrow) in Hb. done.
  - intros i j s i' j' s' Hs _ Hb _ Hrow. rewrite (Hfree _ _ _ Hs Hrow) in Hb. done.
Qed.

Lemma spec_inv_pop b t t' w_index :
  spec_inv b t → head_retired t w_index →
  i_issue <$> program t' = i_issue <$> program t →
  reservation_stations t' = reservation_stations t →
  system_status_queue t' = tail (system_status_queue t) →
  pc t' = pc t → cycle t' = cycle t →
  station_id_to_index t' = station_id_to_index t →
  spec_inv b t'.
Proof.
  intros Hinv (w & _ & _ & _ & Hwait) Hp Hb Hq Hpc Hc Hd.
  assert (snapshot_issues t' = tail (snapshot_issues t)) as Hsn.
  { unfold snapshot_issues. rewrite Hq. by destruct (system_status_queue t). }
  assert (∀ c, c ∈ tail (snapshot_issues t) → c ∈ snapshot_issues t) as Hsub.
  { intros c Hc'. destruct (snapshot_issues t); [done|]. by right. }
  assert (∀ k x', program t' !! k = Some x' →
            ∃ x, program t !! k = Some x ∧ i_issue x = i_issue x') as Hback.
  { intros k x' Hx'. by eapply issues_lookup. }
  split; unfold station_at in *; rewrite ?Hb, ?Hd, ?Hc, ?Hsn, ?Hpc; try apply Hinv.
  - pose proof (sp_sorted _ _ Hinv) as Hs.
    destruct (snapshot_issues t); [done|]. by apply StronglySorted_cons in Hs as [_ ?].
  - intros c Hc'. apply (sp_stack_bound _ _ Hinv). by apply Hsub.
  - intros k x' Hx'. destruct (Hback _ _ Hx') as (x & Hx & <-).
    by apply (sp_issue_bound _ _ Hinv k).
  - intros k k' x1 x2 Hx1 Hx2 Heq Hnz.
    destruct (Hback _ _ Hx1) as (y1 & Hy1 & E1).
    destruct (Hback _ _ Hx2) as (y2 & Hy2 & E2).
    apply (sp_issue_distinct _ _ Hinv k k' y1 y2); congruence.
  - intros i j s Hs Hbusy Hrow.
    destruct (sp_busy _ _ Hinv i j s Hs Hbusy Hrow) as (x & Hr & Hx & Hnz & _ & _).
    destruct (Hwait i j s Hs Hbusy Hrow) as (Hrem & x2 & Hx2 & _ & Hin).
    rewrite Hx in Hx2. injection Hx2 as <-.
    destruct (issues_lookup _ _ _ _ Hp Hx) as (x' & Hx' & Hi').
    exists x'. rewrite Hi'. split_and!; try done; lia.
Qed.

Lemma retire_spec b t t' i j s k x :
  spec_inv b t →
  station_at t i j = Some s → busy s = true → rem_cycles_exec s = 0 →
  py_index (length (program t)) (inst_index s) = Ok k →
  program t !! k = Some x →
  t' = set_program (<[k := set_i_write_back (cycle t) x]> (program t))
         (put_station i j (set_busy false s)
            (set_num_written_insts (num_written_insts t + 1) t)) →
  spec_inv b t'
  ∧ program t' = <[k := set_i_write_back (cycle t) x]> (program t)
  ∧ (is_control_row i = true → head_retired t' (inst_index s)).
Proof.
  intros Hinv Hs Hbusy Hrem Hk Hx ->.
  assert (i_issue <$> <[k := set_i_write_back (cycle t) x]> (program t)
          = i_issue <$> program t) as Hiss by (by eapply issues_insert).
  split; [|split; [done|]].
  - eapply (spec_inv_update b t _ i j s (set_busy false s)); try done.
  - intros Hrow.
    destruct (sp_busy _ _ Hinv _ _ _ Hs Hbusy Hrow)
      as (w & Hrange & Hw & Hnz & Hin & Hhead).
    pose proof (sp_exec _ _ Hinv _ _ _ Hs Hrow) as Hexec.
    assert (head (snapshot_issues t) = Some (i_issue w)) as Hhd
      by (apply Hhead; lia).
    destruct (issues_lookup _ _ _ _ Hiss Hw) as (w' & Hw' & Hiw).
    exists w'. simpl. split_and!; [lia|done|rewrite Hiw; exact Hhd|].
    intros i1 j1 s1 H1 Hb1 Hr1. unfold station_at in H1. simpl in H1.
    apply bank_at_alter_inv in H1 as [(<- & <- & -> & _)|[Hne H1]]; [done|].
    destruct (sp_busy _ _ Hinv _ _ _ H1 Hb1 Hr1)
      as (x1 & Hrange1 & Hx1 & Hnz1 & Hin1 & Hhead1).
    assert (i_issue x1 ≠ i_issue w) as Hdiff.
    { intros Heq.
      assert (Z.to_nat (inst_index s1) = Z.to_nat (inst_index s)) as Hsame
        by (by apply (sp_issue_distinct _ _ Hinv _ _ x1 w)).
      assert (inst_index s = inst_index s1) as Hidx by lia.
      destruct (sp_distinct _ _ Hinv _ _ _ _ _ _ Hs H1 Hbusy Hb1 Hrow Hr1 Hidx)
        as [-> ->].
      by destruct Hne. }
    split.
    + destruct (decide (rem_cycles_exec s1 = cycles_for_exec s1)) as [|Hst]; [done|].
      specialize (Hhead1 Hst). congruence.
    + destruct (issues_lookup _ _ _ _ Hiss Hx1) as (x1' & Hx1' & Hi1).
      exists x1'. rewrite Hi1, Hiw. split; [done|].
      change (i_issue w < i_issue x1 ∧ i_issue x1 ∈ tail (snapshot_issues t)).
      pose proof (sp_sorted _ _ Hinv) as Hsorted.
      unfold snapshot_issues in *.
      destruct (ss_issue <$> system_status_queue t) as [|hd rest]; [done|].
      simpl in Hhd. injection Hhd as ->. simpl.
      apply elem_of_cons in Hin1 as [?|Hin1]; [done|].
      apply StronglySorted_cons in Hsorted as [Hall _].
      rewrite Forall_forall in Hall. split; [by apply Hall|done].
Qed.

Lemma flush_spec b ws t t3 t' :
  spec_inv b t → head_retired t (inst_index ws) →
  program t3 = program t →
  reservation_stations t3 = reservation_stations t →
  cycle t3 = cycle t →
  station_id_to_index t3 = station_id_to_index t →
  system_status_queue t3 = [] →
  _flush_instructions_after_jump ws t3 = Ok t' →
  spec_inv b t'.
Proof.
  intros Hinv (w & Hw0 & Hw & _ & Hwait) Hp Hb Hc Hd Hq H.
  unfold _flush_instructions_after_jump in H.
  apply Res_bind_Ok in H as (t4 & H4 & H).
  apply Res_bind_Ok in H as (q & _ & H). injection H as <-.
  apply flush_stations_spec in H4 as (Hp4 & Hq4 & _ & Hc4 & Hd4 & Hst & Hfree).
  - eapply (spec_inv_cleared b t); try done; simpl; try congruence.
    intros i j s' Hs'. destruct (Hst _ _ _ Hs') as (s & Hs & ? & ?).
    exists s. unfold station_at in *. rewrite <- Hb. done.
  - intros i j s Hs Hbusy Hrow. unfold station_at in Hs. rewrite Hb in Hs.
    destruct (Hwait _ _ _ Hs Hbusy Hrow) as (_ & x & Hx & Hlt & _).
    destruct (sp_busy _ _ Hinv _ _ _ Hs Hbusy Hrow) as (y & Hrange & _).
    exists x, w. rewrite Hp. split_and!; [| |lia]; by apply py_get_nonneg; [lia|].
Qed.

Lemma restore_entries_frame js t t' :
  for_each restore_entry js t = Ok t' →
  program t' = program t ∧ reservation_stations t' = reservation_stations t
  ∧ system_status_queue t' = system_status_queue t
  ∧ pc t' = pc t ∧ cycle t' = cycle t
  ∧ station_id_to_index t' = station_id_to_index t.
Proof.
  intros H.
  eapply (for_each_preserves (λ u, program u = program t
    ∧ reservation_stations u = reservation_stations t
    ∧ system_status_queue u = system_status_queue t
    ∧ pc u = pc t ∧ cycle u = cycle t
    ∧ station_id_to_index u = station_id_to_index t));
    [exact H|split_and!; reflexivity|].
  intros k y y' (?&?&?&?&?&?) Hk. unfold restore_entry in Hk.
  apply Res_bind_Ok in Hk as (front & _ & Hk).
  apply Res_bind_Ok in Hk as (v & _ & Hk).
  apply Res_bind_Ok in Hk as (l & _ & Hk). injection Hk as <-. simpl.
  split_and!; done.
Qed.

Lemma write_jump_spec b ws t t' :
  spec_inv b t → head_retired t (inst_index ws) →
  write_jump ws t = Ok t' → spec_inv b t'.
Proof.
  intros Hinv Hhead H. unfold write_jump in H.
  apply Res_bind_Ok in H as (t1 & H1 & H).
  eapply (flush_spec b ws t); [done|done| | | | | |exact H]; simpl; try done.
  all: case_bool_decide; [|by injection H1 as <-].
  all: apply Res_bind_Ok in H1 as (r & _ & H1).
  all: apply Res_bind_Ok in H1 as (inst & _ & H1); by injection H1 as <-.
Qed.

Lemma write_beq_spec b ws t t' :
  spec_inv b t → head_retired t (inst_index ws) →
  write_beq ws t = Ok t' → spec_inv b t'.
Proof.
  intros Hinv Hhead H. unfold write_beq in H.
  case_bool_decide as Htaken.
  - apply Res_bind_Ok in H as (inst & _ & H).
    by eapply (flush_spec b ws t); [done|done| | | | | |exact H].
  - apply Res_bind_Ok in H as (t1 & H1 & H).
    apply Res_bind_Ok in H as (q & Hq & H). injection H as <-.
    apply restore_entries_frame in H1 as (Hp & Hb & Hs & Hpc & Hc & Hd).
    simpl in *.
    eapply (spec_inv_pop b t); [done|exact Hhead|..]; simpl; try congruence.
    rewrite Hs in Hq. unfold popleft in Hq.
    destruct (system_status_queue t); [done|]. by injection Hq as <-.
Qed.

Lemma write_store_spec b id t t' :
  spec_inv b t → write_store id t = Ok t' →
  spec_inv b t'
  ∧ ∃ i j, station_id_to_index t !! id = Some (i, j)
      ∧ ∀ i' j', i' ≠ i → station_at t' i' j' = station_at t i' j'.
Proof.
  intros Hinv H.
  apply write_store_shape in H as (i & j & s & k & x & m & Hd & Hs & Hk & Hx & ->).
  split.
  - eapply (spec_inv_update b t _ i j s (set_busy false s)); try done.
    simpl. by eapply issues_insert.
  - exists i, j. split; [done|]. intros i' j' Hne. unfold station_at. simpl.
    apply bank_at_alter_other. left. done.
Qed.

Lemma write_other_spec b id i j s t t' :
  spec_inv b t →
  station_at t i j = Some s → s_id s = id →
  busy s = true → rem_cycles_exec s = 0 →
  write_other id t = Ok t' →
  spec_inv b t'.
Proof.
  intros Hinv Hs Hid Hbusy Hrem H.
  pose proof (sp_dict _ _ Hinv _ _ _ Hs) as Hd. rewrite Hid in Hd.
  unfold write_other in H.
  apply Res_bind_Ok in H as ([cat j0] & Hpos & H).
  unfold station_position in Hpos. simpl in Hpos. rewrite Hd in Hpos.
  injection Hpos as <- <-.
  apply Res_bind_Ok in H as (s0 & Hs0%get_station_at & H).
  change (station_at t i j = Some s0) in Hs0.
  rewrite Hs in Hs0. injection Hs0 as <-.
  apply Res_bind_Ok in H as (t1 & H1 & H).
  apply upd_instruction_at in H1 as (k & x & Hk & Hx & Ht1).
  simpl in Hk, Hx.
  destruct (retire_spec b t t1 i j s k x Hinv Hs Hbusy Hrem Hk Hx Ht1)
    as (Hinv1 & _ & Hhead).
  clear Ht1.
  apply Res_bind_Ok in H as (t2 & H2 & H).
  assert (spec_inv b t2) as Hinv2.
  { destruct (decide (i = category_value JUMP)) as [Hj|Hj].
    - rewrite (bool_decide_eq_true_2 _ Hj) in H2.
      eapply write_jump_spec; [done| |exact H2]. apply Hhead.
      subst i. done.
    - rewrite (bool_decide_eq_false_2 _ Hj) in H2.
      destruct (decide (i = category_value BEQ)) as [Hq|Hq].
      + rewrite (bool_decide_eq_true_2 _ Hq) in H2.
        eapply write_beq_spec; [done| |exact H2]. apply Hhead.
        subst i. done.
      + rewrite (bool_decide_eq_false_2 _ Hq) in H2. by injection H2 as <-. }
  destruct (_ && _); [|by injection H as <-].
  apply Res_bind_Ok in H as (t3 & H3 & H).
  eapply broadcast_spec; [|exact H].
  by eapply update_registers_spec.
Qed.

Lemma write_spec b t t' :
  spec_inv b t → write t = Ok t' → spec_inv b t'.
Proof.
  intros Hinv H. unfold write in H.
  apply Res_bind_Ok in H as (c & [Hother Hstore]%choose_stations_chosen & H).
  apply Res_bind_Ok in H as (t1 & H1 & H).
  assert (spec_inv b t1
          ∧ ∀ i' j', i' ≠ category_value STORE →
              station_at t1 i' j' = station_at t i' j') as [Hinv1 Hkeep].
  { destruct (bool_decide (write_store_station_id c ≠ -1)) eqn:Bs;
      [apply bool_decide_eq_true in Bs|injection H1 as <-; by split].
    destruct Hstore as [?|(j & s & Hat & Hid & Hel)]; [done|].
    apply (write_store_spec b) in H1 as (Hinv1 & i0 & j0 & Hd & Hkeep); [|done].
    split; [done|].
    pose proof (sp_dict _ _ Hinv _ _ _ Hat) as Hd'.
    rewrite Hid, Hd in Hd'. injection Hd' as -> ->. done. }
  destruct (bool_decide (write_station_id c ≠ -1)) eqn:Bo;
    [apply bool_decide_eq_true in Bo|by injection H as <-].
  destruct Hother as [?|(i & j & s & Hi & Hat & Hid & Hel)]; [done|].
  apply eligible_true in Hel as (Hbusy & Hrem & _).
  rewrite <- (Hkeep i j Hi) in Hat.
  by eapply write_other_spec.
Qed.

Lemma next_cycle_spec t t' :
  spec_inv (cycle t) t → 0 ≤ pc t → next_cycle t = Ok t' →
  spec_inv (cycle t') t'.
Proof.
  intros Hinv Hpc H. unfold next_cycle in H.
  apply Res_bind_Ok in H as (t1 & H1 & H).
  apply Res_bind_Ok in H as (t2 & H2 & H).
  apply Res_bind_Ok in H as (t3 & H3 & H). injection H as <-.
  assert (spec_inv (cycle t + 1) t1) as Hinv1.
  { case_bool_decide; [by eapply issue_spec|].
    injection H1 as <-. eapply spec_inv_mono; [|done]. lia. }
  apply (execute_spec (cycle t + 1)) in H2; [|done].
  apply (write_spec (cycle t + 1)) in H3; [|done].
  destruct H3 as [A1 A2 A3 A4 A5 A6 A7 A8 A9 A10].
  split; simpl; try done; try lia.
  - intros c Hc. specialize (A5 c Hc). lia.
  - intros k x Hx. specialize (A6 k x Hx). lia.
Qed.

Lemma cycles_spec n t t' :
  spec_inv (cycle t) t → pcs_nonneg (S n) t = true → cycles n t = Ok t' →
  spec_inv (cycle t') t' ∧ 0 ≤ pc t'.
Proof.
  revert t. induction n as [|n IH]; intros t Hinv Hpcs H.
  - simpl in H. injection H as <-. split; [done|].
    simpl in Hpcs. apply andb_true_iff in Hpcs as [Hpc _].
    by apply bool_decide_eq_true in Hpc.
  - change (cycles (S n) t) with (t1 ← next_cycle t; cycles n t1) in H.
    apply Res_bind_Ok in H as (t1 & H1 & H).
    change (pcs_nonneg (S (S n)) t)
      with (bool_decide (0 ≤ pc t)
            && match next_cycle t with
               | Ok t' => pcs_nonneg (S n) t'
               | Raise _ => true
               end) in Hpcs.
    rewrite H1 in Hpcs. apply andb_true_iff in Hpcs as [Hpc Hpcs].
    apply bool_decide_eq_true in Hpc.
    eapply IH; [|exact Hpcs|exact H]. by eapply next_cycle_spec.
Qed.

(** ** The freshly constructed engine and the snapshot queue *)

Lemma control_timing_ok_at t i j s :
  control_timing_ok t = true → station_at t i j = Some s →
  is_control_row i = true → 1 ≤ cycles_for_exec s.
Proof.
  unfold control_timing_ok, station_at, bank_at. intros H Hs Hrow.
  destruct (reservation_stations t !! i) as [row|] eqn:Hr; simpl in Hs; [|done].
  rewrite forallb_forall in H.
  specialize (H (i, row)). simpl in H.
  assert (forallb (λ s, negb (is_control_row i)
                        || bool_decide (1 ≤ cycles_for_exec s)) row = true) as Hall.
  { apply H. apply list_elem_of_In, list_elem_of_lookup. exists i.
    by rewrite list_lookup_imap, Hr. }
  rewrite forallb_forall in Hall.
  assert (negb (is_control_row i) || bool_decide (1 ≤ cycles_for_exec s) = true)
    as Hst.
  { apply Hall. apply list_elem_of_In, list_elem_of_lookup. eauto. }
  rewrite Hrow in Hst. simpl in Hst. by apply bool_decide_eq_true in Hst.
Qed.

Lemma read_lines_unissued lines prog prog' :
  Forall (λ x, i_issue x = 0) prog →
  read_lines lines prog = Ok prog' →
  Forall (λ x, i_issue x = 0) prog'.
Proof.
  revert prog. induction lines as [|line lines IH]; intros prog Hp H; simpl in H.
  - by injection H as <-.
  - apply Res_bind_Ok in H as (x & Hx & H).
    eapply IH; [|exact H]. apply Forall_app. split; [done|].
    apply Forall_singleton. unfold parse_instruction in Hx.
    destruct line; simpl in Hx;
      repeat match type of Hx with
             | (if ?b then _ else _) = _ => destruct b; [|done]
             end;
      try done; by injection Hx as <-.
Qed.

Lemma init_spec lines d hw pc0 t :
  Tomasulo_init lines d hw pc0 = Ok t →
  control_timing_ok t = true →
  spec_inv (cycle t) t.
Proof.
  intros H Htime. unfold Tomasulo_init in H.
  apply Res_bind_Ok in H as (t1 & H1 & H).
  unfold _read_instructions in H1.
  apply Res_bind_Ok in H1 as (prog & Hprog & H1). injection H1 as <-.
  apply read_lines_unissued in Hprog; [|by apply Forall_nil].
  unfold _initialize_hardware in H.
  apply Res_bind_Ok in H as ([bank idx] & Hrows & H). injection H as <-.
  apply (init_rows_built d _ [] ∅ 1) in Hrows as [next Hbuilt]; [|done].
  rewrite Forall_lookup in Hprog.
  split; simpl; try done.
  - intros i j s Hs. by destruct (Hbuilt i j s Hs).
  - intros i j s Hs Hrow. by eapply control_timing_ok_at.
  - constructor.
  - intros c Hc. by apply elem_of_nil in Hc.
  - intros k x Hx. rewrite (Hprog k x Hx). done.
  - intros k k' x x' Hx _ _ Hnz. by rewrite (Hprog k x Hx) in Hnz.
  - intros i j s Hs Hb. destruct (Hbuilt i j s Hs) as (_ & _ & ?). congruence.
  - intros i j s i' j' s' Hs _ Hb. destruct (Hbuilt i j s Hs) as (_ & _ & ?).
    congruence.
Qed.

Lemma initialize_memory_spec memory_file t t' :
  initialize_memory memory_file t = Ok t' →
  reservation_stations t' = reservation_stations t ∧ cycle t' = cycle t
  ∧ (∀ b, spec_inv b t → spec_inv b t').
Proof.
  revert t. induction memory_file as [|[a v|] rest IH]; intros t H; simpl in H;
    try discriminate.
  - by injection H as <-.
  - apply Res_bind_Ok in H as (m & _ & H).
    apply IH in H as (Hb & Hc & Hinv). simpl in *. split_and!; try done.
    intros b Hb0. apply Hinv. by eapply spec_inv_frame.
Qed.

Lemma construct_spec instruction_file d hw memory_file pc0 t :
  construct instruction_file d hw memory_file pc0 = Ok t →
  control_timing_ok t = true →
  spec_inv (cycle t) t.
Proof.
  intros H Htime. unfold construct in H.
  apply Res_bind_Ok in H as (e & He & Hm).
  apply initialize_memory_spec in Hm as (Hb & Hc & Hinv).
  rewrite Hc. apply Hinv. eapply init_spec; [exact He|].
  unfold control_timing_ok in *. by rewrite <- Hb.
Qed.

Lemma before_write_spec t tw :
  spec_inv (cycle t) t → 0 ≤ pc t → before_write t = Ok tw →
  spec_inv (cycle t + 1) tw.
Proof.
  intros Hinv Hpc H. unfold before_write in H.
  apply Res_bind_Ok in H as (t1 & H1 & H).
  eapply execute_spec; [|exact H].
  case_bool_decide; [by eapply issue_spec|].
  injection H1 as <-. eapply spec_inv_mono; [|done]. lia.
Qed.

(** The two phases of [write]. *)
Lemma write_phases t :
  write t
  = c ← choose_stations t;
    t1 ← store_phase c t;
    if bool_decide (write_station_id c ≠ -1)
    then write_other (write_station_id c) t1 else Ok t1.
Proof. reflexivity. Qed.

(** C10 (as amended).  Take an engine as the constructor and
    [initialize_memory] leave it, on hardware whose BEQ and JUMP stations
    all need at least one execution cycle, and run it for any number of
    cycles, each of which starts with a PC that is not negative.  If the
    write-back of the next cycle selects a station of the BEQ row, then when
    that station is retired (after the store phase) the snapshot queue is not
    empty, and its front snapshot is the one taken when the branch of that
    station was issued: the restore never reads an empty queue. *)
Theorem C10_snapshot_at_branch_retirement instruction_file is_default_hardware
    hardware_file memory_file initial_PC (n : nat) (t0 t tw t1 : Tomasulo)
    (c : WriteChoice) (j : nat) :
  construct instruction_file is_default_hardware hardware_file memory_file
    initial_PC = Ok t0 →
  control_timing_ok t0 = true →
  pcs_nonneg (S n) t0 = true →
  cycles n t0 = Ok t →
  before_write t = Ok tw →
  choose_stations tw = Ok c →
  store_phase c tw = Ok t1 →
  write_station_id c ≠ -1 →
  station_position t1 (write_station_id c) = Ok (category_value BEQ, j) →
  ∃ s x front rest,
    station_at t1 (category_value BEQ) j = Some s
    ∧ py_get (program t1) (inst_index s) = Ok x
    ∧ system_status_queue t1 = front :: rest
    ∧ ss_issue front = i_issue x.
Proof.
  intros Hc Htime Hpcs Hn Hw Hch Hst Hid Hpos.
  pose proof (construct_spec _ _ _ _ _ _ Hc Htime) as Hinv0.
  destruct (cycles_spec _ _ _ Hinv0 Hpcs Hn) as [Hinv Hpc].
  pose proof (before_write_spec _ _ Hinv Hpc Hw) as Hinvw.
  apply choose_stations_chosen in Hch as [Hother Hstore].
  destruct Hother as [?|(i & j' & s & Hi & Hat & Hsid & Hel)]; [done|].
  apply eligible_true in Hel as (Hbusy & Hrem & _).
  assert (spec_inv (cycle t + 1) t1 ∧ station_at t1 i j' = Some s) as [Hinv1 Hat1].
  { unfold store_phase in Hst.
    destruct (bool_decide (write_store_station_id c ≠ -1)) eqn:Bs;
      [apply bool_decide_eq_true in Bs|injection Hst as <-; by split].
    destruct Hstore as [?|(j0 & s0 & Hat0 & Hid0 & _)]; [done|].
    apply (write_store_spec (cycle t + 1)) in Hst
      as (Hinv1 & i1 & j1 & Hd & Hkeep); [|done].
    split; [done|].
    pose proof (sp_dict _ _ Hinvw _ _ _ Hat0) as Hd'.
    rewrite Hid0, Hd in Hd'. injection Hd' as -> ->.
    rewrite Hkeep; done. }
  pose proof (sp_dict _ _ Hinv1 _ _ _ Hat1) as Hd.
  unfold station_position in Hpos. rewrite Hsid in Hd. rewrite Hd in Hpos.
  injection Hpos as -> ->.
  destruct (sp_busy _ _ Hinv1 _ _ _ Hat1 Hbusy eq_refl)
    as (x & Hrange & Hx & Hnz & Hin & Hhead).
  pose proof (sp_exec _ _ Hinv1 _ _ _ Hat1 eq_refl) as Hexec.
  assert (head (snapshot_issues t1) = Some (i_issue x)) as Hhd
    by (apply Hhead; lia).
  unfold snapshot_issues in Hhd.
  destruct (system_status_queue t1) as [|front rest]; [done|].
  simpl in Hhd. injection Hhd as Hhd.
  exists s, x, front, rest. split_and!; try done.
  apply py_get_nonneg; [lia|done].
Qed.

Lemma C10_snapshot_at_branch_retirement_witness :
  ∃ s x front rest,
    station_at lone_branch_at_write (category_value BEQ) 0 = Some s
    ∧ py_get (program lone_branch_at_write) (inst_index s) = Ok x
    ∧ system_status_queue lone_branch_at_write = front :: rest
    ∧ ss_issue front = i_issue x.
Proof.
  apply (C10_snapshot_at_branch_retirement lone_branch true [] [] 0 2
           lone_branch_start lone_branch_two lone_branch_at_write
           lone_branch_at_write (mkWriteChoice 5 (-1) 1) 0).
  - apply engine_of_Ok. vm_compute. exact I.
  - vm_compute. reflexivity.
  - vm_compute. reflexivity.
  - apply engine_of_Ok. vm_compute. exact I.
  - apply engine_of_Ok. vm_compute. exact I.
  - vm_compute. reflexivity.
  - reflexivity.
  - simpl. lia.
  - vm_compute. reflexivity.
Defined.

(** C10 counterexample: with a hardware file that gives the JUMP station
    zero execution cycles, the CALL of [branch_then_call], issued in cycle 2
    behind the branch, never passes through Execute and so never meets the
    speculation gate; it retires in cycle 2 and clears the queue.  In cycle 3
    the write-back selects station BEQ1, whose result is 0 (not taken), while
    the queue is empty, and the restore raises [IndexError]. *)
Lemma C10_branch_retires_on_empty_stack :
  branch_observation branch_call_at_write 0
  = (Some (mkWriteChoice 5 (-1) 1), Some 0, [])
  ∧ pcs_nonneg 3 branch_call_start = true
  ∧ simulate branch_then_call false zero_cycle_jump_hardware [] 0 100
    = Crashed IndexError.
Proof. split_and!; vm_compute; reflexivity. Qed.

(** The bound on the PC is needed as well: started at PC -2, line 0 of
    [two_branches] is issued in cycle 1 through [program[-2]] and again in
    cycle 3 through [program[0]], which overwrites its issue stamp.  When the
    first copy retires as taken in cycle 3 the flush compares against the new
    stamp and keeps the branch of line 1, issued in cycle 2; that branch
    retires as not taken in cycle 5 from station BEQ2 (id 6), on an empty
    queue. *)
Example negative_pc_empties_stack :
  control_timing_ok two_branches_start = true
  ∧ branch_observation two_branches_at_write 1
    = (Some (mkWriteChoice 6 (-1) 2), Some 0, [])
  ∧ simulate two_branches false three_branch_hardware [] (-2) 100
    = Crashed IndexError.
Proof. split_and!; vm_compute; reflexivity. Qed.

(** ** What the stages of a cycle leave alone *)

Lemma stamped_refl c x : stamped c x x.
Proof. unfold stamped. split_and!; auto. Qed.

Lemma stamped_trans c x y z : stamped c x y → stamped c y z → stamped c x z.
Proof.
  unfold stamped. intros (D1 & A1 & B1 & C1 & E1) (D2 & A2 & B2 & C2 & E2).
  split_and!; [congruence|..].
  - destruct A2 as [->|?]; auto.
  - destruct B2 as [->|?]; auto.
  - destruct C2 as [->|?]; auto.
  - destruct E2 as [->|?]; auto.
Qed.

Lemma Forall2_refl_all {A} (R : A → A → Prop) (l : list A) :
  (∀ x, R x x) → Forall2 R l l.
Proof. intros HR. induction l; constructor; auto. Qed.

Lemma Forall2_trans_all {A} (R : A → A → Prop) (l1 l2 l3 : list A) :
  (∀ x y z, R x y → R y z → R x z) →
  Forall2 R l1 l2 → Forall2 R l2 l3 → Forall2 R l1 l3.
Proof.
  intros HR H. revert l3. induction H as [|x y l1 l2 Hxy H IH]; intros l3 H3.
  - by inversion H3.
  - inversion H3 as [|? z ? l3' Hyz H3']; subst. constructor; eauto.
Qed.

Lemma evolves_refl t : evolves 0 0 t t.
Proof.
  split; try done; try lia.
  - apply Forall2_refl_all. apply stamped_refl.
  - apply Forall2_refl_all. intros row. by apply Forall2_refl_all.
Qed.

Lemma evolves_trans d1 b1 d2 b2 t t1 t2 :
  evolves d1 b1 t t1 → evolves d2 b2 t1 t2 → evolves (d1 + d2) (b1 + b2) t t2.
Proof.
  intros [A1 A2 A3 A4 A5 A6 A7 A8 A9 A10 A11] [B1 B2 B3 B4 B5 B6 B7 B8 B9 B10 B11].
  split; try congruence; try lia.
  - rewrite A1 in B2. eapply Forall2_trans_all; [|exact A2|exact B2].
    apply stamped_trans.
  - eapply Forall2_trans_all; [|exact A3|exact B3].
    intros r1 r2 r3 H1 H2. eapply Forall2_trans_all; [|exact H1|exact H2].
    intros; congruence.
Qed.

Lemma evolves_step t t1 t2 :
  evolves 0 0 t t1 → evolves 0 0 t1 t2 → evolves 0 0 t t2.
Proof. intros H1 H2. apply (evolves_trans 0 0 0 0 t t1 t2); done. Qed.

(** An update of fields on which [evolves] puts no condition. *)
Lemma evolves_same t t' :
  cycle t' = cycle t → program t' = program t →
  reservation_stations t' = reservation_stations t →
  station_id_to_index t' = station_id_to_index t →
  memory t' = memory t → registers t' = registers t →
  length (register_status t') = length (register_status t) →
  num_written_insts t' = num_written_insts t →
  num_beq t' = num_beq t → num_mispredictions t' = num_mispredictions t →
  evolves 0 0 t t'.
Proof.
  intros H1 H2 H3 H4 H5 H6 H7 H8 H9 H10.
  split; rewrite ?H1, ?H2, ?H3, ?H4, ?H5, ?H6, ?H7, ?H8, ?H9, ?H10;
    try done; try lia.
  - apply Forall2_refl_all. apply stamped_refl.
  - apply Forall2_refl_all. intros row. by apply Forall2_refl_all.
Qed.

Lemma evolves_program t k x x' :
  program t !! k = Some x → stamped (cycle t) x x' →
  evolves 0 0 t (set_program (<[k := x']> (program t)) t).
Proof.
  intros Hx Hst. split; simpl; try done; try lia.
  - rewrite <- (list_insert_id (program t) k x) at 1 by done.
    apply Forall2_insert; [|done].
    apply Forall2_refl_all. apply stamped_refl.
  - apply Forall2_refl_all. intros row. by apply Forall2_refl_all.
Qed.

Lemma evolves_station t i j s s' :
  station_at t i j = Some s → configuration s' = configuration s →
  evolves 0 0 t (put_station i j s' t).
Proof.
  intros Hs Hc. split; simpl; try done; try lia.
  - apply Forall2_refl_all. apply stamped_refl.
  - unfold station_at, bank_at in Hs.
    destruct (reservation_stations t !! i) as [row|] eqn:Hrow; simpl in Hs; [|done].
    apply Forall2_alter_r.
    + apply Forall2_refl_all. intros r. by apply Forall2_refl_all.
    + intros r r' Hr Hr' _. rewrite Hrow in Hr, Hr'.
      injection Hr as <-. injection Hr' as <-.
      rewrite <- (list_insert_id row j s) at 1 by done.
      apply Forall2_insert; [|done]. by apply Forall2_refl_all.
Qed.

Lemma evolves_upd_instruction t t' idx f :
  (∀ x, stamped (cycle t) x (f x)) →
  upd_instruction idx f t = Ok t' → evolves 0 0 t t'.
Proof.
  intros Hf H. apply upd_instruction_at in H as (k & x & _ & Hx & ->).
  by eapply evolves_program.
Qed.

Lemma stamped_issue c x : stamped c x (set_i_issue c x).
Proof. unfold stamped. simpl. split_and!; auto. Qed.

Lemma stamped_exec_start c x : stamped c x (set_i_exec_start c x).
Proof. unfold stamped. simpl. split_and!; auto. Qed.

Lemma stamped_exec_end c x : stamped c x (set_i_exec_end c x).
Proof. unfold stamped. simpl. split_and!; auto. Qed.

Lemma stamped_write_back c x : stamped c x (set_i_write_back c x).
Proof. unfold stamped. simpl. split_and!; auto. Qed.

Lemma evolves_visit t i j s s' k x x' :
  station_at t i j = Some s → program t !! k = Some x →
  configuration s' = configuration s → stamped (cycle t) x x' →
  evolves 0 0 t (put_station i j s' (set_program (<[k := x']> (program t)) t)).
Proof.
  intros Hs Hx Hc Hst. eapply evolves_step.
  - by apply (evolves_program t k x x').
  - by apply (evolves_station _ i j s s').
Qed.

Lemma executed_station_configuration s x :
  configuration (executed_station s x) = configuration s.
Proof.
  unfold executed_station, configuration.
  destruct (bool_decide _); [|done].
  destruct (exec_result_static (i_category x)
              (set_rem_cycles_exec (rem_cycles_exec s - 1) s))
    as (-> & _ & _ & _ & _ & -> & -> & _). done.
Qed.

Lemma executed_instruction_stamped c s x :
  stamped c x (executed_instruction c s x).
Proof.
  unfold executed_instruction.
  destruct (_ && _); destruct (bool_decide _);
    unfold stamped; simpl; split_and!; auto.
Qed.

Lemma execute_station_evolves i j t t' :
  execute_station i j t = Ok t' → evolves 0 0 t t'.
Proof.
  intros H. apply execute_station_shape in H
    as [->|(s & x & k & Hs & _ & _ & Hx & _ & _ & _ & _ & _ & ->)];
    [apply evolves_refl|].
  apply (evolves_visit t i j s _ k x); [done|done|..].
  - apply executed_station_configuration.
  - apply executed_instruction_stamped.
Qed.

Lemma execute_memory_station_evolves i j t queue_pop t' queue_pop' :
  execute_memory_station i j (t, queue_pop) = Ok (t', queue_pop') →
  evolves 0 0 t t'.
Proof.
  intros H. apply execute_memory_station_shape in H
    as [[-> _]|(s & x & k & Hs & _ & _ & Hx & _ & _ & Hcase)];
    [apply evolves_refl|].
  destruct Hcase as [(_ & _ & _ & r & ->)|(_ & _ & _ & stalled & r & ->)];
    apply (evolves_visit t i j s _ k x); try done.
  - unfold resolved_station, configuration.
    by destruct (bool_decide (rem_cycles_addr s - 1 = 0)).
  - unfold resolved_instruction.
    destruct (bool_decide (rem_cycles_addr s = cycles_for_addr s));
      [apply stamped_exec_start|apply stamped_refl].
  - unfold accessed_station, configuration.
    by destruct stalled; destruct (_ && _).
  - unfold accessed_instruction. destruct (bool_decide (_ = 0));
      [apply stamped_exec_end|apply stamped_refl].
Qed.

Lemma execute_evolves t t' : execute t = Ok t' → evolves 0 0 t t'.
Proof.
  intros H. unfold execute in H.
  apply Res_bind_Ok in H as (t1 & H1 & H).
  apply Res_bind_Ok in H as ([t2 queue_pop] & H2 & H).
  assert (evolves 0 0 t t1) as E1.
  { eapply (for_stations_preserves _ (evolves 0 0 t)); [exact H1|apply evolves_refl|].
    intros i j y y' Hy Hbody. eapply evolves_step; [exact Hy|].
    by eapply execute_station_evolves. }
  assert (evolves 0 0 t (t2, queue_pop).1) as E2.
  { eapply (for_stations_preserves _ (λ y, evolves 0 0 t y.1)); [exact H2|exact E1|].
    intros i j [y q] [y' q'] Hy Hbody. eapply evolves_step; [exact Hy|].
    by eapply execute_memory_station_evolves. }
  simpl in E2.
  destruct queue_pop; [|by injection H as <-].
  apply Res_bind_Ok in H as (q & _ & H). injection H as <-.
  eapply evolves_step; [exact E2|]. by apply evolves_same.
Qed.

Lemma rename_destination_evolves rd id t t' :
  rename_destination rd id t = Ok t' → evolves 0 0 t t'.
Proof.
  unfold rename_destination. intros H.
  case_bool_decide; [|injection H as <-; apply evolves_refl].
  destruct (system_status_queue t) as [|ss q].
  - apply Res_bind_Ok in H as (l & Hl & H). injection H as <-.
    apply evolves_same; try done. simpl. by eapply py_set_length.
  - apply Res_bind_Ok in H as (q' & _ & H). injection H as <-.
    by apply evolves_same.
Qed.

Lemma push_snapshot_evolves t : evolves 0 0 t (push_snapshot t).
Proof.
  unfold push_snapshot. destruct (last (system_status_queue t));
    by apply evolves_same.
Qed.

Lemma issue_into_evolves i j t t' :
  issue_into i j t = Ok t' → evolves 0 0 t t'.
Proof.
  unfold issue_into. intros H.
  apply Res_bind_Ok in H as (s & Hs%get_station_at & H).
  apply Res_bind_Ok in H as (x & _ & H).
  apply Res_bind_Ok in H as (t1 & H1 & H).
  pose proof H1 as E1.
  apply evolves_upd_instruction in E1; [|apply stamped_issue].
  apply upd_instruction_at in H1 as (k & x' & _ & _ & ->).
  apply Res_bind_Ok in H as (s2 & (q1 & v1 & _ & ->)%read_first_operand_shape & H).
  apply Res_bind_Ok in H as (s3 & (q2 & v2 & _ & ->)%read_second_operand_shape & H).
  apply Res_bind_Ok in H as (t3 & H3 & H). injection H as <-.
  apply rename_destination_evolves in H3.
  eapply evolves_step; [exact E1|].
  eapply evolves_step; [|eapply evolves_step; [exact H3|]].
  - by apply (evolves_station _ i j s).
  - assert (∀ u, evolves 0 0 u (set_pc (pc u + 1) u)) as Hpc
      by (intros; by apply evolves_same).
    assert (∀ u q, evolves 0 0 u (set_load_store_queue q u)) as Hq
      by (intros; by apply evolves_same).
    eapply evolves_step; [|apply Hpc].
    destruct (bool_decide (i_category x = BEQ ∨ i_category x = JUMP));
      [eapply evolves_step; [|apply push_snapshot_evolves]|];
      destruct (bool_decide (i_category x = LOAD ∨ i_category x = STORE));
      first [apply Hq|apply evolves_refl].
Qed.

Lemma issue_evolves t t' : issue t = Ok t' → evolves 0 0 t t'.
Proof.
  intros H. unfold issue in H.
  apply Res_bind_Ok in H as (x & Hx & H).
  apply Res_bind_Ok in H as (row & _ & H).
  destruct (find_free row 0) as [j|].
  - by eapply issue_into_evolves.
  - injection H as <-. apply evolves_refl.
Qed.

(** *** Write-back *)

(** *** Write-back *)

Lemma evolves_counters d b m t t' :
  cycle t' = cycle t → program t' = program t →
  reservation_stations t' = reservation_stations t →
  station_id_to_index t' = station_id_to_index t →
  memory t' = memory t → registers t' = registers t →
  register_status t' = register_status t →
  num_written_insts t' = num_written_insts t + d →
  num_beq t' = num_beq t + b →
  num_mispredictions t' = num_mispredictions t + m →
  0 ≤ m ≤ b →
  evolves d b t t'.
Proof.
  intros H1 H2 H3 H4 H5 H6 H7 H8 H9 H10 Hm.
  split; rewrite ?H1, ?H2, ?H3, ?H4, ?H5, ?H6, ?H7; try done; try lia.
  - apply Forall2_refl_all. apply stamped_refl.
  - apply Forall2_refl_all. intros row. by apply Forall2_refl_all.
Qed.

Lemma evolves_weaken d b b' t t' : b ≤ b' → evolves d b t t' → evolves d b' t t'.
Proof. intros Hb [A1 A2 A3 A4 A5 A6 A7 A8 A9 A10 A11]. split; try done. lia. Qed.

Lemma evolves_memory t m :
  length m = length (memory t) → evolves 0 0 t (set_memory m t).
Proof.
  intros Hm. split; simpl; try done; try lia.
  - apply Forall2_refl_all. apply stamped_refl.
  - apply Forall2_refl_all. intros row. by apply Forall2_refl_all.
Qed.

Lemma evolves_registers t r :
  length r = length (registers t) → r !! 0%nat = registers t !! 0%nat →
  evolves 0 0 t (set_registers r t).
Proof.
  intros Hl Hr. split; simpl; try done; try lia.
  - apply Forall2_refl_all. apply stamped_refl.
  - apply Forall2_refl_all. intros row. by apply Forall2_refl_all.
Qed.

Lemma evolves_register_status t l :
  length l = length (register_status t) → evolves 0 0 t (set_register_status l t).
Proof. intros Hl. by apply evolves_same. Qed.

(** A write to a register other than R0. *)
Lemma py_set_keeps_first {A} (l l' : list A) (i : Z) x :
  0 < i → py_set l i x = Ok l' → l' !! 0%nat = l !! 0%nat.
Proof.
  intros Hi H. apply py_set_nonneg in H as (-> & Hlt); [|lia].
  apply list_lookup_insert_ne. lia.
Qed.

Lemma retire_evolves t t' i j s :
  station_at t i j = Some s →
  upd_instruction (inst_index s) (set_i_write_back (cycle t))
    (put_station i j (set_busy false s)
       (set_num_written_insts (num_written_insts t + 1) t)) = Ok t' →
  evolves 1 0 t t'.
Proof.
  intros Hs H.
  apply evolves_upd_instruction in H; [|apply stamped_write_back].
  refine (evolves_trans 1 0 0 0 _ _ _ _ H).
  apply (evolves_trans 1 0 0 0 t (set_num_written_insts (num_written_insts t + 1) t)).
  - apply (evolves_counters 1 0 0); simpl; try done; lia.
  - by apply (evolves_station _ i j s).
Qed.

Lemma write_store_evolves id t t' :
  write_store id t = Ok t' → evolves 1 0 t t'.
Proof.
  unfold write_store. intros H.
  apply Res_bind_Ok in H as ([i j] & _ & H).
  apply Res_bind_Ok in H as (s & Hs%get_station_at & H).
  apply Res_bind_Ok in H as (t1 & H1 & H).
  apply Res_bind_Ok in H as (m & Hm & H). injection H as <-.
  pose proof (retire_evolves t t1 i j s Hs H1) as E1.
  apply (evolves_trans 1 0 0 0 t t1); [done|].
  apply evolves_memory. by eapply py_set_length.
Qed.

Lemma clear_entry_evolves id j t t' :
  clear_entry id j t = Ok t' → evolves 0 0 t t'.
Proof.
  unfold clear_entry. intros H.
  apply Res_bind_Ok in H as (q & _ & H).
  case_bool_decide; [|injection H as <-; apply evolves_refl].
  apply Res_bind_Ok in H as (l & Hl & H). injection H as <-.
  apply evolves_register_status. by eapply py_set_length.
Qed.

Lemma flush_station_evolves w i j t t' :
  flush_station w i j t = Ok t' → evolves 0 0 t t'.
Proof.
  unfold flush_station. intros H.
  apply Res_bind_Ok in H as (s & Hs%get_station_at & H).
  destruct (busy s); [|injection H as <-; apply evolves_refl].
  apply Res_bind_Ok in H as (x & _ & H).
  apply Res_bind_Ok in H as (w0 & _ & H).
  case_bool_decide; [|injection H as <-; apply evolves_refl].
  eapply (for_each_preserves (evolves 0 0 t)); [exact H| |].
  - by apply (evolves_station _ i j s).
  - intros k y y' Hy Hk. eapply evolves_step; [exact Hy|].
    by eapply clear_entry_evolves.
Qed.

Lemma flush_evolves ws t t' :
  _flush_instructions_after_jump ws t = Ok t' → evolves 0 0 t t'.
Proof.
  unfold _flush_instructions_after_jump. intros H.
  apply Res_bind_Ok in H as (t1 & H1 & H).
  apply Res_bind_Ok in H as (q & _ & H). injection H as <-.
  assert (evolves 0 0 t t1) as E1.
  { eapply (for_stations_preserves _ (evolves 0 0 t)); [exact H1|apply evolves_refl|].
    intros i j y y' Hy Hbody. eapply evolves_step; [exact Hy|].
    by eapply flush_station_evolves. }
  eapply evolves_step; [exact E1|]. by apply evolves_same.
Qed.

Lemma broadcast_station_evolves res id i j t t' :
  broadcast_station res id i j t = Ok t' → evolves 0 0 t t'.
Proof.
  intros H. apply broadcast_station_shape in H
    as [->|(s & Hs & _ & _ & _ & H)]; [apply evolves_refl|].
  assert (configuration (broadcast_to res id s) = configuration s) as Hc.
  { unfold broadcast_to, configuration.
    destruct (bool_decide (qj s = id)); simpl;
      destruct (bool_decide (_ = id)); done. }
  destruct (broadcast_stamps id s).
  - destruct H as (x & k & _ & Hx & ->).
    apply (evolves_visit t i j s _ k x); try done. apply stamped_exec_start.
  - subst t'. by apply (evolves_station _ i j s).
Qed.

Lemma broadcast_evolves ws id t t' :
  _broadcast_result ws id t = Ok t' → evolves 0 0 t t'.
Proof.
  intros H. unfold _broadcast_result in H.
  eapply (for_stations_preserves _ (evolves 0 0 t)); [exact H|apply evolves_refl|].
  intros i j y y' Hy Hbody. eapply evolves_step; [exact Hy|].
  by eapply broadcast_station_evolves.
Qed.

Lemma update_register_evolves res id i t t' :
  update_register res id i t = Ok t' → evolves 0 0 t t'.
Proof.
  unfold update_register. intros H.
  apply Res_bind_Ok in H as (q & _ & H).
  destruct (bool_decide (q = id) && bool_decide (i ≠ 0%nat)) eqn:Hb;
    [|injection H as <-; apply evolves_refl].
  apply andb_true_iff in Hb as [_ Hi%bool_decide_eq_true].
  apply Res_bind_Ok in H as (r & Hr & H).
  apply Res_bind_Ok in H as (l & Hl & H). injection H as <-.
  eapply evolves_step.
  - apply (evolves_registers t r); [by eapply py_set_length|].
    eapply py_set_keeps_first; [|exact Hr]. lia.
  - apply evolves_register_status. simpl. by eapply py_set_length.
Qed.

Lemma restore_entry_evolves i t t' :
  restore_entry i t = Ok t' → evolves 0 0 t t'.
Proof.
  unfold restore_entry. intros H.
  apply Res_bind_Ok in H as (front & _ & H).
  apply Res_bind_Ok in H as (v & _ & H).
  apply Res_bind_Ok in H as (l & Hl & H). injection H as <-.
  apply evolves_register_status. by eapply py_set_length.
Qed.

Lemma write_jump_evolves ws t t' :
  write_jump ws t = Ok t' → evolves 0 0 t t'.
Proof.
  unfold write_jump. intros H.
  apply Res_bind_Ok in H as (t1 & H1 & H).
  apply flush_evolves in H.
  assert (evolves 0 0 t t1) as E1.
  { case_bool_decide.
    - apply Res_bind_Ok in H1 as (r & Hr & H1).
      apply Res_bind_Ok in H1 as (inst & _ & H1). injection H1 as <-.
      eapply evolves_step.
      + apply (evolves_registers t r); [by eapply py_set_length|].
        eapply py_set_keeps_first; [|exact Hr]. lia.
      + by apply evolves_same.
    - injection H1 as <-. by apply evolves_same. }
  eapply evolves_step; [exact E1|].
  eapply evolves_step; [|exact H]. by apply evolves_same.
Qed.

Lemma write_beq_evolves ws t t' :
  write_beq ws t = Ok t' → evolves 0 1 t t'.
Proof.
  unfold write_beq. intros H.
  case_bool_decide.
  - apply Res_bind_Ok in H as (inst & _ & H).
    apply flush_evolves in H.
    refine (evolves_trans 0 1 0 0 _ _ _ _ H).
    apply (evolves_counters 0 1 1); simpl; try done; lia.
  - apply Res_bind_Ok in H as (t1 & H1 & H).
    apply Res_bind_Ok in H as (q & _ & H). injection H as <-.
    apply (evolves_trans 0 1 0 0 t (set_num_beq (num_beq t + 1) t)).
    + apply (evolves_counters 0 1 0); simpl; try done; lia.
    + apply (evolves_step _ t1); [|by apply evolves_same].
      eapply (for_each_preserves (evolves 0 0 _)); [exact H1|apply evolves_refl|].
      intros k y y' Hy Hk. eapply evolves_step; [exact Hy|].
      by eapply restore_entry_evolves.
Qed.

Lemma write_other_evolves id t t' :
  write_other id t = Ok t' → evolves 1 1 t t'.
Proof.
  unfold write_other. intros H.
  apply Res_bind_Ok in H as ([cat j] & _ & H).
  apply Res_bind_Ok in H as (s & Hs%get_station_at & H).
  apply Res_bind_Ok in H as (t1 & H1 & H).
  pose proof (retire_evolves t t1 cat j s Hs H1) as E1. clear H1.
  apply Res_bind_Ok in H as (t2 & H2 & H).
  assert (evolves 0 1 t1 t2) as E2.
  { destruct (bool_decide (cat = category_value JUMP)).
    - apply (evolves_weaken 0 0 1); [lia|]. by eapply write_jump_evolves.
    - destruct (bool_decide (cat = category_value BEQ)).
      + by eapply write_beq_evolves.
      + injection H2 as <-. apply (evolves_weaken 0 0 1); [lia|]. apply evolves_refl. }
  assert (evolves 0 0 t2 t') as E3.
  { destruct (_ && _); [|injection H as <-; apply evolves_refl].
    apply Res_bind_Ok in H as (t3 & H3 & H).
    apply broadcast_evolves in H.
    eapply evolves_step; [|exact H].
    eapply (for_each_preserves (evolves 0 0 t2)); [exact H3|apply evolves_refl|].
    intros k y y' Hy Hk. eapply evolves_step; [exact Hy|].
    by eapply update_register_evolves. }
  apply (evolves_trans 1 0 0 1 t t1 t'); [done|].
  apply (evolves_trans 0 1 0 0 t1 t2 t'); done.
Qed.

Lemma write_evolves t t' :
  write t = Ok t' →
  ∃ d b, 0 ≤ b ≤ d ∧ d ≤ 2 ∧ evolves d b t t'.
Proof.
  unfold write. intros H.
  apply Res_bind_Ok in H as (c & _ & H).
  apply Res_bind_Ok in H as (t1 & H1 & H).
  assert (∃ d1, 0 ≤ d1 ≤ 1 ∧ evolves d1 0 t t1) as (d1 & Hd1 & E1).
  { destruct (bool_decide (write_store_station_id c ≠ -1)).
    - exists 1. split; [lia|]. by eapply write_store_evolves.
    - injection H1 as <-. exists 0. split; [lia|]. apply evolves_refl. }
  destruct (bool_decide (write_station_id c ≠ -1)).
  - exists (d1 + 1), (0 + 1). split_and!; try lia.
    eapply evolves_trans; [exact E1|]. by eapply write_other_evolves.
  - injection H as <-. exists d1, 0. split_and!; try lia. done.
Qed.

Lemma next_cycle_evolves t t' :
  next_cycle t = Ok t' →
  ∃ d b u, 0 ≤ b ≤ d ∧ d ≤ 2 ∧ evolves d b t u ∧ t' = set_cycle (cycle t + 1) u.
Proof.
  unfold next_cycle. intros H.
  apply Res_bind_Ok in H as (t1 & H1 & H).
  apply Res_bind_Ok in H as (t2 & H2 & H).
  apply Res_bind_Ok in H as (t3 & H3 & H). injection H as <-.
  assert (evolves 0 0 t t1) as E1.
  { case_bool_decide; [by eapply issue_evolves|].
    injection H1 as <-. apply evolves_refl. }
  apply execute_evolves in H2.
  apply write_evolves in H3 as (d & b & Hb & Hd & E3).
  exists d, b, t3.
  assert (evolves d b t t3) as E.
  { apply (evolves_trans 0 0 d b t t1 t3); [done|].
    apply (evolves_trans 0 0 d b t1 t2 t3); done. }
  split_and!; try done; try lia. by rewrite (ev_cycle _ _ _ _ E).
Qed.

(** ** What a run leaves alone *)

Lemma Forall2_fmap_eq {A B} (f : A → B) (l l' : list A) :
  Forall2 (λ x y, f y = f x) l l' → f <$> l' = f <$> l.
Proof.
  induction 1 as [|x y l l' Hxy _ IH]; [done|]. rewrite !fmap_cons. by f_equal.
Qed.

Lemma evolves_decoded d b t t' :
  evolves d b t t' → decoded_fields <$> program t' = decoded_fields <$> program t.
Proof.
  intros E. apply Forall2_fmap_eq.
  eapply Forall2_impl; [apply (ev_program _ _ _ _ E)|]. by intros x y [? _].
Qed.

Lemma evolves_configuration d b t t' :
  evolves d b t t' →
  bank_layout (reservation_stations t') = bank_layout (reservation_stations t).
Proof.
  intros E. unfold bank_layout. apply Forall2_fmap_eq.
  eapply Forall2_impl; [apply (ev_bank _ _ _ _ E)|].
  intros r r' Hr. by apply Forall2_fmap_eq.
Qed.

(** X1 (cycle counter).  Every call of [next_cycle] that returns advances the
    cycle counter by exactly one, whatever the stages do: after [n] cycles
    the counter has grown by [n]. *)
Theorem X1_cycles_advance_counter (n : nat) (t t' : Tomasulo) :
  cycles n t = Ok t' → cycle t' = cycle t + Z.of_nat n.
Proof.
  revert t. induction n as [|n IH]; intros t H.
  - simpl in H. injection H as <-. lia.
  - change (cycles (S n) t) with (t1 ← next_cycle t; cycles n t1) in H.
    apply Res_bind_Ok in H as (t1 & H1 & H).
    apply IH in H. rewrite H.
    apply next_cycle_evolves in H1 as (d & b & u & _ & _ & E & ->). simpl. lia.
Qed.

Lemma X1_cycles_advance_counter_witness :
  cycle lone_branch_two = cycle lone_branch_start + Z.of_nat 2.
Proof.
  apply (X1_cycles_advance_counter 2 lone_branch_start lone_branch_two).
  apply engine_of_Ok. vm_compute. exact I.
Defined.

(** X2 (decoded fields).  A run never changes what the decoder produced: the
    program keeps its length, and every record keeps its index, category,
    op, register numbers and immediate; only the four timestamps move. *)
Theorem X2_cycles_keep_decoded_fields (n : nat) (t t' : Tomasulo) :
  cycles n t = Ok t' →
  decoded_fields <$> program t' = decoded_fields <$> program t.
Proof.
  revert t. induction n as [|n IH]; intros t H.
  - simpl in H. by injection H as <-.
  - change (cycles (S n) t) with (t1 ← next_cycle t; cycles n t1) in H.
    apply Res_bind_Ok in H as (t1 & H1 & H).
    apply IH in H. rewrite H.
    apply next_cycle_evolves in H1 as (d & b & u & _ & _ & E & ->). simpl.
    by eapply evolves_decoded.
Qed.

Lemma X2_cycles_keep_decoded_fields_witness :
  decoded_fields <$> program lone_branch_two
  = decoded_fields <$> program lone_branch_start.
Proof.
  apply (X2_cycles_keep_decoded_fields 2 lone_branch_start lone_branch_two).
  apply engine_of_Ok. vm_compute. exact I.
Defined.

(** X3 (station bank).  A run never changes the layout of the station bank:
    the id-to-position dictionary stays as the constructor built it, and
    every slot keeps its station id and its two cycle counts. *)
Theorem X3_cycles_keep_bank_layout (n : nat) (t t' : Tomasulo) :
  cycles n t = Ok t' →
  station_id_to_index t' = station_id_to_index t
  ∧ bank_layout (reservation_stations t') = bank_layout (reservation_stations t).
Proof.
  revert t. induction n as [|n IH]; intros t H.
  - simpl in H. by injection H as <-.
  - change (cycles (S n) t) with (t1 ← next_cycle t; cycles n t1) in H.
    apply Res_bind_Ok in H as (t1 & H1 & H).
    apply IH in H as [-> ->].
    apply next_cycle_evolves in H1 as (d & b & u & _ & _ & E & ->). simpl.
    split; [apply (ev_dict _ _ _ _ E)|by eapply evolves_configuration].
Qed.

Lemma X3_cycles_keep_bank_layout_witness :
  station_id_to_index lone_branch_two = station_id_to_index lone_branch_start
  ∧ bank_layout (reservation_stations lone_branch_two)
    = bank_layout (reservation_stations lone_branch_start).
Proof.
  apply (X3_cycles_keep_bank_layout 2 lone_branch_start lone_branch_two).
  apply engine_of_Ok. vm_compute. exact I.
Defined.

(** X4 (statistics).  Over any [n] cycles the three counters only grow, the
    mispredictions by no more than the branches, the branches by no more
    than the retired instructions, and the retired instructions by no more
    than two per cycle (one STORE and one other instruction). *)
Theorem X4_cycles_bound_statistics (n : nat) (t t' : Tomasulo) :
  cycles n t = Ok t' →
  0 ≤ num_mispredictions t' - num_mispredictions t
  ∧ num_mispredictions t' - num_mispredictions t ≤ num_beq t' - num_beq t
  ∧ num_beq t' - num_beq t ≤ num_written_insts t' - num_written_insts t
  ∧ num_written_insts t' - num_written_insts t ≤ 2 * Z.of_nat n.
Proof.
  revert t. induction n as [|n IH]; intros t H.
  - simpl in H. injection H as <-. lia.
  - change (cycles (S n) t) with (t1 ← next_cycle t; cycles n t1) in H.
    apply Res_bind_Ok in H as (t1 & H1 & H).
    apply IH in H.
    apply next_cycle_evolves in H1 as (d & b & u & Hb & Hd & E & ->).
    destruct E as [_ _ _ _ _ _ _ _ Hw Hbeq Hm]. simpl in H. lia.
Qed.

Lemma X4_cycles_bound_statistics_witness :
  0 ≤ num_mispredictions lone_branch_two - num_mispredictions lone_branch_start
  ∧ num_mispredictions lone_branch_two - num_mispredictions lone_branch_start
    ≤ num_beq lone_branch_two - num_beq lone_branch_start
  ∧ num_beq lone_branch_two - num_beq lone_branch_start
    ≤ num_written_insts lone_branch_two - num_written_insts lone_branch_start
  ∧ num_written_insts lone_branch_two - num_written_insts lone_branch_start
    ≤ 2 * Z.of_nat 2.
Proof.
  apply (X4_cycles_bound_statistics 2 lone_branch_start lone_branch_two).
  apply engine_of_Ok. vm_compute. exact I.
Defined.

(** *** The engine as the constructor leaves it *)

Lemma parse_instruction_blank line idx x :
  parse_instruction line idx = Ok x →
  i_index x = idx ∧ timestamps x = (0, 0, 0, 0).
Proof.
  unfold parse_instruction. intros H.
  destruct line; simpl in H;
    repeat match type of H with
           | (if ?b then _ else _) = _ => destruct b; [|done]
           end;
    try done; by injection H as <-.
Qed.

Lemma read_lines_blank lines prog prog' :
  Forall (λ x, timestamps x = (0, 0, 0, 0)) prog →
  read_lines lines prog = Ok prog' →
  Forall (λ x, timestamps x = (0, 0, 0, 0)) prog'.
Proof.
  revert prog. induction lines as [|line lines IH]; intros prog Hp H; simpl in H.
  - by injection H as <-.
  - apply Res_bind_Ok in H as (x & Hx & H).
    eapply IH; [|exact H]. apply Forall_app. split; [done|].
    apply Forall_singleton. by destruct (parse_instruction_blank _ _ _ Hx).
Qed.

Lemma initialize_memory_fields memory_file t t' :
  initialize_memory memory_file t = Ok t' →
  length (memory t') = length (memory t)
  ∧ registers t' = registers t ∧ program t' = program t
  ∧ reservation_stations t' = reservation_stations t
  ∧ station_id_to_index t' = station_id_to_index t
  ∧ register_status t' = register_status t
  ∧ load_store_queue t' = load_store_queue t
  ∧ system_status_queue t' = system_status_queue t
  ∧ pc t' = pc t ∧ cycle t' = cycle t
  ∧ num_beq t' = num_beq t ∧ num_mispredictions t' = num_mispredictions t
  ∧ num_written_insts t' = num_written_insts t.
Proof.
  revert t. induction memory_file as [|[a v|] rest IH]; intros t H; simpl in H;
    try discriminate.
  - injection H as <-. split_and!; done.
  - apply Res_bind_Ok in H as (m & Hm & H).
    apply IH in H as (H1 & H2 & H3 & H4 & H5 & H6 & H7 & H8 & H9 & H10 & H11 & H12 & H13).
    simpl in *. apply py_set_length in Hm. split_and!; congruence.
Qed.

Lemma construct_fields instruction_file d hw memory_file pc0 t :
  construct instruction_file d hw memory_file pc0 = Ok t →
  length (memory t) = Z.to_nat 65536
  ∧ registers t = [0; 1; 2; 3; 4; 5; 6; 7]
  ∧ read_lines instruction_file [] = Ok (program t)
  ∧ register_status t = [0; 0; 0; 0; 0; 0; 0; 0]
  ∧ load_store_queue t = [] ∧ system_status_queue t = []
  ∧ pc t = pc0 ∧ cycle t = 1
  ∧ num_beq t = 0 ∧ num_mispredictions t = 0 ∧ num_written_insts t = 0.
Proof.
  intros H. unfold construct in H.
  apply Res_bind_Ok in H as (e & He & Hm).
  apply initialize_memory_fields in Hm
    as (H1 & H2 & H3 & H4 & H5 & H6 & H7 & H8 & H9 & H10 & H11 & H12 & H13).
  rewrite H1, H2, H3, H6, H7, H8, H9, H10, H11, H12, H13.
  unfold Tomasulo_init in He.
  apply Res_bind_Ok in He as (t1 & Hr & He).
  unfold _read_instructions in Hr.
  apply Res_bind_Ok in Hr as (prog & Hprog & Hr). injection Hr as <-.
  unfold _initialize_hardware in He.
  apply Res_bind_Ok in He as ([bank idx] & _ & He). injection He as <-.
  split; [exact (length_replicate (Z.to_nat 65536) 0)|].
  split_and!; try reflexivity. exact Hprog.
Qed.

(** X5 (register 0 and sizes).  In every state a run reaches from a freshly
    constructed engine, R0 still reads 0, the register file and the rename
    table have eight entries, and the memory has 65536 words: no stage writes
    register 0, and every write goes through an index inside the list. *)
Theorem X5_run_keeps_register_zero instruction_file is_default_hardware
    hardware_file memory_file initial_PC (n : nat) (t0 t : Tomasulo) :
  construct instruction_file is_default_hardware hardware_file memory_file
    initial_PC = Ok t0 →
  cycles n t0 = Ok t →
  registers t !! 0%nat = Some 0
  ∧ length (registers t) = 8%nat
  ∧ length (register_status t) = 8%nat
  ∧ length (memory t) = Z.to_nat 65536.
Proof.
  intros Hc Hn.
  apply construct_fields in Hc as (Hm & Hr & _ & Hs & _).
  assert (registers t !! 0%nat = registers t0 !! 0%nat
          ∧ length (registers t) = length (registers t0)
          ∧ length (register_status t) = length (register_status t0)
          ∧ length (memory t) = length (memory t0)) as (-> & -> & -> & ->).
  { clear Hm Hr Hs. revert t0 Hn. induction n as [|n IH]; intros t0 H.
    - simpl in H. by injection H as <-.
    - change (cycles (S n) t0) with (t1 ← next_cycle t0; cycles n t1) in H.
      apply Res_bind_Ok in H as (t1 & H1 & H).
      apply IH in H as (-> & -> & -> & ->).
      apply next_cycle_evolves in H1 as (d & b & u & _ & _ & E & ->). simpl.
      destruct E. done. }
  rewrite Hm, Hr, Hs. done.
Qed.

Lemma X5_run_keeps_register_zero_witness :
  registers lone_branch_two !! 0%nat = Some 0
  ∧ length (registers lone_branch_two) = 8%nat
  ∧ length (register_status lone_branch_two) = 8%nat
  ∧ length (memory lone_branch_two) = Z.to_nat 65536.
Proof.
  apply (X5_run_keeps_register_zero lone_branch true [] [] 0 2 lone_branch_start).
  - apply engine_of_Ok. vm_compute. exact I.
  - apply engine_of_Ok. vm_compute. exact I.
Defined.

(** X6 (timestamps).  In every state a run reaches from a freshly constructed
    engine, each of the four timestamps of every instruction is 0 (never
    stamped) or a cycle that has already been completed: it is never
    negative and lies below the current cycle counter. *)
Theorem X6_run_stamps_completed_cycles instruction_file is_default_hardware
    hardware_file memory_file initial_PC (n k : nat) (t0 t : Tomasulo)
    (x : Instruction) :
  construct instruction_file is_default_hardware hardware_file memory_file
    initial_PC = Ok t0 →
  cycles n t0 = Ok t →
  program t !! k = Some x →
  0 ≤ i_issue x < cycle t ∧ 0 ≤ i_exec_start x < cycle t
  ∧ 0 ≤ i_exec_end x < cycle t ∧ 0 ≤ i_write_back x < cycle t.
Proof.
  intros Hc Hn Hx.
  apply construct_fields in Hc as (_ & _ & Hp & _ & _ & _ & _ & Hcyc & _).
  apply read_lines_blank in Hp; [|by apply Forall_nil].
  assert (1 ≤ cycle t
          ∧ Forall (λ x, 0 ≤ i_issue x < cycle t ∧ 0 ≤ i_exec_start x < cycle t
                       ∧ 0 ≤ i_exec_end x < cycle t
                       ∧ 0 ≤ i_write_back x < cycle t) (program t)) as [_ Hall].
  { assert (1 ≤ cycle t0
            ∧ Forall (λ x, 0 ≤ i_issue x < cycle t0 ∧ 0 ≤ i_exec_start x < cycle t0
                         ∧ 0 ≤ i_exec_end x < cycle t0
                         ∧ 0 ≤ i_write_back x < cycle t0) (program t0)) as H0.
    { split; [lia|]. eapply Forall_impl; [exact Hp|].
      intros y Hy. unfold timestamps in Hy. injection Hy as -> -> -> ->. lia. }
    clear Hp Hcyc Hx. revert t0 Hn H0. induction n as [|n IH]; intros t0 H H0.
    - simpl in H. by injection H as <-.
    - change (cycles (S n) t0) with (t1 ← next_cycle t0; cycles n t1) in H.
      apply Res_bind_Ok in H as (t1 & H1 & H).
      apply (IH _ H).
      apply next_cycle_evolves in H1 as (d & b & u & _ & _ & E & ->). simpl.
      destruct H0 as [Hc0 Hall0]. split; [lia|].
      pose proof (ev_program _ _ _ _ E) as Hst.
      apply Forall_lookup. intros k' y Hy.
      destruct (Forall2_lookup_r _ _ _ _ _ Hst Hy) as (y0 & Hy0 & S0).
      rewrite Forall_lookup in Hall0. specialize (Hall0 _ _ Hy0).
      destruct S0 as (_ & [-> | ->] & [-> | ->] & [-> | ->] & [-> | ->]); lia. }
  rewrite Forall_lookup in Hall. by apply (Hall k).
Qed.

Lemma X6_run_stamps_completed_cycles_witness :
  0 ≤ i_issue (mkInstruction 0 BEQ None 1 2 2 0 0 1 2 0)
      < cycle lone_branch_two
  ∧ 0 ≤ i_exec_start (mkInstruction 0 BEQ None 1 2 2 0 0 1 2 0)
        < cycle lone_branch_two
  ∧ 0 ≤ i_exec_end (mkInstruction 0 BEQ None 1 2 2 0 0 1 2 0)
        < cycle lone_branch_two
  ∧ 0 ≤ i_write_back (mkInstruction 0 BEQ None 1 2 2 0 0 1 2 0)
        < cycle lone_branch_two.
Proof.
  apply (X6_run_stamps_completed_cycles lone_branch true [] [] 0 2 0
           lone_branch_start lone_branch_two).
  - apply engine_of_Ok. vm_compute. exact I.
  - apply engine_of_Ok. vm_compute. exact I.
  - vm_compute. reflexivity.
Defined.

(** ** The decoder and the constructor *)

(** X7 (decoded record).  A record that [parse_instruction] returns carries
    the index it was given and four zero timestamps; its immediate fits the
    range the ISA gives it (7 bits signed for a JUMP, 5 bits signed
    otherwise), and [op] is set exactly for the JUMP and ADDITION
    categories. *)
Theorem X7_parse_instruction_record (line : SourceLine) (idx : Z) (x : Instruction) :
  parse_instruction line idx = Ok x →
  i_index x = idx
  ∧ timestamps x = (0, 0, 0, 0)
  ∧ -64 ≤ i_imm x ≤ 63
  ∧ (i_category x ≠ JUMP → -16 ≤ i_imm x ≤ 15)
  ∧ (is_Some (i_op x) ↔ i_category x = JUMP ∨ i_category x = ADDITION).
Proof.
  unfold parse_instruction, imm5_ok, imm7_ok. intros H.
  destruct line; simpl in H;
    repeat match type of H with
           | (if negb (?a || ?b) then _ else _) = _ =>
               destruct a eqn:?; destruct b eqn:?; simpl in H; try done
           end;
    try done; injection H as <-; simpl;
    repeat match goal with
           | B : bool_decide _ = false |- _ => apply bool_decide_eq_false in B
           end;
    split_and!; try done; try lia;
    (split; [intros [o Ho]; try done; auto|intros [?|?]; try done; eauto]).
Qed.

Lemma X7_parse_instruction_record_witness :
  i_index (blank_instruction 3 JUMP (Some CALL) 1 0 0 5) = 3
  ∧ timestamps (blank_instruction 3 JUMP (Some CALL) 1 0 0 5) = (0, 0, 0, 0)
  ∧ -64 ≤ i_imm (blank_instruction 3 JUMP (Some CALL) 1 0 0 5) ≤ 63
  ∧ (i_category (blank_instruction 3 JUMP (Some CALL) 1 0 0 5) ≠ JUMP →
     -16 ≤ i_imm (blank_instruction 3 JUMP (Some CALL) 1 0 0 5) ≤ 15)
  ∧ (is_Some (i_op (blank_instruction 3 JUMP (Some CALL) 1 0 0 5))
     ↔ i_category (blank_instruction 3 JUMP (Some CALL) 1 0 0 5) = JUMP
       ∨ i_category (blank_instruction 3 JUMP (Some CALL) 1 0 0 5) = ADDITION).
Proof.
  apply (X7_parse_instruction_record (L_call 5) 3). reflexivity.
Defined.

Lemma read_lines_lookup lines prog prog' :
  read_lines lines prog = Ok prog' →
  length prog' = (length prog + length lines)%nat
  ∧ ∀ k, (k < length prog → prog' !! k = prog !! k)%nat
       ∧ ∀ line, lines !! k = Some line →
           ∃ x, prog' !! (length prog + k)%nat = Some x
              ∧ parse_instruction line (Z.of_nat (length prog + k)) = Ok x.
Proof.
  revert prog. induction lines as [|line lines IH]; intros prog H; simpl in H.
  - injection H as <-. split; [simpl; lia|]. intros k. split; [done|].
    intros line Hl. by rewrite lookup_nil in Hl.
  - apply Res_bind_Ok in H as (x & Hx & H).
    apply IH in H as [Hlen Hk]. rewrite length_app in Hlen. simpl in Hlen.
    assert (∀ k, (k < length prog + 1)%nat → prog' !! k = (prog ++ [x]) !! k)
      as Hlow.
    { intros k Hlt. destruct (Hk k) as [Hl _]. apply Hl.
      rewrite length_app. simpl. lia. }
    split; [simpl; lia|]. intros k. split.
    + intros Hlt. rewrite Hlow by lia. by apply lookup_app_l.
    + intros l Hl. destruct k as [|k]; simpl in Hl.
      * injection Hl as <-. exists x. rewrite Nat.add_0_r. split; [|done].
        rewrite Hlow by lia.
        rewrite lookup_app_r by lia. by rewrite Nat.sub_diag.
      * destruct (Hk k) as [_ Hn]. destruct (Hn l Hl) as (y & Hy & Hp).
        rewrite length_app in Hy, Hp. simpl in Hy, Hp.
        exists y. replace (length prog + S k)%nat with (length prog + 1 + k)%nat by lia.
        done.
Qed.

Lemma read_lines_raises lines prog k line e :
  lines !! k = Some line →
  parse_instruction line (Z.of_nat (length prog + k)) = Raise e →
  (∀ k' line', (k' < k)%nat → lines !! k' = Some line' →
     is_Ok (parse_instruction line' (Z.of_nat (length prog + k')))) →
  read_lines lines prog = Raise e.
Proof.
  revert prog k. induction lines as [|l lines IH]; intros prog k Hl Hbad Hgood;
    [done|].
  simpl. destruct k as [|k]; simpl in Hl.
  - injection Hl as ->. rewrite Nat.add_0_r in Hbad. by rewrite Hbad.
  - pose proof (Hgood 0%nat l ltac:(lia) eq_refl) as H0.
    rewrite Nat.add_0_r in H0.
    destruct (parse_instruction l (Z.of_nat (length prog))) as [x|e0]; [|done].
    simpl. apply (IH _ k); [done| |].
    + rewrite length_app. simpl.
      by replace (length prog + 1 + k)%nat with (length prog + S k)%nat by lia.
    + intros k' line' Hk' Hl'. rewrite length_app. simpl.
      replace (length prog + 1 + k')%nat with (length prog + S k')%nat by lia.
      apply Hgood; [lia|done].
Qed.

(** X8 (program file).  The program of a constructed engine has one record
    per line of the instruction file, in file order: record [k] is what
    [parse_instruction] returns for line [k] with index [k]. *)
Theorem X8_construct_program_lines instruction_file is_default_hardware
    hardware_file memory_file initial_PC (t : Tomasulo) (k : nat)
    (line : SourceLine) :
  construct instruction_file is_default_hardware hardware_file memory_file
    initial_PC = Ok t →
  instruction_file !! k = Some line →
  length (program t) = length instruction_file
  ∧ ∃ x, program t !! k = Some x
       ∧ parse_instruction line (Z.of_nat k) = Ok x
       ∧ i_index x = Z.of_nat k.
Proof.
  intros H Hl. apply construct_fields in H as (_ & _ & Hp & _).
  apply read_lines_lookup in Hp as [Hlen Hk]. simpl in *.
  split; [done|].
  destruct (Hk k) as [_ Hn]. destruct (Hn line Hl) as (x & Hx & Hparse).
  exists x. split_and!; try done.
  by destruct (parse_instruction_blank _ _ _ Hparse).
Qed.

Lemma X8_construct_program_lines_witness :
  length (program (engine_of (construct branch_then_add true [] [] 0)))
  = length branch_then_add
  ∧ ∃ x, program (engine_of (construct branch_then_add true [] [] 0)) !! 1%nat
         = Some x
       ∧ parse_instruction (L_addi 3 0 5) 1 = Ok x
       ∧ i_index x = 1.
Proof.
  apply (X8_construct_program_lines branch_then_add true [] [] 0
           (engine_of (construct branch_then_add true [] [] 0)) 1 (L_addi 3 0 5)).
  - apply engine_of_Ok. vm_compute. exact I.
  - reflexivity.
Defined.

(** X9 (rejected line).  The constructor stops at the first line of the
    instruction file on which the decoder builds no record, and with that
    line's exception: [exit(1)] when the line has an unknown mnemonic or an
    immediate out of range, but IndexError for a blank line, AttributeError
    for a line that does not match the pattern of its mnemonic and
    ValueError for a register field that is no number.  The lines after it
    and the hardware and memory files play no part. *)
Theorem X9_construct_stops_at_first_rejected_line instruction_file
    is_default_hardware hardware_file memory_file initial_PC (k : nat)
    (line : SourceLine) (e : PyExn) :
  instruction_file !! k = Some line →
  parse_instruction line (Z.of_nat k) = Raise e →
  (∀ k' line', (k' < k)%nat → instruction_file !! k' = Some line' →
     is_Ok (parse_instruction line' (Z.of_nat k'))) →
  construct instruction_file is_default_hardware hardware_file memory_file
    initial_PC = Raise e
  ∧ e = match line with
        | L_blank => IndexError
        | L_no_match => AttributeError
        | L_bad_field => ValueError
        | _ => SystemExit
        end.
Proof.
  intros Hl Hbad Hgood. split.
  - unfold construct, Tomasulo_init, _read_instructions.
    rewrite (read_lines_raises _ (program (blank_engine initial_PC)) k line e
               Hl Hbad Hgood).
    done.
  - unfold parse_instruction in Hbad.
    destruct line; simpl in Hbad;
      repeat match type of Hbad with
             | (if ?b then _ else _) = _ => destruct b
             end; congruence.
Qed.

Lemma X9_construct_stops_at_first_rejected_line_witness :
  construct [L_addi 1 0 1; L_addi 2 0 99; L_blank] true [] [] 0 = Raise SystemExit
  ∧ SystemExit = SystemExit.
Proof.
  apply (X9_construct_stops_at_first_rejected_line
           [L_addi 1 0 1; L_addi 2 0 99; L_blank] true [] [] 0 1 (L_addi 2 0 99)).
  - reflexivity.
  - reflexivity.
  - intros k' line' Hk Hl. destruct k' as [|k']; [|lia].
    injection Hl as <-. exact I.
Defined.

(** The same file with the blank line first: the constructor raises
    IndexError and the immediate 99 is never looked at. *)
Example blank_line_before_invalid_immediate :
  construct [L_blank; L_addi 1 0 1; L_addi 2 0 99] true [] [] 0 = Raise IndexError.
Proof. reflexivity. Qed.

(** *** The station bank and its dictionary *)

Lemma add_stations_indexed bank cfe cfa n row idx next row' idx' next' :
  bank_indexed (bank ++ [row]) idx next →
  add_stations (length bank) cfe cfa (seq (length row) n) next row idx
  = (row', idx', next') →
  bank_indexed (bank ++ [row']) idx' next'.
Proof.
  revert row idx next. induction n as [|n IH]; intros row idx next Hb H; simpl in H.
  - by injection H as <- <- <-.
  - eapply (IH (row ++ [new_station next cfe cfa])
                (<[next := (length bank, length row)]> idx) (next + 1)); [|].
    + destruct Hb as (Hnext & Hfwd & Hbwd & Hall). split_and!; [lia|..].
      * intros i j s Hs. rewrite bank_at_app_row in Hs.
        specialize (Hfwd i j s). rewrite bank_at_app_row in Hfwd.
        case_decide as Hi.
        -- destruct (decide (j < length row)%nat) as [Hj|Hj].
           ++ rewrite lookup_app_l in Hs by done.
              destruct (Hfwd Hs) as (? & ? & ?).
              rewrite lookup_insert_ne by lia. split_and!; [done|lia|lia|done].
           ++ rewrite lookup_app_r in Hs by lia.
              destruct (j - length row)%nat as [|m] eqn:Hm; simpl in Hs; [|done].
              injection Hs as <-. simpl.
              rewrite lookup_insert_eq. assert (j = length row) as -> by lia.
              subst i. split_and!; [done|lia|lia|done].
        -- destruct (Hfwd Hs) as (? & ? & ?).
           rewrite lookup_insert_ne by lia. split_and!; [done|lia|lia|done].
      * intros id i j Hid. rewrite bank_at_app_row.
        destruct (decide (id = next)) as [->|Hne].
        -- rewrite lookup_insert_eq in Hid. injection Hid as <- <-.
           rewrite decide_True by done. exists (new_station next cfe cfa).
           split; [|done]. rewrite lookup_app_r by lia.
           by rewrite Nat.sub_diag.
        -- rewrite lookup_insert_ne in Hid by done.
           destruct (Hbwd _ _ _ Hid) as (s & Hs & Hsid).
           rewrite bank_at_app_row in Hs. exists s. split; [|done].
           case_decide; [|done]. apply lookup_app_l_Some. done.
      * intros id Hid. destruct (decide (id = next)) as [->|Hne].
        -- rewrite lookup_insert_eq. eauto.
        -- rewrite lookup_insert_ne by done. apply Hall. lia.
    + rewrite length_app. simpl. rewrite Nat.add_1_r. exact H.
Qed.

Lemma init_rows_indexed d lines bank idx next bank' idx' :
  bank_indexed bank idx next →
  init_rows d (length bank) lines next bank idx = Ok (bank', idx') →
  ∃ next', bank_indexed bank' idx' next'
         ∧ length bank' = (length bank + length lines)%nat.
Proof.
  revert bank idx next. induction lines as [|line lines IH];
    intros bank idx next Hb H; simpl in H.
  - injection H as <- <-. exists next. split; [done|simpl; lia].
  - apply Res_bind_Ok in H as ([[num cfe] cfa] & _ & H).
    apply Res_bind_Ok in H as ([[row idx1] next1] & Hadd%add_stations_run & H).
    destruct (IH (bank ++ [row]) idx1 next1) as (next' & Hb' & Hlen).
    + eapply (add_stations_indexed bank cfe cfa (Z.to_nat num) []); [|exact Hadd].
      destruct Hb as (Hnext & Hfwd & Hbwd & Hall). split_and!; [done|..].
      * intros i j s Hs. rewrite bank_at_app_row in Hs.
        case_decide; [done|]. by apply Hfwd.
      * intros id i j Hid. destruct (Hbwd _ _ _ Hid) as (s & Hs & Hsid).
        exists s. split; [|done]. rewrite bank_at_app_row.
        case_decide as Hi; [|done]. subst i. unfold bank_at in Hs.
        rewrite lookup_ge_None_2 in Hs; [done|lia].
      * done.
    + rewrite length_app. simpl. rewrite Nat.add_1_r. exact H.
    + exists next'. split; [done|]. rewrite length_app in Hlen. simpl in *. lia.
Qed.

Lemma construct_bank instruction_file d hw memory_file pc0 t :
  construct instruction_file d hw memory_file pc0 = Ok t →
  ∃ next, bank_indexed (reservation_stations t) (station_id_to_index t) next
        ∧ length (reservation_stations t)
          = length (if d then default_hardware else hw).
Proof.
  intros H. unfold construct in H.
  apply Res_bind_Ok in H as (e & He & Hm).
  apply initialize_memory_fields in Hm as (_ & _ & _ & -> & -> & _).
  unfold Tomasulo_init in He.
  apply Res_bind_Ok in He as (t1 & _ & He).
  unfold _initialize_hardware in He.
  apply Res_bind_Ok in He as ([bank idx] & Hrows & He). injection He as <-.
  apply (init_rows_indexed d _ [] ∅ 1) in Hrows as (next & Hb & Hlen).
  - exists next. done.
  - split_and!; [lia|done| |intros id ?; lia].
    intros id i j Hid. by rewrite lookup_empty in Hid.
Qed.

Lemma add_named_stations_row i cfe cfa js next row idx r :
  add_named_stations i cfe cfa js next row idx = Ok r →
  js ≠ [] → (i < NUM_RES_STATIONS_Types)%nat.
Proof.
  destruct js as [|j js]; [done|]. intros H _. simpl in H.
  apply Res_bind_Ok in H as (name & Hname & _).
  apply py_get_nonneg in Hname; [|lia]. rewrite Nat2Z.id in Hname.
  apply lookup_lt_Some in Hname. exact Hname.
Qed.

Lemma add_stations_length i cfe cfa js next row idx :
  length (add_stations i cfe cfa js next row idx).1.1 = (length row + length js)%nat.
Proof.
  revert next row idx. induction js as [|j js IH]; intros next row idx; simpl.
  - lia.
  - rewrite IH, length_app. simpl. lia.
Qed.

Lemma init_rows_rows lines bank idx next bank' idx' :
  (∀ i j s, bank_at bank i j = Some s → (i < NUM_RES_STATIONS_Types)%nat) →
  init_rows false (length bank) lines next bank idx = Ok (bank', idx') →
  ∀ i j s, bank_at bank' i j = Some s → (i < NUM_RES_STATIONS_Types)%nat.
Proof.
  revert bank idx next. induction lines as [|line lines IH];
    intros bank idx next Hb H; simpl in H.
  - by injection H as <- <-.
  - apply Res_bind_Ok in H as ([[num cfe] cfa] & _ & H).
    apply Res_bind_Ok in H as ([[row idx1] next1] & Hadd & H).
    apply (IH (bank ++ [row]) idx1 next1).
    + intros i j s Hs. rewrite bank_at_app_row in Hs.
      case_decide as Hi; [|by eapply Hb]. subst i.
      apply (add_named_stations_row _ _ _ _ _ _ _ _ Hadd).
      intros Hnil. apply add_named_stations_Ok in Hadd.
      pose proof (add_stations_length (length bank) cfe cfa (seq 0 (Z.to_nat num))
                    next [] idx) as Hlen.
      rewrite Hadd, Hnil in Hlen. simpl in Hlen.
      apply lookup_lt_Some in Hs. lia.
    + rewrite length_app. simpl. rewrite Nat.add_1_r. exact H.
Qed.

Lemma construct_rows instruction_file d hw memory_file pc0 t i j s :
  construct instruction_file d hw memory_file pc0 = Ok t →
  station_at t i j = Some s → (i < NUM_RES_STATIONS_Types)%nat.
Proof.
  intros H Hs. destruct d.
  - apply construct_bank in H as (_ & _ & Hlen).
    unfold station_at, bank_at in Hs.
    destruct (reservation_stations t !! i) as [row|] eqn:Hrow; [|done].
    apply lookup_lt_Some in Hrow. rewrite Hlen in Hrow. exact Hrow.
  - unfold construct in H.
    apply Res_bind_Ok in H as (e & He & Hm).
    apply initialize_memory_fields in Hm as (_ & _ & _ & Hbank & _).
    unfold station_at in Hs. rewrite Hbank in Hs.
    unfold Tomasulo_init in He.
    apply Res_bind_Ok in He as (t1 & _ & He).
    unfold _initialize_hardware in He.
    apply Res_bind_Ok in He as ([bank idx] & Hrows & He). injection He as <-.
    apply (init_rows_rows _ [] ∅ 1 _ _ ltac:(done) Hrows i j s). exact Hs.
Qed.

(** X10 (station dictionary).  In a constructed engine the dictionary
    [station_id_to_index] and the bank are inverse to each other.  Every
    station of the bank is free, sits in one of the seven rows, has an id of
    at least 1 (0 stays free for "no producer") and is found at its own slot
    through the dictionary, so ids are unique.  Every entry of the
    dictionary leads to the station that carries that id; and the keys are
    exactly the ids [1 .. next - 1] handed out in order. *)
Theorem X10_construct_station_dictionary instruction_file is_default_hardware
    hardware_file memory_file initial_PC (t : Tomasulo) :
  construct instruction_file is_default_hardware hardware_file memory_file
    initial_PC = Ok t →
  (∀ i j s, station_at t i j = Some s →
     station_position t (s_id s) = Ok (i, j) ∧ 1 ≤ s_id s ∧ busy s = false
     ∧ (i < NUM_RES_STATIONS_Types)%nat)
  ∧ (∀ id i j, station_position t id = Ok (i, j) →
       ∃ s, station_at t i j = Some s ∧ s_id s = id)
  ∧ ∃ next, ∀ id, is_Ok (station_position t id) ↔ 1 ≤ id < next.
Proof.
  intros H.
  pose proof (construct_bank _ _ _ _ _ _ H) as (next & (Hnext & Hfwd & Hbwd & Hall) & _).
  split_and!.
  - intros i j s Hs. destruct (Hfwd i j s Hs) as (Hd & Hid & Hb).
    unfold station_position. rewrite Hd. split_and!; [done|lia|done|].
    by eapply construct_rows.
  - intros id i j Hpos. unfold station_position in Hpos.
    destruct (station_id_to_index t !! id) as [p|] eqn:Hd; [|done].
    injection Hpos as ->. exact (Hbwd _ _ _ Hd).
  - exists next. intros id. unfold station_position. split.
    + destruct (station_id_to_index t !! id) as [[i j]|] eqn:Hd; [|done].
      intros _. destruct (Hbwd _ _ _ Hd) as (s & Hs & <-).
      by destruct (Hfwd _ _ _ Hs) as (_ & ? & _).
    + intros Hid. destruct (Hall id Hid) as [p ->]. exact I.
Qed.

Lemma X10_construct_station_dictionary_witness :
  (∀ i j s, station_at lone_branch_start i j = Some s →
     station_position lone_branch_start (s_id s) = Ok (i, j)
     ∧ 1 ≤ s_id s ∧ busy s = false ∧ (i < NUM_RES_STATIONS_Types)%nat)
  ∧ (∀ id i j, station_position lone_branch_start id = Ok (i, j) →
       ∃ s, station_at lone_branch_start i j = Some s ∧ s_id s = id)
  ∧ ∃ next, ∀ id, is_Ok (station_position lone_branch_start id) ↔ 1 ≤ id < next.
Proof.
  apply (X10_construct_station_dictionary lone_branch true [] [] 0).
  apply engine_of_Ok. vm_compute. exact I.
Defined.

(** An eighth line of a hardware file has no entry in [station_types]: the
    constructor raises IndexError when the line asks for a station, and
    builds an empty eighth row when it asks for none. *)
Example eighth_hardware_line_with_station :
  construct [] false [[1;1];[1;1];[1;1];[1;1];[1;1];[1;1];[1;1];[1;1]] [] 0
  = Raise IndexError.
Proof. reflexivity. Qed.

Example eighth_hardware_line_without_station :
  is_Ok (construct [] false [[1;1];[1;1];[1;1];[1;1];[1;1];[1;1];[1;1];[0;1]] [] 0).
Proof. vm_compute. exact I. Qed.

(** *** The memory image *)

Lemma py_set_Ok {A} (l l' : list A) i x :
  py_set l i x = Ok l' →
  ∃ k, py_index (length l) i = Ok k ∧ (k < length l)%nat ∧ l' = <[k := x]> l.
Proof.
  unfold py_set. destruct (py_index (length l) i) as [k|] eqn:E; simpl; [|done].
  intros [= <-]. exists k. split_and!; try done. by eapply py_index_lt.
Qed.

Lemma py_set_raises {A} (l : list A) i x e :
  py_set l i x = Raise e → e = IndexError.
Proof.
  unfold py_set, py_index. repeat case_bool_decide; simpl; congruence.
Qed.

Lemma initialize_memory_untouched memory_file t t' (k : nat) :
  initialize_memory memory_file t = Ok t' →
  (∀ l, l ∈ memory_file → line_cell (length (memory t)) l ≠ Some k) →
  memory t' !! k = memory t !! k.
Proof.
  revert t. induction memory_file as [|[a v|] rest IH]; intros t H Hno; simpl in H;
    try discriminate.
  - by injection H as <-.
  - apply Res_bind_Ok in H as (m & Hm & H).
    apply py_set_Ok in Hm as (ka & Hka & _ & ->).
    rewrite (IH _ H); simpl.
    + apply list_lookup_insert_ne. intros ->.
      apply (Hno (M_word a v)); [by left|]. simpl. by rewrite Hka.
    + intros l Hin. rewrite length_insert. apply (Hno l). by right.
Qed.

(** X11 (memory image).  After [initialize_memory] a memory cell holds the
    value of the last line of the file that addresses it (a negative
    address counts from the end of the memory, as Python indexes), and a
    cell that no line addresses keeps its value. *)
Theorem X11_initialize_memory_image memory_file (t t' : Tomasulo)
    (before : list MemoryLine) (a v : Z) (after : list MemoryLine) (k k' : nat) :
  initialize_memory memory_file t = Ok t' →
  memory_file = before ++ M_word a v :: after →
  py_index (length (memory t)) a = Ok k →
  Forall (λ l, line_cell (length (memory t)) l ≠ Some k) after →
  Forall (λ l, line_cell (length (memory t)) l ≠ Some k') memory_file →
  memory t' !! k = Some v ∧ memory t' !! k' = memory t !! k'.
Proof.
  intros H Hfile Hk Hafter Hnone.
  rewrite Forall_forall in Hafter. rewrite Forall_forall in Hnone.
  split; [|by apply (initialize_memory_untouched memory_file)].
  clear Hnone. revert Hfile Hk Hafter. revert memory_file t H a v after k.
  induction before as [|[a0 v0|] before IH];
    intros memory_file t H a v after k -> Hk Hno; simpl in H; try discriminate.
  - apply Res_bind_Ok in H as (m & Hm & H).
    apply py_set_Ok in Hm as (ka & Hka & Hlt & ->).
    rewrite Hk in Hka. injection Hka as <-.
    rewrite (initialize_memory_untouched _ _ _ k H); simpl.
    + by apply list_lookup_insert_eq.
    + intros l Hin. rewrite length_insert. by apply Hno.
  - apply Res_bind_Ok in H as (m & Hm & H).
    apply py_set_Ok in Hm as (ka & Hka & Hlt & ->).
    eapply (IH _ _ H a v after k); [done|..]; simpl; rewrite length_insert; done.
Qed.

Lemma X11_initialize_memory_image_witness :
  memory (engine_of (initialize_memory [M_word 1 4; M_word (-3) 7; M_word 0 2]
                       (set_memory [0; 0; 0; 0] resolving_engine))) !! 1%nat
  = Some 7
  ∧ memory (engine_of (initialize_memory [M_word 1 4; M_word (-3) 7; M_word 0 2]
                         (set_memory [0; 0; 0; 0] resolving_engine))) !! 2%nat
    = memory (set_memory [0; 0; 0; 0] resolving_engine) !! 2%nat.
Proof.
  apply (X11_initialize_memory_image [M_word 1 4; M_word (-3) 7; M_word 0 2]
           (set_memory [0; 0; 0; 0] resolving_engine) _ [M_word 1 4] (-3) 7
           [M_word 0 2] 1 2).
  - apply engine_of_Ok. vm_compute. exact I.
  - reflexivity.
  - reflexivity.
  - repeat constructor; vm_compute; discriminate.
  - repeat constructor; vm_compute; discriminate.
Defined.

(** X12 (first bad line of the memory file).  [initialize_memory] stops at
    the first line that is malformed or whose address is outside [-len, len)
    for a memory of [len] words: with ValueError for a malformed line and
    with IndexError for an address out of range.  Whatever follows that line
    is not read. *)
Theorem X12_initialize_memory_first_bad_line memory_file (t : Tomasulo)
    (before : list MemoryLine) (line : MemoryLine) (after : list MemoryLine) :
  memory_file = before ++ line :: after →
  Forall (λ l, is_Some (line_cell (length (memory t)) l)) before →
  line_cell (length (memory t)) line = None →
  initialize_memory memory_file t
  = Raise (match line with
           | M_word _ _ => IndexError
           | M_malformed => ValueError
           end).
Proof.
  intros -> Hbefore Hline. revert t Hbefore Hline.
  induction before as [|[a0 v0|] before IH]; intros t Hbefore Hline; simpl.
  - destruct line as [a v|]; [|done]. simpl in Hline.
    unfold py_set. destruct (py_index (length (memory t)) a) as [k|e] eqn:Hk;
      [done|]. simpl. f_equal.
    unfold py_index in Hk. repeat case_bool_decide; congruence.
  - apply Forall_cons in Hbefore as [[k Hk] Hbefore]. simpl in Hk.
    unfold py_set. destruct (py_index (length (memory t)) a0) as [k0|] eqn:Hk0;
      [|done]. simpl.
    apply IH; simpl; rewrite length_insert; done.
  - apply Forall_cons in Hbefore as [[k Hk] _]. done.
Qed.

Lemma X12_initialize_memory_first_bad_line_witness :
  initialize_memory [M_word 0 1; M_word 65536 2; M_malformed] resolving_engine
  = Raise IndexError.
Proof.
  apply (X12_initialize_memory_first_bad_line _ resolving_engine
           [M_word 0 1] (M_word 65536 2) [M_malformed]).
  - reflexivity.
  - repeat constructor.
    rewrite (length_replicate (Z.to_nat 65536) 0 : length (memory resolving_engine) = _).
    vm_compute. eauto.
  - rewrite (length_replicate (Z.to_nat 65536) 0 : length (memory resolving_engine) = _).
    reflexivity.
Defined.

(** The same lines with the malformed one first: the loader raises
    ValueError and the address 65536 is never used. *)
Example malformed_line_before_bad_address :
  initialize_memory [M_malformed; M_word 0 1; M_word 65536 2] resolving_engine
  = Raise ValueError.
Proof. reflexivity. Qed.

(** ** Single stages *)

(** X13 (results of MUL, NOR and BEQ).  A MUL result is always a 16-bit
    word, also for negative operands; a NOR result is not masked: it is
    [-1 - (vj | vk)], negative whenever both operands are not; a BEQ result
    is 1 when the operands are equal and 0 otherwise; LOAD and STORE
    stations are left as they are. *)
Theorem X13_exec_result_values (s : ReservationStation) :
  0 ≤ result (exec_result MUL s) ≤ 65535
  ∧ result (exec_result NOR s) = -1 - Z.lor (vj s) (vk s)
  ∧ (vj s < 0 ∨ vk s < 0 ∨ result (exec_result NOR s) < 0)
  ∧ (result (exec_result BEQ s) = 1 ↔ vj s = vk s)
  ∧ (result (exec_result BEQ s) = 0 ↔ vj s ≠ vk s)
  ∧ exec_result LOAD s = s ∧ exec_result STORE s = s.
Proof.
  simpl. split_and!; try done.
  - change 65535 with (Z.ones 16). rewrite Z.land_ones by lia.
    pose proof (Z.mod_pos_bound (vj s * vk s) (2 ^ 16)). lia.
  - change 65535 with (Z.ones 16). rewrite Z.land_ones by lia.
    pose proof (Z.mod_pos_bound (vj s * vk s) (2 ^ 16)).
    change (Z.ones 16) with (2 ^ 16 - 1). lia.
  - unfold Z.lnot. lia.
  - destruct (decide (vj s < 0)) as [|Hj]; [by left|].
    destruct (decide (vk s < 0)) as [|Hk]; [by right; left|].
    right; right. unfold Z.lnot.
    assert (0 ≤ Z.lor (vj s) (vk s)) by (apply Z.lor_nonneg; lia). lia.
  - case_bool_decide; simpl; split; try done; lia.
  - case_bool_decide; simpl; split; try done; lia.
Qed.

(** X14 (PC below the program).  A PC below [-len(program)] is still passed
    to [issue], which reads [program[pc]]: the cycle raises [IndexError]
    before any station is touched. *)
Theorem X14_next_cycle_pc_below_program (t : Tomasulo) :
  pc t < - Z.of_nat (length (program t)) →
  next_cycle t = Raise IndexError.
Proof.
  intros Hpc. unfold next_cycle.
  rewrite bool_decide_eq_true_2 by lia.
  unfold issue, py_get. rewrite py_index_out by (left; done). done.
Qed.

Lemma X14_next_cycle_pc_below_program_witness :
  next_cycle (blank_engine (-1)) = Raise IndexError.
Proof.
  apply (X14_next_cycle_pc_below_program (blank_engine (-1))). simpl. lia.
Defined.

(** *** Issue *)

Lemma find_free_spec row j0 :
  match find_free row j0 with
  | Some j =>
      ∃ k s, j = (j0 + k)%nat ∧ row !! k = Some s ∧ busy s = false
           ∧ ∀ k' s', (k' < k)%nat → row !! k' = Some s' → busy s' = true
  | None => Forall (λ s, busy s = true) row
  end.
Proof.
  revert j0. induction row as [|s row IH]; intros j0; simpl; [done|].
  destruct (busy s) eqn:Hb.
  - specialize (IH (S j0)). destruct (find_free row (S j0)) as [j|].
    + destruct IH as (k & s0 & -> & Hk & Hfree & Hbefore).
      exists (S k), s0. split_and!; [lia|done|done|].
      intros [|k'] s' Hlt Hs'; simpl in Hs'; [congruence|].
      apply (Hbefore k'); [lia|done].
    + by constructor.
  - exists 0%nat, s. split_and!; [lia|done|done|]. intros k' s' Hlt. lia.
Qed.

(** X15 (issue).  [issue] either finds every station of the instruction's
    category busy and then changes nothing (the PC stays, the instruction
    is tried again next cycle), or it claims the first free station of that
    row, in slot order: the station becomes busy for the instruction at the
    PC with full cycle counts and the instruction's immediate and op, the
    instruction is stamped with the current cycle, and the PC moves on by
    one. *)
Theorem X15_issue_claims_first_free (t t' : Tomasulo) (x : Instruction)
    (row : list ReservationStation) :
  py_get (program t) (pc t) = Ok x →
  get_row t (category_value (i_category x)) = Ok row →
  issue t = Ok t' →
  (Forall (λ s, busy s = true) row ∧ t' = t)
  ∨ ∃ j s s' x',
      row !! j = Some s ∧ busy s = false
      ∧ (∀ j' s0, (j' < j)%nat → row !! j' = Some s0 → busy s0 = true)
      ∧ pc t' = pc t + 1
      ∧ py_get (program t') (pc t) = Ok x' ∧ i_issue x' = cycle t
      ∧ station_at t' (category_value (i_category x)) j = Some s'
      ∧ busy s' = true ∧ inst_index s' = pc t ∧ s_id s' = s_id s
      ∧ rem_cycles_exec s' = cycles_for_exec s
      ∧ rem_cycles_addr s' = cycles_for_addr s
      ∧ s_a s' = i_imm x ∧ s_op s' = i_op x.
Proof.
  intros Hx Hrow H. unfold issue in H.
  apply Res_bind_Ok in H as (x0 & Hx0 & H). rewrite Hx in Hx0. injection Hx0 as <-.
  apply Res_bind_Ok in H as (r0 & Hr0 & H). rewrite Hrow in Hr0. injection Hr0 as <-.
  pose proof (find_free_spec row 0) as Hfree.
  destruct (find_free row 0) as [j|]; [|left; split; [done|congruence]].
  right. destruct Hfree as (k & s & -> & Hk & Hb & Hbefore). simpl in H.
  apply issue_into_shape in H
    as (s0 & x0 & n & v1 & v2 & q1 & q2 & Hs & Hn & Hx0 & _ & _ & Hprog & Hbank
        & Hpc & _).
  assert (station_at t (category_value (i_category x)) k = Some s) as Hs'.
  { unfold station_at, bank_at. unfold get_row in Hrow.
    destruct (reservation_stations t !! category_value (i_category x)); [|done].
    injection Hrow as ->. done. }
  rewrite Hs' in Hs. injection Hs as <-.
  apply py_get_at in Hx as (n' & Hn' & Hx). rewrite Hn in Hn'. injection Hn' as <-.
  rewrite Hx in Hx0. injection Hx0 as <-.
  exists k, s, (issued_station s x (pc t) v1 v2 q1 q2), (set_i_issue (cycle t) x).
  split_and!; try done.
  - apply py_get_at. exists n. rewrite Hprog, length_insert. split; [done|].
    apply list_lookup_insert_eq. by eapply lookup_lt_Some.
  - unfold station_at. rewrite Hbank. apply bank_at_alter_same.
    unfold station_at in Hs'. by rewrite Hs'.
Qed.

Lemma X15_issue_claims_first_free_witness :
  (Forall (λ s, busy s = true) [new_station 5 1 0; new_station 6 1 0]
   ∧ engine_of (issue lone_branch_start) = lone_branch_start)
  ∨ ∃ j s s' x',
      [new_station 5 1 0; new_station 6 1 0] !! j = Some s ∧ busy s = false
      ∧ (∀ j' s0, (j' < j)%nat →
           [new_station 5 1 0; new_station 6 1 0] !! j' = Some s0 →
           busy s0 = true)
      ∧ pc (engine_of (issue lone_branch_start)) = pc lone_branch_start + 1
      ∧ py_get (program (engine_of (issue lone_branch_start)))
          (pc lone_branch_start) = Ok x'
      ∧ i_issue x' = cycle lone_branch_start
      ∧ station_at (engine_of (issue lone_branch_start))
          (category_value (i_category (blank_instruction 0 BEQ None 0 1 2 0))) j
        = Some s'
      ∧ busy s' = true ∧ inst_index s' = pc lone_branch_start ∧ s_id s' = s_id s
      ∧ rem_cycles_exec s' = cycles_for_exec s
      ∧ rem_cycles_addr s' = cycles_for_addr s
      ∧ s_a s' = i_imm (blank_instruction 0 BEQ None 0 1 2 0)
      ∧ s_op s' = i_op (blank_instruction 0 BEQ None 0 1 2 0).
Proof.
  apply (X15_issue_claims_first_free lone_branch_start).
  - vm_compute. reflexivity.
  - vm_compute. reflexivity.
  - apply engine_of_Ok. vm_compute. exact I.
Defined.

Lemma rename_in_last_youngest q rd id q' :
  rename_in_last q rd id = Ok q' →
  ∃ older top table,
    q = older ++ [top]
    ∧ py_set (ss_register_status top) rd id = Ok table
    ∧ q' = older ++ [mkSystemStatus (ss_issue top) table].
Proof.
  revert q'. induction q as [|ss q IH]; intros q' H; simpl in H; [done|].
  destruct q as [|ss' q].
  - apply Res_bind_Ok in H as (l & Hl & H). injection H as <-.
    by exists [], ss, l.
  - apply Res_bind_Ok in H as (r & Hr & H). injection H as <-.
    destruct (IH _ Hr) as (older & top & table & Hq & Hset & ->).
    exists (ss :: older), top, table. rewrite Hq. done.
Qed.

Lemma rename_destination_youngest rd id t t' :
  system_status_queue t ≠ [] →
  rename_destination rd id t = Ok t' →
  register_status t' = register_status t ∧ registers t' = registers t
  ∧ cycle t' = cycle t
  ∧ ∃ older top table,
      system_status_queue t = older ++ [top]
      ∧ (if bool_decide (rd ≠ 0)
         then py_set (ss_register_status top) rd id = Ok table
         else table = ss_register_status top)
      ∧ system_status_queue t' = older ++ [mkSystemStatus (ss_issue top) table].
Proof.
  intros Hq H. unfold rename_destination in H.
  destruct (bool_decide (rd ≠ 0)) eqn:Hrd.
  - destruct (system_status_queue t) as [|ss q] eqn:Eq; [done|].
    apply Res_bind_Ok in H as (q' & Hq' & H). injection H as <-. simpl.
    split_and!; try done.
    destruct (rename_in_last_youngest _ _ _ _ Hq')
      as (older & top & table & -> & Hset & ->).
    by exists older, top, table.
  - injection H as <-. split_and!; try done.
    destruct (exists_last Hq) as (older & top & Hq0).
    exists older, top, (ss_register_status top). rewrite Hq0.
    split_and!; try done. by destruct top.
Qed.

(** X16 (renaming under speculation).  While the snapshot queue is not
    empty, [issue] leaves the live rename table and the registers as they
    are and does not touch the older snapshots.  A destination other than R0
    is renamed in the youngest snapshot; a BEQ or a JUMP then pushes a
    snapshot of its own, stamped with the current cycle, that copies the
    table of that youngest snapshot, rename included (so the rename of a
    CALL behind a BEQ stands in both). *)
Theorem X16_issue_under_speculation (i j : nat) (t t' : Tomasulo)
    (s : ReservationStation) (x : Instruction) :
  station_at t i j = Some s →
  py_get (program t) (pc t) = Ok x →
  system_status_queue t ≠ [] →
  issue_into i j t = Ok t' →
  register_status t' = register_status t
  ∧ registers t' = registers t
  ∧ ∃ older top table,
      system_status_queue t = older ++ [top]
      ∧ (if bool_decide (i_rd x ≠ 0)
         then py_set (ss_register_status top) (i_rd x) (s_id s) = Ok table
         else table = ss_register_status top)
      ∧ system_status_queue t'
        = older ++ mkSystemStatus (ss_issue top) table
            :: (if is_control (i_category x)
                then [mkSystemStatus (cycle t) table] else []).
Proof.
  intros Hs Hx Hq H. unfold issue_into in H.
  apply Res_bind_Ok in H as (s0 & Hs0%get_station_at & H).
  rewrite Hs in Hs0. injection Hs0 as <-.
  apply Res_bind_Ok in H as (x0 & Hx0 & H). rewrite Hx in Hx0. injection Hx0 as <-.
  apply Res_bind_Ok in H as (t1 & H1 & H).
  apply upd_instruction_at in H1 as (k & x1 & _ & _ & ->).
  apply Res_bind_Ok in H as (s2 & (q1 & v1 & _ & ->)%read_first_operand_shape & H).
  apply Res_bind_Ok in H as (s3 & (q2 & v2 & _ & ->)%read_second_operand_shape & H).
  apply Res_bind_Ok in H as (t3 & H3 & H). injection H as <-.
  apply rename_destination_youngest in H3
    as (Hst & Hreg & Hcyc & older & top & table & Hold & Htab & Hnew);
    [|exact Hq].
  simpl in Hst, Hreg, Hcyc, Hold, Htab.
  unfold is_control.
  destruct (bool_decide (i_category x = BEQ ∨ i_category x = JUMP));
    destruct (bool_decide (i_category x = LOAD ∨ i_category x = STORE)); simpl;
    unfold push_snapshot; simpl; rewrite ?Hnew, ?last_snoc; simpl;
    (split_and!; [done|done|]); exists older, top, table;
    rewrite ?Hcyc, <- ?app_assoc; simpl; done.
Qed.

Lemma X16_issue_under_speculation_witness :
  register_status (engine_of (issue_into 3 0 branch_call_one))
  = register_status branch_call_one
  ∧ registers (engine_of (issue_into 3 0 branch_call_one))
    = registers branch_call_one
  ∧ ∃ older top table,
      system_status_queue branch_call_one = older ++ [top]
      ∧ (if bool_decide (i_rd (blank_instruction 1 JUMP (Some CALL) 1 0 0 5) ≠ 0)
         then py_set (ss_register_status top)
                (i_rd (blank_instruction 1 JUMP (Some CALL) 1 0 0 5))
                (s_id (new_station 7 0 0)) = Ok table
         else table = ss_register_status top)
      ∧ system_status_queue (engine_of (issue_into 3 0 branch_call_one))
        = older ++ mkSystemStatus (ss_issue top) table
            :: (if is_control (i_category (blank_instruction 1 JUMP (Some CALL) 1 0 0 5))
                then [mkSystemStatus (cycle branch_call_one) table] else []).
Proof.
  apply (X16_issue_under_speculation 3 0 branch_call_one).
  - vm_compute. reflexivity.
  - vm_compute. reflexivity.
  - intros H. vm_compute in H. discriminate H.
  - apply engine_of_Ok. vm_compute. exact I.
Defined.

(** The CALL of [branch_then_call], issued in cycle 2 behind the branch:
    the rename of R1 to station 7 stands in the branch's snapshot and in the
    CALL's own, and not in the live table. *)
Example call_rename_in_both_snapshots :
  (λ t, (register_status t !! 1%nat,
         (λ ss, (ss_issue ss, ss_register_status ss !! 1%nat))
           <$> system_status_queue t))
    (engine_of (issue_into 3 0 branch_call_one))
  = (Some 0, [(1, Some 7); (2, Some 7)]).
Proof. vm_compute. reflexivity. Qed.

(** *** Broadcast and flush *)

Lemma bank_alter_same (B : list (list ReservationStation)) i j s :
  bank_at B i j = Some s → alter (λ row, <[j := s]> row) i B = B.
Proof.
  unfold bank_at. intros Hs. apply list_eq. intros i'.
  destruct (decide (i = i')) as [<-|Hne].
  - rewrite list_lookup_alter_eq.
    destruct (B !! i) as [row|]; simpl in *; [|done]. by rewrite list_insert_id.
  - by rewrite list_lookup_alter_ne.
Qed.

Lemma broadcast_station_result res id i j t t' :
  id ≠ 0 → broadcast_station res id i j t = Ok t' →
  ∃ s, station_at t i j = Some s
     ∧ reservation_stations t'
       = alter (λ row, <[j := after_broadcast res id s]> row) i
           (reservation_stations t).
Proof.
  unfold broadcast_station, after_broadcast. intros Hid H.
  apply Res_bind_Ok in H as (s & Hs%get_station_at & H). exists s. split; [done|].
  destruct (busy s) eqn:Hb;
    [|injection H as <-; symmetry; by apply bank_alter_same].
  rewrite !(bool_decide_eq_true_2 (id ≠ 0)), !andb_true_r in H by done.
  apply Res_bind_Ok in H as ([s1 t1] & H1 & H).
  apply Res_bind_Ok in H as ([s2 t2] & H2 & H). injection H as <-.
  assert (s1 = (if bool_decide (qj s = id) then set_vj res (set_qj 0 s) else s)
          ∧ reservation_stations t1 = reservation_stations t) as [-> Hb1].
  { destruct (bool_decide (qj s = id)); [|by injection H1 as <- <-].
    destruct (bool_decide (qk (set_vj res (set_qj 0 s)) = 0));
      [|by injection H1 as <- <-].
    apply Res_bind_Ok in H1 as (u & Hu & H1). injection H1 as <- <-.
    by apply upd_instruction_at in Hu as (? & ? & _ & _ & ->). }
  set (s1 := if bool_decide (qj s = id) then set_vj res (set_qj 0 s) else s) in *.
  assert (s2 = (if bool_decide (qk s1 = id) then set_vk res (set_qk 0 s1) else s1)
          ∧ reservation_stations t2 = reservation_stations t1) as [-> Hb2].
  { destruct (bool_decide (qk s1 = id)); [|by injection H2 as <- <-].
    destruct (bool_decide (qj (set_vk res (set_qk 0 s1)) = 0));
      [|by injection H2 as <- <-].
    apply Res_bind_Ok in H2 as (u & Hu & H2). injection H2 as <- <-.
    by apply upd_instruction_at in Hu as (? & ? & _ & _ & ->). }
  simpl. rewrite Hb2, Hb1. done.
Qed.

Lemma after_broadcast_tags res id s :
  id ≠ 0 → busy (after_broadcast res id s) = busy s
  ∧ (busy s = true → qj (after_broadcast res id s) ≠ id
                     ∧ qk (after_broadcast res id s) ≠ id).
Proof.
  intros Hid. unfold after_broadcast, broadcast_to. split.
  - destruct (busy s) eqn:Hb; [|done].
    destruct (bool_decide (qj s = id)); simpl;
      destruct (bool_decide (qk s = id)); done.
  - intros Hb. rewrite Hb.
    destruct (bool_decide (qj s = id)) eqn:Bj; simpl;
      destruct (bool_decide (qk s = id)) eqn:Bk; simpl;
      try apply bool_decide_eq_false in Bj; try apply bool_decide_eq_false in Bk;
      split; congruence.
Qed.

Lemma after_broadcast_idempotent res id s :
  id ≠ 0 →
  after_broadcast res id (after_broadcast res id s) = after_broadcast res id s.
Proof.
  intros Hid. destruct (after_broadcast_tags res id s Hid) as [Hb Htags].
  unfold after_broadcast at 1. rewrite Hb.
  destruct (busy s) eqn:Hbusy; [|done].
  destruct (Htags eq_refl) as [Hj Hk].
  unfold broadcast_to.
  rewrite (bool_decide_eq_false_2 _ Hj), (bool_decide_eq_false_2 _ Hk). done.
Qed.

(** X17 (broadcast).  [_broadcast_result] with a tag other than 0 reaches
    every station of the seven rows: a free station is left as it is, and in
    a busy one each operand that waited for the tag receives the result and
    has its tag cleared; afterwards no busy station waits for the tag. *)
Theorem X17_broadcast_reaches_every_station (ws : ReservationStation) (id : Z)
    (t t' : Tomasulo) (i j : nat) (s' : ReservationStation) :
  id ≠ 0 →
  _broadcast_result ws id t = Ok t' →
  (i < NUM_RES_STATIONS_Types)%nat →
  station_at t' i j = Some s' →
  (∃ s, station_at t i j = Some s ∧ s' = after_broadcast (result ws) id s)
  ∧ (busy s' = false ∨ qj s' ≠ id ∧ qk s' ≠ id).
Proof.
  intros Hid H Hi Hs'. unfold _broadcast_result in H.
  set (f := after_broadcast (result ws) id).
  set (Inv := λ y : Tomasulo,
    ∀ i j s', station_at y i j = Some s' →
      ∃ s, station_at t i j = Some s ∧ (s' = s ∨ s' = f s)).
  set (G := λ (i j : nat) (s' : ReservationStation),
    ∃ s, station_at t i j = Some s ∧ s' = f s).
  destruct (for_stations_visits Inv G (broadcast_station (result ws) id)
              all_rows t t') as [_ Hall]; [|exact H| |].
  - intros i0 j0 y y' Hy Hbody.
    apply broadcast_station_result in Hbody as (sy & Hsy & Hbank); [|done].
    destruct (Hy _ _ _ Hsy) as (s0 & Hs0 & Hrel).
    assert (f sy = f s0) as Hf.
    { destruct Hrel as [->| ->]; [done|]. by apply after_broadcast_idempotent. }
    split.
    + intros i1 j1 s1 H1. unfold station_at in H1. rewrite Hbank in H1.
      apply bank_at_alter_inv in H1 as [(<- & <- & -> & _)|[_ H1]];
        [|by apply Hy].
      exists s0. split; [done|]. right. done.
    + exists (f sy). split; [|done]. exists s0. done.
  - intros i0 j0 s0 H0. eauto.
  - destruct (Hall _ _ _ Hs') as [[_ (s & Hs & ->)]|[Hnin _]].
    + split; [eauto|].
      destruct (busy (f s)) eqn:Hb; [right|by left].
      destruct (after_broadcast_tags (result ws) id s Hid) as [Hbusy Htags].
      apply Htags. unfold f in Hb. by rewrite Hbusy in Hb.
    + exfalso. apply Hnin. unfold all_rows. apply elem_of_seq. lia.
Qed.

Lemma X17_broadcast_reaches_every_station_witness :
  (∃ s, station_at mul_store_at_write 1 0 = Some s
      ∧ mkStation 3 true None 0 6 0 0 0 2 4 0 0 1 0
        = after_broadcast (result (set_result 6 (new_station 12 10 0))) 12 s)
  ∧ (busy (mkStation 3 true None 0 6 0 0 0 2 4 0 0 1 0) = false
     ∨ qj (mkStation 3 true None 0 6 0 0 0 2 4 0 0 1 0) ≠ 12
       ∧ qk (mkStation 3 true None 0 6 0 0 0 2 4 0 0 1 0) ≠ 12).
Proof.
  apply (X17_broadcast_reaches_every_station (set_result 6 (new_station 12 10 0)) 12
           mul_store_at_write
           (engine_of (_broadcast_result (set_result 6 (new_station 12 10 0)) 12
                         mul_store_at_write))).
  - lia.
  - apply engine_of_Ok. vm_compute. exact I.
  - unfold NUM_RES_STATIONS_Types. lia.
  - vm_compute. reflexivity.
Defined.

Lemma flush_station_result w i j t t' :
  flush_station w i j t = Ok t' →
  ∃ s s', station_at t i j = Some s
     ∧ after_flush (program t) w s = Ok s'
     ∧ program t' = program t
     ∧ reservation_stations t'
       = alter (λ row, <[j := s']> row) i (reservation_stations t).
Proof.
  unfold flush_station, after_flush. intros H.
  apply Res_bind_Ok in H as (s & Hs%get_station_at & H). exists s.
  destruct (busy s) eqn:Hb.
  - apply Res_bind_Ok in H as (x & Hx & H).
    apply Res_bind_Ok in H as (w0 & Hw & H). rewrite Hx, Hw. simpl.
    case_bool_decide.
    + exists (set_busy false s). split_and!; try done.
      * by apply clear_entries_bank in H as (? & _).
      * by apply clear_entries_bank in H as (_ & ? & _).
    + injection H as <-. exists s. split_and!; try done.
      symmetry. by apply bank_alter_same.
  - injection H as <-. exists s. split_and!; try done.
    symmetry. by apply bank_alter_same.
Qed.

Lemma after_flush_idempotent prog w s s' :
  after_flush prog w s = Ok s' → after_flush prog w s' = Ok s'.
Proof.
  unfold after_flush. intros H. destruct (busy s) eqn:Hb.
  - apply Res_bind_Ok in H as (x & Hx & H).
    apply Res_bind_Ok in H as (w0 & Hw & H).
    case_bool_decide as Hy; injection H as <-; [done|].
    rewrite Hb, Hx, Hw. simpl. by rewrite bool_decide_eq_false_2.
  - injection H as <-. by rewrite Hb.
Qed.

(** X18 (flush of the stations).  The first loop of
    [_flush_instructions_after_jump] reaches every station of the seven
    rows: a busy station whose instruction was issued after the retiring one
    is freed, every other station is left as it is; so no station that is
    still busy afterwards holds an instruction issued after the retiring
    one.  The program is not changed. *)
Theorem X18_flush_reaches_every_station (ws : ReservationStation) (t t' : Tomasulo)
    (i j : nat) (s' : ReservationStation) :
  _flush_instructions_after_jump ws t = Ok t' →
  (i < NUM_RES_STATIONS_Types)%nat →
  station_at t' i j = Some s' →
  program t' = program t
  ∧ (∃ s, station_at t i j = Some s
        ∧ after_flush (program t) (inst_index ws) s = Ok s')
  ∧ (busy s' = false
     ∨ ∃ x w, py_get (program t) (inst_index s') = Ok x
            ∧ py_get (program t) (inst_index ws) = Ok w
            ∧ i_issue x ≤ i_issue w).
Proof.
  intros H Hi Hs'. unfold _flush_instructions_after_jump in H.
  apply Res_bind_Ok in H as (t1 & H1 & H).
  apply Res_bind_Ok in H as (q & _ & H). injection H as <-.
  set (w := inst_index ws) in *.
  set (Inv := λ y : Tomasulo,
    program y = program t
    ∧ ∀ i j s', station_at y i j = Some s' →
        ∃ s, station_at t i j = Some s
           ∧ (s' = s ∨ after_flush (program t) w s = Ok s')).
  set (G := λ (i j : nat) (s' : ReservationStation),
    ∃ s, station_at t i j = Some s ∧ after_flush (program t) w s = Ok s').
  destruct (for_stations_visits Inv G (flush_station w) all_rows t t1)
    as [[Hp _] Hall]; [|exact H1| |].
  - intros i0 j0 y y' [Hpy Hy] Hbody.
    apply flush_station_result in Hbody as (sy & sy' & Hsy & Hfl & Hp' & Hbank).
    rewrite Hpy in Hfl.
    destruct (Hy _ _ _ Hsy) as (s0 & Hs0 & Hrel).
    assert (after_flush (program t) w s0 = Ok sy') as Hf.
    { destruct Hrel as [->|Hrel]; [done|].
      rewrite (after_flush_idempotent _ _ _ _ Hrel) in Hfl. congruence. }
    split; [split; [congruence|]|].
    + intros i1 j1 s1 H1'. unfold station_at in H1'. rewrite Hbank in H1'.
      apply bank_at_alter_inv in H1' as [(<- & <- & -> & _)|[_ H1']];
        [|by apply Hy].
      exists s0. split; [done|]. by right.
    + exists sy'. split; [|done]. exists s0. done.
  - split; [done|]. intros i0 j0 s0 H0. eauto.
  - simpl in Hs'. simpl. split; [done|].
    destruct (Hall _ _ _ Hs') as [[_ (s & Hs & Hfl)]|[Hnin _]].
    + split; [eauto|]. unfold after_flush in Hfl.
      destruct (busy s) eqn:Hbs; [|injection Hfl as <-; by left].
      apply Res_bind_Ok in Hfl as (x & Hx & Hfl).
      apply Res_bind_Ok in Hfl as (w0 & Hw & Hfl).
      case_bool_decide as Hy; injection Hfl as <-; [by left|right].
      exists x, w0. split_and!; try done; lia.
    + exfalso. apply Hnin. unfold all_rows. apply elem_of_seq. lia.
Qed.

Lemma X18_flush_reaches_every_station_witness :
  program (engine_of (_flush_instructions_after_jump
                        (mkStation 5 false None 0 0 0 0 1 1 0 0 0 1 1)
                        branch_loads_at_write))
  = program branch_loads_at_write
  ∧ (∃ s, station_at branch_loads_at_write 0 1 = Some s
        ∧ after_flush (program branch_loads_at_write)
            (inst_index (mkStation 5 false None 0 0 0 0 1 1 0 0 0 1 1)) s
          = Ok (mkStation 2 false None 0 0 0 0 0 2 4 2 4 2 (-1)))
  ∧ (busy (mkStation 2 false None 0 0 0 0 0 2 4 2 4 2 (-1)) = false
     ∨ ∃ x w,
         py_get (program branch_loads_at_write)
           (inst_index (mkStation 2 false None 0 0 0 0 0 2 4 2 4 2 (-1))) = Ok x
         ∧ py_get (program branch_loads_at_write)
             (inst_index (mkStation 5 false None 0 0 0 0 1 1 0 0 0 1 1))
           = Ok w
         ∧ i_issue x ≤ i_issue w).
Proof.
  apply (X18_flush_reaches_every_station
           (mkStation 5 false None 0 0 0 0 1 1 0 0 0 1 1) branch_loads_at_write
           (engine_of (_flush_instructions_after_jump
                         (mkStation 5 false None 0 0 0 0 1 1 0 0 0 1 1)
                         branch_loads_at_write)) 0 1).
  - apply engine_of_Ok. vm_compute. exact I.
  - unfold NUM_RES_STATIONS_Types. lia.
  - vm_compute. reflexivity.
Defined.

(** ** Whole cycles and the run loop *)

Lemma for_each_idle {X} (body : nat → X → Res X) js x :
  (∀ j, j ∈ js → body j x = Ok x) → for_each body js x = Ok x.
Proof.
  induction js as [|j js IH]; intros H; simpl; [done|].
  rewrite H by (by left). simpl. apply IH. intros j' Hj'. apply H. by right.
Qed.

Lemma for_stations_idle {X} (eng : X → Tomasulo) (body : nat → nat → X → Res X)
    rows x :
  (∀ i, i ∈ rows → is_Some (reservation_stations (eng x) !! i)) →
  (∀ i j s, station_at (eng x) i j = Some s → body i j x = Ok x) →
  for_stations eng body rows x = Ok x.
Proof.
  intros Hrows Hbody. unfold for_stations. apply for_each_idle.
  intros i Hi. destruct (Hrows i Hi) as [row Hrow].
  unfold get_row. rewrite Hrow. simpl. apply for_each_idle.
  intros j Hj. apply elem_of_seq in Hj.
  destruct (lookup_lt_is_Some_2 row j) as [s Hs]; [lia|].
  apply (Hbody i j s). unfold station_at, bank_at. rewrite Hrow. done.
Qed.

Lemma all_stations_empty_at t i j s :
  all_stations_empty t = true → station_at t i j = Some s → busy s = false.
Proof.
  unfold all_stations_empty, station_at, bank_at. intros H Hs.
  destruct (reservation_stations t !! i) as [row|] eqn:Hrow; simpl in Hs; [|done].
  rewrite forallb_forall in H.
  assert (forallb (λ s, negb (busy s)) row = true) as Hr.
  { apply H. apply list_elem_of_In, list_elem_of_lookup. eauto. }
  rewrite forallb_forall in Hr.
  apply negb_true_iff. apply Hr. apply list_elem_of_In, list_elem_of_lookup. eauto.
Qed.

(** X19 (idle cycle).  When no station is busy and the PC is past the end of
    the program, a cycle on a bank of at least seven rows changes nothing
    but the cycle counter: nothing is issued, executed or written back. *)
Theorem X19_next_cycle_idle (t : Tomasulo) :
  (NUM_RES_STATIONS_Types ≤ length (reservation_stations t))%nat →
  all_stations_empty t = true →
  ¬ pc t < Z.of_nat (length (program t)) →
  next_cycle t = Ok (set_cycle (cycle t + 1) t).
Proof.
  intros Hrows Hempty Hpc.
  assert (∀ rows : list nat, (∀ i, i ∈ rows → (i < 7)%nat) →
            ∀ i, i ∈ rows → is_Some (reservation_stations t !! i)) as Hex.
  { intros rows Hlt i Hi. apply lookup_lt_is_Some_2.
    specialize (Hlt i Hi). unfold NUM_RES_STATIONS_Types in Hrows. lia. }
  assert (execute t = Ok t) as He.
  { unfold execute. rewrite for_stations_idle; simpl.
    - rewrite for_stations_idle; simpl; [done| |].
      + apply Hex. intros i Hi. list_cases Hi; lia.
      + intros i j s Hs. unfold execute_memory_station.
        apply get_station_at in Hs as Hg. rewrite Hg. simpl.
        by rewrite (all_stations_empty_at _ _ _ _ Hempty Hs).
    - apply Hex. intros i Hi. list_cases Hi; lia.
    - intros i j s Hs. unfold execute_station.
      apply get_station_at in Hs as Hg. rewrite Hg. simpl.
      by rewrite (all_stations_empty_at _ _ _ _ Hempty Hs). }
  assert (write t = Ok t) as Hw.
  { unfold write, choose_stations. rewrite for_stations_idle; simpl; [done| |].
    - apply Hex. intros i Hi. apply elem_of_seq in Hi.
      unfold NUM_RES_STATIONS_Types in Hi. lia.
    - intros i j s Hs. unfold choose_station.
      apply get_station_at in Hs as Hg. rewrite Hg. simpl.
      by rewrite (all_stations_empty_at _ _ _ _ Hempty Hs). }
  unfold next_cycle. rewrite bool_decide_eq_false_2 by done. simpl.
  rewrite He. simpl. rewrite Hw. done.
Qed.

Lemma X19_next_cycle_idle_witness :
  next_cycle empty_program_start
  = Ok (set_cycle (cycle empty_program_start + 1) empty_program_start).
Proof.
  apply (X19_next_cycle_idle empty_program_start).
  - vm_compute. lia.
  - vm_compute. reflexivity.
  - vm_compute. discriminate.
Defined.




Lemma for_stations_rows {X} (t : Tomasulo) (body : nat → nat → X → Res X)
    rows x x' :
  for_stations (λ _, t) body rows x = Ok x' →
  ∀ i, i ∈ rows → is_Some (reservation_stations t !! i).
Proof.
  unfold for_stations. revert x. induction rows as [|i rows IH]; intros x H i' Hi'.
  - by apply elem_of_nil in Hi'.
  - simpl in H. apply Res_bind_Ok in H as (y & Hy & H).
    apply Res_bind_Ok in Hy as (row & Hrow & _).
    apply elem_of_cons in Hi' as [->|Hi']; [|by eapply IH].
    unfold get_row in Hrow. destruct (reservation_stations t !! i); [eauto|done].
Qed.

Lemma next_cycle_needs_seven_rows t t' :
  next_cycle t = Ok t' → (7 ≤ length (reservation_stations t))%nat.
Proof.
  intros H. unfold next_cycle in H.
  apply Res_bind_Ok in H as (t1 & H1 & H).
  apply Res_bind_Ok in H as (t2 & H2 & H).
  apply Res_bind_Ok in H as (t3 & H3 & _).
  assert (evolves 0 0 t t1) as E1.
  { case_bool_decide; [by eapply issue_evolves|].
    injection H1 as <-. apply evolves_refl. }
  apply execute_evolves in H2.
  pose proof (evolves_step _ _ _ E1 H2) as E.
  pose proof (Forall2_length _ _ _ (ev_bank _ _ _ _ E)) as Hlen.
  unfold write in H3. apply Res_bind_Ok in H3 as (c & Hc & _).
  unfold choose_stations in Hc.
  destruct (for_stations_rows _ _ _ _ _ Hc 6%nat) as [row Hrow].
  { unfold all_rows, NUM_RES_STATIONS_Types. apply elem_of_seq. lia. }
  apply lookup_lt_Some in Hrow. lia.
Qed.

(** X21 (short hardware file).  The constructor accepts a hardware file of
    fewer than seven lines, but the engine it builds cannot complete a
    single cycle: every stage loops over all seven station categories, so
    [next_cycle] raises. *)
Theorem X21_short_hardware_file_never_runs instruction_file hardware_file memory_file
    initial_PC (t : Tomasulo) (n : nat) :
  construct instruction_file false hardware_file memory_file initial_PC = Ok t →
  (length hardware_file < NUM_RES_STATIONS_Types)%nat →
  ¬ is_Ok (cycles (S n) t).
Proof.
  intros Hc Hlen Hok. apply construct_bank in Hc as (next & _ & Hb).
  change (cycles (S n) t) with (t1 ← next_cycle t; cycles n t1) in Hok.
  destruct (next_cycle t) as [t1|] eqn:H1; [|done].
  apply next_cycle_needs_seven_rows in H1.
  unfold NUM_RES_STATIONS_Types in Hlen. lia.
Qed.

Lemma X21_short_hardware_file_never_runs_witness :
  ¬ is_Ok (cycles 1 short_bank_start).
Proof.
  apply (X21_short_hardware_file_never_runs lone_branch three_line_hardware [] 0).
  - apply engine_of_Ok. vm_compute. exact I.
  - vm_compute. lia.
Defined.

(** *** The selection loop of write-back *)

Lemma for_each_scan {C} (t : Tomasulo) (Inv : C → Prop)
    (G : nat → nat → ReservationStation → C → Prop)
    (body : nat → nat → C → Res C) i js c c' :
  (∀ i j s c c', station_at t i j = Some s → Inv c → body i j c = Ok c' →
     Inv c' ∧ G i j s c'
     ∧ ∀ i0 j0 s0, G i0 j0 s0 c → G i0 j0 s0 c') →
  (∀ j, j ∈ js → is_Some (station_at t i j)) →
  for_each (body i) js c = Ok c' → Inv c →
  Inv c'
  ∧ (∀ j s, j ∈ js → station_at t i j = Some s → G i j s c')
  ∧ (∀ i0 j0 s0, G i0 j0 s0 c → G i0 j0 s0 c').
Proof.
  intros Hstep. revert c. induction js as [|j js IH]; intros c Hex H Hinv; simpl in H.
  - injection H as <-. split_and!; try done. intros j s Hj. by apply elem_of_nil in Hj.
  - apply Res_bind_Ok in H as (c1 & H1 & H).
    destruct (Hex j) as [s Hs]; [by left|].
    destruct (Hstep _ _ _ _ _ Hs Hinv H1) as (Hinv1 & HG1 & Hmono1).
    destruct (IH c1) as (Hinv' & HG' & Hmono'); [|done|done|].
    { intros j' Hj'. apply Hex. by right. }
    split_and!; [done| |by eauto].
    intros j' s' Hj' Hs'. apply elem_of_cons in Hj' as [->|Hj']; [|by apply HG'].
    rewrite Hs in Hs'. injection Hs' as <-. by apply Hmono'.
Qed.

Lemma for_stations_scan {C} (t : Tomasulo) (Inv : C → Prop)
    (G : nat → nat → ReservationStation → C → Prop)
    (body : nat → nat → C → Res C) rows c c' :
  (∀ i j s c c', station_at t i j = Some s → Inv c → body i j c = Ok c' →
     Inv c' ∧ G i j s c'
     ∧ ∀ i0 j0 s0, G i0 j0 s0 c → G i0 j0 s0 c') →
  for_stations (λ _, t) body rows c = Ok c' → Inv c →
  Inv c'
  ∧ (∀ i j s, i ∈ rows → station_at t i j = Some s → G i j s c')
  ∧ (∀ i0 j0 s0, G i0 j0 s0 c → G i0 j0 s0 c').
Proof.
  intros Hstep. unfold for_stations. revert c.
  induction rows as [|i rows IH]; intros c H Hinv; simpl in H.
  - injection H as <-. split_and!; try done. intros i j s Hi. by apply elem_of_nil in Hi.
  - apply Res_bind_Ok in H as (c1 & H1 & H).
    apply Res_bind_Ok in H1 as (row & Hrow & H1).
    destruct (for_each_scan t Inv G body i (seq 0 (length row)) c c1 Hstep)
      as (Hinv1 & HG1 & Hmono1);
      [|exact H1|done|].
    { intros j Hj. apply elem_of_seq in Hj. unfold station_at, bank_at.
      unfold get_row in Hrow.
      destruct (reservation_stations t !! i); [|done]. injection Hrow as ->.
      simpl. apply lookup_lt_is_Some_2. lia. }
    destruct (IH c1 H Hinv1) as (Hinv' & HG' & Hmono').
    split_and!; [done| |by eauto].
    intros i' j s Hi' Hs. apply elem_of_cons in Hi' as [->|Hi']; [|by apply HG'].
    apply Hmono'. apply HG1; [|done].
    apply elem_of_seq. unfold station_at, bank_at in Hs. unfold get_row in Hrow.
    destruct (reservation_stations t !! i); [|done]. injection Hrow as ->.
    simpl in Hs. apply lookup_lt_Some in Hs. lia.
Qed.

(** X22 (oldest eligible instruction).  If a station of the seven rows is
    eligible for write-back and its instruction was issued before cycle
    [2^31 - 1] (the start value of [min_issue_time]), the selection loop of
    [write] ends with [min_issue_time] no greater than that issue cycle, and
    some eligible station issued in exactly cycle [min_issue_time] is the
    choice of its group (the STORE choice for row 1, the other choice
    otherwise).  So the oldest eligible instruction is always one of the at
    most two that retire. *)
Theorem X22_choose_stations_selects_oldest (t : Tomasulo) (c : WriteChoice)
    (i j : nat) (s : ReservationStation) (x : Instruction) :
  choose_stations t = Ok c →
  (i < NUM_RES_STATIONS_Types)%nat →
  station_at t i j = Some s →
  eligible t i s = true →
  py_get (program t) (inst_index s) = Ok x →
  i_issue x < 2 ^ 31 - 1 →
  min_issue_time c ≤ i_issue x
  ∧ ∃ i0 j0 s0 x0, station_at t i0 j0 = Some s0 ∧ eligible t i0 s0 = true
      ∧ py_get (program t) (inst_index s0) = Ok x0
      ∧ i_issue x0 = min_issue_time c
      ∧ min_issue_time c < 2 ^ 31 - 1
      ∧ if bool_decide (i0 = category_value STORE)
        then write_store_station_id c = s_id s0
        else write_station_id c = s_id s0.
Proof.
  intros H. revert i j s x. unfold choose_stations in H.
  set (Inv := λ c : WriteChoice,
    min_issue_time c ≤ 2 ^ 31 - 1
    ∧ (c = no_choice
       ∨ ∃ i j s x, station_at t i j = Some s ∧ eligible t i s = true
           ∧ py_get (program t) (inst_index s) = Ok x
           ∧ i_issue x = min_issue_time c
           ∧ min_issue_time c < 2 ^ 31 - 1
           ∧ if bool_decide (i = category_value STORE)
             then write_store_station_id c = s_id s
             else write_station_id c = s_id s)).
  set (G := λ (i j : nat) (s : ReservationStation) (c : WriteChoice),
    eligible t i s = true → ∀ x, py_get (program t) (inst_index s) = Ok x →
    min_issue_time c ≤ i_issue x).
  destruct (for_stations_scan t Inv G (choose_station t) all_rows no_choice c)
    as ((_ & Hsel) & Hall & _); [|exact H| |].
  - intros i j s c0 c1 Hs [Hcap Hc0] Hbody.
    unfold choose_station in Hbody.
    apply Res_bind_Ok in Hbody as (s1 & Hs1%get_station_at & Hbody).
    rewrite Hs in Hs1. injection Hs1 as <-.
    assert (∀ i0 j0 s0, G i0 j0 s0 c0 → min_issue_time c1 ≤ min_issue_time c0 →
              G i0 j0 s0 c1) as Hmono.
    { intros i0 j0 s0 HG Hle Hel x Hx. specialize (HG Hel x Hx). lia. }
    destruct (busy s && bool_decide (rem_cycles_exec s = 0)) eqn:Hb.
    2:{ injection Hbody as <-. split_and!; [by split| |done].
        intros Hel. apply eligible_true in Hel as (Hbusy & Hrem & _).
        rewrite Hbusy, (bool_decide_eq_true_2 _ Hrem) in Hb. done. }
    apply andb_true_iff in Hb as [Hbusy Hrem%bool_decide_eq_true].
    apply Res_bind_Ok in Hbody as (x & Hx & Hbody).
    destruct (bool_decide (i_exec_end x < cycle t)) eqn:Hend.
    2:{ injection Hbody as <-. split_and!; [by split| |done].
        intros Hel. apply eligible_true in Hel as (_ & _ & (x' & Hx' & He') & _).
        rewrite Hx in Hx'. injection Hx' as <-.
        apply bool_decide_eq_false in Hend. lia. }
    apply bool_decide_eq_true in Hend.
    destruct (bool_decide (i = category_value STORE) && bool_decide (qk s ≠ 0)) eqn:Hq.
    { injection Hbody as <-. split_and!; [by split| |done].
      intros Hel. apply eligible_true in Hel as (_ & _ & _ & Hqk).
      apply andb_true_iff in Hq as [Hi%bool_decide_eq_true Hk%bool_decide_eq_true].
      by specialize (Hqk Hi). }
    assert (eligible t i s = true) as Hel.
    { apply eligible_true. split_and!; eauto. intros ->.
      rewrite bool_decide_eq_true_2 in Hq by done. simpl in Hq.
      by apply bool_decide_eq_false, dec_stable in Hq. }
    destruct (bool_decide (i_issue x < min_issue_time c0)) eqn:Hmin;
      [apply bool_decide_eq_true in Hmin|apply bool_decide_eq_false in Hmin].
    + assert (Inv c1 ∧ min_issue_time c1 = i_issue x) as [Hinv1 Hm1].
      { destruct (bool_decide (i = category_value STORE)) eqn:Hi;
          injection Hbody as <-; simpl; (split; [|done]);
          (split; [simpl; lia|]); right; exists i, j, s, x; rewrite Hi;
          simpl; split_and!; try done; lia. }
      split_and!; [done| |].
      * intros _ x' Hx'. rewrite Hx in Hx'. injection Hx' as <-. lia.
      * intros i0 j0 s0 HG. apply (Hmono _ _ _ HG). lia.
    + injection Hbody as <-. split_and!; [by split| |done].
      intros _ x' Hx'. rewrite Hx in Hx'. injection Hx' as <-. lia.
  - split; [done|]. by left.
  - intros i j s x Hi Hs Hel Hx Hearly.
    assert (min_issue_time c ≤ i_issue x) as Hle.
    { apply (Hall i j s); try done. unfold all_rows. apply elem_of_seq. lia. }
    split; [done|]. destruct Hsel as [->|Hsel]; [|done].
    simpl in Hle. lia.
Qed.

Lemma X22_choose_stations_selects_oldest_witness :
  min_issue_time (mkWriteChoice 12 (-1) 1) ≤ 1
  ∧ ∃ i0 j0 s0 x0, station_at mul_store_at_write i0 j0 = Some s0
      ∧ eligible mul_store_at_write i0 s0 = true
      ∧ py_get (program mul_store_at_write) (inst_index s0) = Ok x0
      ∧ i_issue x0 = min_issue_time (mkWriteChoice 12 (-1) 1)
      ∧ min_issue_time (mkWriteChoice 12 (-1) 1) < 2 ^ 31 - 1
      ∧ if bool_decide (i0 = category_value STORE)
        then write_store_station_id (mkWriteChoice 12 (-1) 1) = s_id s0
        else write_station_id (mkWriteChoice 12 (-1) 1) = s_id s0.
Proof.
  apply (X22_choose_stations_selects_oldest mul_store_at_write
           (mkWriteChoice 12 (-1) 1) 5 0
           (mkStation 12 true None 2 3 0 0 0 10 0 0 0 0 6)
           (mkInstruction 0 MUL None 1 2 11 0 1 2 3 0)).
  - vm_compute. reflexivity.
  - unfold NUM_RES_STATIONS_Types. lia.
  - vm_compute. reflexivity.
  - vm_compute. reflexivity.
  - vm_compute. reflexivity.
  - simpl. lia.
Defined.

(** *** Hazard detection *)

(** X23 (hazard scan).  The scan over a row of stations answers [true]
    exactly when the row holds a busy station that has not finished
    executing, whose instruction was issued before cycle [iss] and whose
    address field equals [a]; it looks up the instruction of such unfinished
    busy stations only. *)
Theorem X23_hazard_scan_finds_older_access (prog : list Instruction) (iss a : Z)
    (row : list ReservationStation) (b : bool) :
  hazard_scan prog iss a row = Ok b →
  (b = true ↔
   ∃ o oi, o ∈ row ∧ busy o = true ∧ rem_cycles_exec o ≠ 0
         ∧ py_get prog (inst_index o) = Ok oi
         ∧ i_issue oi < iss ∧ s_a o = a).
Proof.
  revert b. induction row as [|o row IH]; intros b H; simpl in H.
  - injection H as <-. split; [done|]. intros (o & oi & Hin & _).
    by apply elem_of_nil in Hin.
  - destruct (busy o && bool_decide (rem_cycles_exec o ≠ 0)) eqn:Hb.
    + apply andb_true_iff in Hb as [Hbusy Hrem%bool_decide_eq_true].
      apply Res_bind_Ok in H as (oi & Hoi & H).
      destruct (bool_decide (i_issue oi < iss) && bool_decide (s_a o = a)) eqn:Hhit.
      * injection H as <-. split; [intros _|done].
        apply andb_true_iff in Hhit as [Hi%bool_decide_eq_true Ha%bool_decide_eq_true].
        exists o, oi. split_and!; try done. by left.
      * rewrite (IH b H). split.
        -- intros (o' & oi' & Hin & Hrest). exists o', oi'. split; [by right|done].
        -- intros (o' & oi' & Hin & Hb' & Hr' & Hg' & Hi' & Ha').
           apply elem_of_cons in Hin as [->|Hin]; [|by exists o', oi'].
           rewrite Hoi in Hg'. injection Hg' as <-.
           rewrite !bool_decide_eq_true_2 in Hhit by done. done.
    + rewrite (IH b H). split.
      * intros (o' & oi' & Hin & Hrest). exists o', oi'. split; [by right|done].
      * intros (o' & oi' & Hin & Hb' & Hr' & Hrest).
        apply elem_of_cons in Hin as [->|Hin]; [|by exists o', oi'].
        rewrite Hb', (bool_decide_eq_true_2 _ Hr') in Hb. done.
Qed.

Lemma X23_hazard_scan_finds_older_access_witness :
  true = true ↔
  ∃ o oi, o ∈ [mkStation 3 true None 0 5 0 0 9 2 4 2 0 0 (-1)]
        ∧ busy o = true ∧ rem_cycles_exec o ≠ 0
        ∧ py_get [mkInstruction 0 STORE None 1 0 0 0 0 0 1 9] (inst_index o) = Ok oi
        ∧ i_issue oi < 2 ∧ s_a o = 9.
Proof.
  apply (X23_hazard_scan_finds_older_access
           [mkInstruction 0 STORE None 1 0 0 0 0 0 1 9] 2 9
           [mkStation 3 true None 0 5 0 0 9 2 4 2 0 0 (-1)] true).
  reflexivity.
Defined.

(** *** Execute *)

Lemma issues_py_get (P P' : list Instruction) idx x :
  i_issue <$> P' = i_issue <$> P → py_get P idx = Ok x →
  ∃ x', py_get P' idx = Ok x' ∧ i_issue x' = i_issue x.
Proof.
  intros Heq Hx. apply py_get_at in Hx as (k & Hk & Hx).
  destruct (issues_lookup _ _ _ _ Heq Hx) as (x' & Hx' & Hi).
  exists x'. split; [|done]. apply py_get_at. exists k. split; [|done].
  apply (f_equal length) in Heq. rewrite !length_fmap in Heq. by rewrite Heq.
Qed.

Lemma execute_visit_holds (t y : Tomasulo) i j s i' j' s' x' k :
  (busy s = true →
   ∃ x, py_get (program t) (inst_index s) = Ok x
      ∧ (cycle t ≤ i_issue x ∨ speculation_gate t (i_issue x) = true)) →
  i_issue <$> program y = i_issue <$> program t →
  system_status_queue y = system_status_queue t → cycle y = cycle t →
  station_at y i j = Some s →
  station_at y i' j' = Some s' → busy s' = true →
  py_index (length (program y)) (inst_index s') = Ok k →
  program y !! k = Some x' →
  i_issue x' < cycle y → speculation_gate y (i_issue x') = false →
  i ≠ i' ∨ j ≠ j'.
Proof.
  intros Hheld Hp Hq Hc Hs Hs' Hb Hk Hx Hlt Hgate.
  destruct (decide (i = i')) as [<-|]; [|by left].
  destruct (decide (j = j')) as [<-|]; [|by right].
  exfalso. rewrite Hs in Hs'. injection Hs' as <-.
  destruct (Hheld Hb) as (x & Hx0 & Hcase).
  destruct (issues_py_get _ _ _ _ Hp Hx0) as (x1 & Hx1 & Hi).
  apply py_get_at in Hx1 as (k1 & Hk1 & Hx1). rewrite Hk in Hk1.
  injection Hk1 as <-. rewrite Hx in Hx1. injection Hx1 as <-.
  rewrite Hi, Hc in Hlt. rewrite Hi in Hgate.
  destruct Hcase as [?|Hg]; [lia|].
  unfold speculation_gate in *. rewrite Hq in Hgate. congruence.
Qed.

(** X24 (held stations).  [execute] does not touch a station that is free,
    nor a busy station whose instruction was issued in the current cycle, nor
    one whose instruction was issued after the instruction of the front
    snapshot: such a station looks after the stage exactly as before, so
    speculative instructions make no progress until the branch or jump in
    front of them has retired. *)
Theorem X24_execute_leaves_held_stations (t t' : Tomasulo) (i j : nat)
    (s : ReservationStation) :
  execute t = Ok t' →
  station_at t i j = Some s →
  (busy s = true →
   ∃ x, py_get (program t) (inst_index s) = Ok x
      ∧ (cycle t ≤ i_issue x ∨ speculation_gate t (i_issue x) = true)) →
  station_at t' i j = Some s.
Proof.
  intros H Hs Hheld. unfold execute in H.
  apply Res_bind_Ok in H as (t1 & H1 & H).
  apply Res_bind_Ok in H as ([t2 queue_pop] & H2 & H).
  set (F := λ y : Tomasulo,
    i_issue <$> program y = i_issue <$> program t
    ∧ system_status_queue y = system_status_queue t ∧ cycle y = cycle t
    ∧ station_at y i j = Some s).
  assert (F t1) as F1.
  { eapply (for_stations_preserves _ F); [exact H1|by split_and!|].
    intros i' j' y y' (Hp & Hq & Hc & Hy) Hbody.
    apply execute_station_shape in Hbody
      as [->|(s' & x' & k & Hs' & Hb & Hk & Hx & Hlt & Hgate & _ & _ & _ & ->)];
      [by split_and!|].
    pose proof (execute_visit_holds t y i j s i' j' s' x' k
                  Hheld Hp Hq Hc Hy Hs' Hb Hk Hx Hlt Hgate) as Hne.
    destruct (executed_instruction_fields (cycle y) s' x') as ((_ & _ & _ & Hi & _) & _).
    split_and!; simpl; try done.
    - rewrite <- Hp. by eapply issues_insert.
    - unfold station_at. simpl. rewrite bank_at_alter_other; [done|].
      destruct Hne; [left|right]; congruence. }
  assert (F (t2, queue_pop).1) as F2.
  { eapply (for_stations_preserves _ (λ y, F y.1)); [exact H2|exact F1|].
    intros i' j' [y q] [y' q'] (Hp & Hq & Hc & Hy) Hbody. simpl in *.
    apply execute_memory_station_shape in Hbody
      as [[-> _]|(s' & x' & k & Hs' & Hb & Hk & Hx & Hlt & Hgate & Hcase)];
      [by split_and!|].
    pose proof (execute_visit_holds t y i j s i' j' s' x' k
                  Hheld Hp Hq Hc Hy Hs' Hb Hk Hx Hlt Hgate) as Hne.
    destruct Hcase as [(_ & _ & _ & r & ->)|(_ & _ & _ & stalled & r & ->)].
    - destruct (resolved_instruction_fields (cycle y) s' x')
        as ((_ & _ & _ & Hi & _) & _).
      split_and!; simpl; try done.
      + rewrite <- Hp. by eapply issues_insert.
      + unfold station_at. simpl. rewrite bank_at_alter_other; [done|].
        destruct Hne; [left|right]; congruence.
    - destruct (accessed_instruction_fields (cycle y) stalled s' x')
        as ((_ & _ & _ & Hi & _) & _).
      split_and!; simpl; try done.
      + rewrite <- Hp. by eapply issues_insert.
      + unfold station_at. simpl. rewrite bank_at_alter_other; [done|].
        destruct Hne; [left|right]; congruence. }
  destruct F2 as (_ & _ & _ & Hfin). simpl in Hfin.
  destruct queue_pop; [|by injection H as <-].
  apply Res_bind_Ok in H as (q & _ & H). by injection H as <-.
Qed.

Lemma X24_execute_leaves_held_stations_witness :
  station_at (engine_of (execute (engine_of (issue_into 4 0 branch_then_add_one))))
    4 0
  = Some (mkStation 8 true (Some ADDI) 0 0 0 0 5 2 0 2 0 1 (-1)).
Proof.
  apply (X24_execute_leaves_held_stations
           (engine_of (issue_into 4 0 branch_then_add_one))).
  - apply engine_of_Ok. vm_compute. exact I.
  - vm_compute. reflexivity.
  - intros _. exists (mkInstruction 1 ADDITION (Some ADDI) 2 0 0 0 3 0 0 5).
    split; [vm_compute; reflexivity|]. left. vm_compute. discriminate.
Defined.

(** ** One issue per cycle *)

Lemma execute_issues t t' :
  execute t = Ok t' → i_issue <$> program t' = i_issue <$> program t.
Proof.
  intros H. unfold execute in H.
  apply Res_bind_Ok in H as (t1 & H1 & H).
  apply Res_bind_Ok in H as ([t2 queue_pop] & H2 & H).
  set (F := λ y : Tomasulo, i_issue <$> program y = i_issue <$> program t).
  assert (F t1) as F1.
  { eapply (for_stations_preserves _ F); [exact H1|done|].
    intros i' j' y y' Hp Hbody.
    apply execute_station_shape in Hbody
      as [->|(s' & x' & k & _ & _ & _ & Hx & _ & _ & _ & _ & _ & ->)]; [done|].
    destruct (executed_instruction_fields (cycle y) s' x') as ((_ & _ & _ & Hi & _) & _).
    unfold F in *. simpl. rewrite <- Hp. by eapply issues_insert. }
  assert (F (t2, queue_pop).1) as F2.
  { eapply (for_stations_preserves _ (λ y, F y.1)); [exact H2|exact F1|].
    intros i' j' [y q] [y' q'] Hp Hbody. unfold F in *. simpl in *.
    apply execute_memory_station_shape in Hbody
      as [[-> _]|(s' & x' & k & _ & _ & _ & Hx & _ & _ & Hcase)]; [done|].
    destruct Hcase as [(_ & _ & _ & r & ->)|(_ & _ & _ & stalled & r & ->)]; simpl.
    - destruct (resolved_instruction_fields (cycle y) s' x')
        as ((_ & _ & _ & Hi & _) & _).
      rewrite <- Hp. by eapply issues_insert.
    - destruct (accessed_instruction_fields (cycle y) stalled s' x')
        as ((_ & _ & _ & Hi & _) & _).
      rewrite <- Hp. by eapply issues_insert. }
  unfold F in F2. simpl in F2.
  destruct queue_pop; [|by injection H as <-].
  apply Res_bind_Ok in H as (q & _ & H). by injection H as <-.
Qed.

Lemma broadcast_issues ws id t t' :
  _broadcast_result ws id t = Ok t' →
  i_issue <$> program t' = i_issue <$> program t.
Proof.
  intros H. unfold _broadcast_result in H.
  eapply (for_stations_preserves _
            (λ y, i_issue <$> program y = i_issue <$> program t)); [exact H|done|].
  intros i j y y' Hp Hbody. simpl in *.
  apply broadcast_station_shape in Hbody as [->|(s & _ & _ & _ & _ & Hb)]; [done|].
  destruct (broadcast_stamps id s).
  - destruct Hb as (x & k & _ & Hx & ->). simpl. rewrite <- Hp.
    by eapply issues_insert.
  - by subst y'.
Qed.

Lemma write_other_issues id t t' :
  write_other id t = Ok t' → i_issue <$> program t' = i_issue <$> program t.
Proof.
  unfold write_other. intros H.
  apply Res_bind_Ok in H as ([cat j] & _ & H).
  apply Res_bind_Ok in H as (s & _ & H).
  apply Res_bind_Ok in H as (t1 & H1 & H).
  apply upd_instruction_at in H1 as (k & x & _ & Hx & ->).
  simpl in Hx.
  assert (i_issue <$> <[k := set_i_write_back (cycle t) x]> (program t)
          = i_issue <$> program t) as Hiss by (by eapply issues_insert).
  apply Res_bind_Ok in H as (t2 & H2 & H).
  assert (program t2 = <[k := set_i_write_back (cycle t) x]> (program t)) as Hp2.
  { destruct (bool_decide (cat = category_value JUMP)).
    - unfold write_jump in H2. apply Res_bind_Ok in H2 as (u & Hu & H2).
      apply flush_frame in H2 as (_ & _ & _ & ->).
      destruct (bool_decide _); [|by injection Hu as <-].
      apply Res_bind_Ok in Hu as (r & _ & Hu).
      apply Res_bind_Ok in Hu as (inst & _ & Hu). by injection Hu as <-.
    - destruct (bool_decide (cat = category_value BEQ)); [|by injection H2 as <-].
      unfold write_beq in H2. destruct (bool_decide (result _ = 1)).
      + apply Res_bind_Ok in H2 as (inst & _ & H2).
        by apply flush_frame in H2 as (_ & _ & _ & ->).
      + apply Res_bind_Ok in H2 as (u & Hu & H2).
        apply Res_bind_Ok in H2 as (q & _ & H2). injection H2 as <-. simpl.
        by apply restore_entries_frame in Hu as (-> & _). }
  destruct (_ && _); [|injection H as <-; by rewrite Hp2].
  apply Res_bind_Ok in H as (t3 & H3 & H).
  apply broadcast_issues in H. rewrite H.
  assert (program t3 = program t2) as ->; [|by rewrite Hp2].
  eapply (for_each_preserves (λ y, program y = program t2)); [exact H3|done|].
  intros i y y' Hy Hbody. apply update_register_frame in Hbody as (_ & _ & ->). done.
Qed.

Lemma write_issues t t' :
  write t = Ok t' → i_issue <$> program t' = i_issue <$> program t.
Proof.
  unfold write. intros H.
  apply Res_bind_Ok in H as (c & _ & H).
  apply Res_bind_Ok in H as (t1 & H1 & H).
  assert (i_issue <$> program t1 = i_issue <$> program t) as E1.
  { destruct (bool_decide (write_store_station_id c ≠ -1)); [|by injection H1 as <-].
    apply write_store_shape in H1 as (i & j & s & k & x & m & _ & _ & _ & Hx & ->).
    simpl. by eapply issues_insert. }
  destruct (bool_decide (write_station_id c ≠ -1)); [|injection H as <-; done].
  apply write_other_issues in H. congruence.
Qed.

(** X25 (one issue per cycle).  In every state a run reaches from a freshly
    constructed engine, two different lines of the program never carry the
    same nonzero issue cycle: at most one instruction is issued per cycle,
    and no other stage touches an issue stamp. *)
Theorem X25_run_issues_one_per_cycle instruction_file is_default_hardware
    hardware_file memory_file initial_PC (n k k' : nat) (t0 t : Tomasulo)
    (x x' : Instruction) :
  construct instruction_file is_default_hardware hardware_file memory_file
    initial_PC = Ok t0 →
  cycles n t0 = Ok t →
  program t !! k = Some x → program t !! k' = Some x' →
  k ≠ k' → i_issue x ≠ 0 →
  i_issue x ≠ i_issue x'.
Proof.
  intros Hc Hn Hx Hx' Hne Hnz Heq. apply Hne. revert Hx Hx' Heq Hnz. clear Hne.
  set (I := λ u : Tomasulo,
    (∀ k x, program u !! k = Some x → i_issue x < cycle u)
    ∧ ∀ k k' x x', program u !! k = Some x → program u !! k' = Some x' →
        i_issue x = i_issue x' → i_issue x ≠ 0 → k = k').
  assert (I t) as [_ Hd]; [|by apply Hd].
  assert (I t0) as H0.
  { apply construct_fields in Hc as (_ & _ & Hp & _ & _ & _ & _ & Hcyc & _).
    apply read_lines_blank in Hp; [|by apply Forall_nil].
    rewrite Forall_lookup in Hp.
    assert (∀ k x, program t0 !! k = Some x → i_issue x = 0) as Hz.
    { intros k0 y Hy. specialize (Hp _ _ Hy). unfold timestamps in Hp. congruence. }
    split.
    - intros k0 y Hy. rewrite (Hz _ _ Hy). lia.
    - intros k0 k1 y y' Hy _ _ Hnz. by rewrite (Hz _ _ Hy) in Hnz. }
  clear Hc. revert t0 Hn H0. induction n as [|n IH]; intros t0 Hn H0.
  - simpl in Hn. by injection Hn as <-.
  - change (cycles (S n) t0) with (t1 ← next_cycle t0; cycles n t1) in Hn.
    apply Res_bind_Ok in Hn as (t1 & H1 & Hn).
    apply (IH _ Hn). clear IH Hn.
    unfold next_cycle in H1.
    apply Res_bind_Ok in H1 as (u1 & Hu1 & H1).
    apply Res_bind_Ok in H1 as (u2 & Hu2 & H1).
    apply Res_bind_Ok in H1 as (u3 & Hu3 & H1). injection H1 as <-.
    pose proof (execute_issues _ _ Hu2) as E2.
    pose proof (write_issues _ _ Hu3) as E3.
    assert (i_issue <$> program u3 = i_issue <$> program u1) as E by congruence.
    assert (cycle u3 = cycle t0) as Hcyc.
    { assert (evolves 0 0 t0 u1) as A1.
      { destruct (bool_decide (pc t0 < _)); [by eapply issue_evolves|].
        injection Hu1 as <-. apply evolves_refl. }
      pose proof (execute_evolves _ _ Hu2) as A2.
      destruct (write_evolves _ _ Hu3) as (d & b & _ & _ & A3).
      rewrite (ev_cycle _ _ _ _ A3), (ev_cycle _ _ _ _ A2).
      apply (ev_cycle _ _ _ _ A1). }
    clear E2 E3 Hu2 Hu3.
    destruct H0 as [Hb Hd].
    assert ((∀ k x, program u1 !! k = Some x → i_issue x < cycle t0 + 1)
            ∧ ∀ k k' x x', program u1 !! k = Some x → program u1 !! k' = Some x' →
                i_issue x = i_issue x' → i_issue x ≠ 0 → k = k') as [Hb1 Hd1].
    { assert (program u1 = program t0
              ∨ ∃ k x, program t0 !! k = Some x
                  ∧ program u1 = <[k := set_i_issue (cycle t0) x]> (program t0))
        as [->|(k0 & y0 & Hy0 & ->)].
      { destruct (bool_decide (pc t0 < _)); [|injection Hu1 as <-; by left].
        unfold issue in Hu1.
        apply Res_bind_Ok in Hu1 as (y & _ & Hu1).
        apply Res_bind_Ok in Hu1 as (row & _ & Hu1).
        destruct (find_free row 0) as [j|]; [|injection Hu1 as <-; by left].
        apply issue_into_shape in Hu1
          as (s & y0 & k0 & v1 & v2 & q1 & q2 & _ & _ & Hy0 & _ & _ & Hprog & _).
        right. eauto. }
      - split; [|done]. intros k0 y Hy. specialize (Hb _ _ Hy). lia.
      - assert (∀ k1 y, <[k0 := set_i_issue (cycle t0) y0]> (program t0) !! k1 = Some y →
                  (k1 = k0 ∧ i_issue y = cycle t0)
                  ∨ (k1 ≠ k0 ∧ program t0 !! k1 = Some y)) as Hback.
        { intros k1 y Hy. destruct (decide (k1 = k0)) as [->|Hne].
          - rewrite list_lookup_insert_eq in Hy by (by eapply lookup_lt_Some).
            injection Hy as <-. by left.
          - rewrite list_lookup_insert_ne in Hy by done. by right. }
        split.
        + intros k1 y Hy. apply Hback in Hy as [[_ ->]|[_ Hy]]; [lia|].
          specialize (Hb _ _ Hy). lia.
        + intros k1 k2 y1 y2 Hy1 Hy2 Heq Hnz.
          apply Hback in Hy1 as [[-> E1]|[N1 Hy1]];
            apply Hback in Hy2 as [[-> E2]|[N2 Hy2]]; try done.
          * specialize (Hb _ _ Hy2). lia.
          * specialize (Hb _ _ Hy1). lia.
          * by apply (Hd k1 k2 y1 y2). }
    assert (∀ k x, program u3 !! k = Some x →
              ∃ y, program u1 !! k = Some y ∧ i_issue y = i_issue x) as Hback3.
    { intros k0 y Hy. by eapply issues_lookup. }
    split; simpl.
    + intros k0 y Hy. destruct (Hback3 _ _ Hy) as (y1 & Hy1 & <-).
      rewrite Hcyc. by apply (Hb1 k0).
    + intros k1 k2 y1 y2 Hy1 Hy2 Heq Hnz.
      destruct (Hback3 _ _ Hy1) as (z1 & Hz1 & E1).
      destruct (Hback3 _ _ Hy2) as (z2 & Hz2 & E2).
      apply (Hd1 k1 k2 z1 z2); congruence.
Qed.

Lemma X25_run_issues_one_per_cycle_witness :
  i_issue (mkInstruction 0 BEQ None 1 2 2 0 0 1 2 0)
  ≠ i_issue (mkInstruction 1 ADDITION (Some ADDI) 2 0 0 0 3 0 0 5).
Proof.
  apply (X25_run_issues_one_per_cycle branch_then_add true [] [] 0 2 0 1
           (engine_of (construct branch_then_add true [] [] 0))
           (engine_of (cycles 2 (engine_of (construct branch_then_add true [] [] 0))))).
  - apply engine_of_Ok. vm_compute. exact I.
  - apply engine_of_Ok. vm_compute. exact I.
  - vm_compute. reflexivity.
  - vm_compute. reflexivity.
  - lia.
  - simpl. lia.
Defined.

(** ** Retirement of a branch *)

Lemma for_each_snoc {X} (body : nat → X → Res X) l a x x' :
  for_each body (l ++ [a]) x = Ok x' →
  ∃ u, for_each body l x = Ok u ∧ body a u = Ok x'.
Proof.
  revert x. induction l as [|b l IH]; intros x H; simpl in H.
  - apply Res_bind_Ok in H as (u & Hu & H). injection H as <-. eauto.
  - apply Res_bind_Ok in H as (y & Hy & H).
    destruct (IH y H) as (u & Hu & Hlast). exists u. simpl. rewrite Hy. done.
Qed.

Lemma restore_entries_copy front n t t' :
  deque_front (system_status_queue t) = Ok front →
  for_each restore_entry (seq 0 n) t = Ok t' →
  length (register_status t') = length (register_status t)
  ∧ (∀ i, (i < n)%nat →
       register_status t' !! i = ss_register_status front !! i
       ∧ is_Some (register_status t' !! i))
  ∧ (∀ i, (n ≤ i)%nat → register_status t' !! i = register_status t !! i).
Proof.
  intros Hfront. revert t'. induction n as [|n IH]; intros t' H.
  - simpl in H. injection H as <-. split_and!; try done. intros i Hi. lia.
  - rewrite seq_S in H. simpl in H.
    apply for_each_snoc in H as (u & Hu & Hlast).
    destruct (IH _ Hu) as (Hlen & Hcopied & Hrest).
    apply restore_entries_frame in Hu as (_ & _ & Hq & _).
    unfold restore_entry in Hlast. rewrite Hq, Hfront in Hlast. simpl in Hlast.
    apply Res_bind_Ok in Hlast as (v & Hv & Hlast).
    apply Res_bind_Ok in Hlast as (l & Hl & Hlast). injection Hlast as <-. simpl.
    apply py_get_nonneg in Hv; [|lia]. rewrite Nat2Z.id in Hv.
    apply py_set_nonneg in Hl as (-> & Hlt); [|lia]. rewrite Nat2Z.id in *.
    rewrite length_insert. split_and!; [done| |].
    + intros i Hi. destruct (decide (i = n)) as [->|Hne].
      * rewrite list_lookup_insert_eq by done. rewrite Hv. eauto.
      * rewrite list_lookup_insert_ne by done. apply Hcopied. lia.
    + intros i Hi. rewrite list_lookup_insert_ne by lia. apply Hrest. lia.
Qed.

(** X26 (branch retirement).  When a BEQ station retires, the branch counter
    grows by one.  If the result is 1 (taken), the PC becomes
    [1 + index + a], one misprediction is counted and the snapshot queue is
    emptied.  Otherwise the PC and the misprediction counter stay, the eight
    entries of the live rename table are overwritten with those of the front
    snapshot, and exactly that snapshot leaves the queue. *)
Theorem X26_write_beq_outcome (ws : ReservationStation) (t t' : Tomasulo) :
  write_beq ws t = Ok t' →
  num_beq t' = num_beq t + 1
  ∧ if bool_decide (result ws = 1)
    then ∃ inst, py_get (program t) (inst_index ws) = Ok inst
           ∧ pc t' = 1 + i_index inst + s_a ws
           ∧ num_mispredictions t' = num_mispredictions t + 1
           ∧ system_status_queue t' = []
    else ∃ front, system_status_queue t = front :: system_status_queue t'
           ∧ pc t' = pc t
           ∧ num_mispredictions t' = num_mispredictions t
           ∧ length (register_status t') = length (register_status t)
           ∧ (NUM_REGISTERS ≤ length (register_status t'))%nat
           ∧ take NUM_REGISTERS (register_status t')
             = take NUM_REGISTERS (ss_register_status front).
Proof.
  unfold write_beq. intros H.
  destruct (bool_decide (result ws = 1)) eqn:Hres.
  - apply Res_bind_Ok in H as (inst & Hinst & H).
    pose proof (flush_evolves _ _ _ H) as E.
    apply flush_frame in H as (Hpc & _ & Hq & _). simpl in *.
    destruct E as [_ _ _ _ _ _ _ _ _ Hb Hm]. simpl in *.
    split; [lia|].
    exists inst. split_and!; try done. lia.
  - apply Res_bind_Ok in H as (t1 & H1 & H).
    apply Res_bind_Ok in H as (q & Hq & H). injection H as <-.
    pose proof (restore_entries_frame _ _ _ H1) as (_ & _ & Hsq & Hpc & _).
    assert (evolves 0 0 (set_num_beq (num_beq t + 1) t) t1) as E.
    { eapply (for_each_preserves (evolves 0 0 _)); [exact H1|apply evolves_refl|].
      intros k y y' Hy Hk. eapply evolves_step; [exact Hy|].
      by eapply restore_entry_evolves. }
    destruct E as [_ _ _ _ _ _ _ _ _ Hb Hm]. simpl in Hb, Hm, Hsq, Hpc.
    rewrite Hsq in Hq. unfold popleft in Hq.
    destruct (system_status_queue t) as [|front rest] eqn:Eq; [done|].
    injection Hq as <-.
    destruct (restore_entries_copy front NUM_REGISTERS
                (set_num_beq (num_beq t + 1) t) t1)
      as (Hlen & Hcopied & _); [simpl; by rewrite Eq|exact H1|].
    simpl in Hlen. simpl.
    split; [lia|].
    exists front. split_and!; try done; try lia.
    + destruct (Hcopied (pred NUM_REGISTERS)) as [_ Hsome];
        [unfold NUM_REGISTERS; lia|].
      apply lookup_lt_is_Some in Hsome. unfold NUM_REGISTERS in *. simpl in Hsome. lia.
    + apply list_eq. intros i. destruct (decide (i < NUM_REGISTERS)%nat) as [Hi|Hi].
      * rewrite !lookup_take_lt by done. by destruct (Hcopied i Hi).
      * rewrite !lookup_take_ge by lia. done.
Qed.

Lemma X26_write_beq_outcome_witness :
  num_beq (engine_of (write_beq (mkStation 5 false None 1 2 0 0 0 1 0 0 0 0 0)
                        lone_branch_at_write))
  = num_beq lone_branch_at_write + 1
  ∧ ∃ front,
      system_status_queue lone_branch_at_write
      = front :: system_status_queue
                   (engine_of (write_beq (mkStation 5 false None 1 2 0 0 0 1 0 0 0 0 0)
                                 lone_branch_at_write))
      ∧ pc (engine_of (write_beq (mkStation 5 false None 1 2 0 0 0 1 0 0 0 0 0)
                         lone_branch_at_write))
        = pc lone_branch_at_write
      ∧ num_mispredictions
          (engine_of (write_beq (mkStation 5 false None 1 2 0 0 0 1 0 0 0 0 0)
                        lone_branch_at_write))
        = num_mispredictions lone_branch_at_write
      ∧ length (register_status
                  (engine_of (write_beq (mkStation 5 false None 1 2 0 0 0 1 0 0 0 0 0)
                                lone_branch_at_write)))
        = length (register_status lone_branch_at_write)
      ∧ (NUM_REGISTERS
         ≤ length (register_status
                     (engine_of (write_beq
                                   (mkStation 5 false None 1 2 0 0 0 1 0 0 0 0 0)
                                   lone_branch_at_write))))%nat
      ∧ take NUM_REGISTERS
          (register_status
             (engine_of (write_beq (mkStation 5 false None 1 2 0 0 0 1 0 0 0 0 0)
                           lone_branch_at_write)))
        = take NUM_REGISTERS (ss_register_status front).
Proof.
  apply (X26_write_beq_outcome (mkStation 5 false None 1 2 0 0 0 1 0 0 0 0 0)
           lone_branch_at_write).
  apply engine_of_Ok. vm_compute. exact I.
Defined.
